(** * RPW volatile-data pipeline: embedding of [rpw_processing.py]

    The module cleans the [LibRes] sheet of a GC-MS export: it parses sample
    metadata from the file name, finds the sheet, keeps the best-quality hit
    per compound, renames the columns and attaches the metadata.

    Conventions of the embedding.
    - Python [str] values are ASCII strings; [lower], [\d] and [\s] are the
      ASCII restrictions of Python's (for [\s]: 9-13, 28-31 and 32).
    - Python [int] is [Z]; [int()] of a run of decimal digits raises
      [ValueError] beyond the interpreter's cap of 4300 digits.
    - A cell of a table is [option value]: [None] is pandas' NaN/None, a
      value is a number or a text.  Numbers are [Z].
    - A raised exception is a value of [exn]; code that can raise returns
      [result].  The two exceptions the module raises itself are told apart
      from those raised inside pandas, which it lets through.
    - Reading the binary workbook is pandas' business: an uploaded file is
      given by what [pd.ExcelFile] makes of it, and a workbook by its sheet
      names and by what [pd.read_excel] parses from each sheet.  The table
      read from a sheet carries a [RangeIndex]. *)

From Stdlib Require Import ZArith List Bool Arith Lia.
From Stdlib Require Import Strings.String Strings.Ascii.
From Stdlib Require Import Sorting.Sorted Sorting.Permutation.
From Stdlib Require Import Structures.OrdersEx Classes.RelationClasses.
Import ListNotations.

Local Open Scope string_scope.
Local Open Scope list_scope.

(* ===================================================================== *)
(** ** Exceptions *)
(* ===================================================================== *)

(** Exceptions raised inside pandas. *)
Inductive pandas_exn :=
| PdKeyError (what : string)
| PdTypeError (what : string)
| PdValueError (what : string)
| PdReaderError (what : string).

(** The module raises two exceptions of its own; the payload is the list
    its message interpolates.  The builtin [int] raises a [ValueError] on
    a decimal literal of more than 4300 digits; the payload is the number
    of digits its message reports.  Whatever pandas raises is not
    caught. *)
Inductive exn :=
| ValueError (sheets : list string)
    (* line 70: "No 'LibRes' sheet found in file. Sheets: {sheets}" *)
| KeyError (available : list string)
    (* line 92: "No compound column found. Available columns: {available}" *)
| IntValueError (digits : nat)
    (* line 25: "Exceeds the limit (4300 digits) for integer string
       conversion: value has {digits} digits; ..." *)
| Propagated (e : pandas_exn).

Inductive result (E A : Type) : Type :=
| Ok (a : A)
| Raise (e : E).

Arguments Ok {E A} a.
Arguments Raise {E A} e.

Definition bind {E A B} (m : result E A) (k : A -> result E B) : result E B :=
  match m with
  | Ok a => k a
  | Raise e => Raise e
  end.

(** A pandas call inside the module: its exception propagates. *)
Definition pd {A} (m : result pandas_exn A) : result exn A :=
  match m with
  | Ok a => Ok a
  | Raise e => Raise (Propagated e)
  end.

Notation "x <- m ;; k" := (bind m (fun x => k))
  (at level 61, m at next level, right associativity).

(* ===================================================================== *)
(** ** Python strings *)
(* ===================================================================== *)

Module Str.

(** [c.isupper()] restricted to ASCII, and the letter [c.lower()] gives. *)
Definition lower_ascii (c : ascii) : ascii :=
  let n := nat_of_ascii c in
  if ((65 <=? n) && (n <=? 90))%nat then ascii_of_nat (n + 32) else c.

(** [s.lower()] *)
Fixpoint lower (s : string) : string :=
  match s with
  | EmptyString => EmptyString
  | String c s' => String (lower_ascii c) (lower s')
  end.

(** the class [\d] *)
Definition is_digit (c : ascii) : bool :=
  let n := nat_of_ascii c in ((48 <=? n) && (n <=? 57))%nat.

(** the class [\s] *)
Definition is_space (c : ascii) : bool :=
  let n := nat_of_ascii c in
  (((9 <=? n) && (n <=? 13)) || ((28 <=? n) && (n <=? 32)))%nat.

(** [s.startswith(p)] *)
Fixpoint startswith (p s : string) : bool :=
  match p, s with
  | EmptyString, _ => true
  | String a p', String b s' => Ascii.eqb a b && startswith p' s'
  | String _ _, EmptyString => false
  end.

(** [sub in s] *)
Fixpoint contains (sub s : string) : bool :=
  if startswith sub s then true
  else match s with
       | EmptyString => false
       | String _ s' => contains sub s'
       end.

(** [s.endswith(p)] *)
Fixpoint endswith (p s : string) : bool :=
  if String.eqb p s then true
  else match s with
       | EmptyString => false
       | String _ s' => endswith p s'
       end.

(** Every character of [s] satisfies [p]. *)
Fixpoint all (p : ascii -> bool) (s : string) : bool :=
  match s with
  | EmptyString => true
  | String c s' => p c && all p s'
  end.

(** The longest prefix of [s] whose characters satisfy [p], and the rest:
    what a greedy [p+] or [p*] consumes. *)
Fixpoint span (p : ascii -> bool) (s : string) : string * string :=
  match s with
  | EmptyString => (EmptyString, EmptyString)
  | String c s' =>
      if p c then let (a, b) := span p s' in (String c a, b)
      else (EmptyString, s)
  end.

(** The number a run of decimal digits denotes. *)
Definition digit_val (c : ascii) : Z := Z.of_nat (nat_of_ascii c - 48).

Fixpoint int_acc (acc : Z) (s : string) : Z :=
  match s with
  | EmptyString => acc
  | String c s' => int_acc (10 * acc + digit_val c) s'
  end.

(** [sys.get_int_max_str_digits()], as the interpreter starts. *)
Definition int_max_str_digits : nat := 4300.

(** [int(s)] for a run of decimal digits [s]: the conversion counts the
    digits, leading zeros included, and raises [ValueError] when there are
    more than [int_max_str_digits]. *)
Definition int (s : string) : result exn Z :=
  if (int_max_str_digits <? String.length s)%nat
  then Raise (IntValueError (String.length s))
  else Ok (int_acc 0 s).

(** [s * n] *)
Fixpoint times (s : string) (n : nat) : string :=
  match n with
  | O => EmptyString
  | S n' => (s ++ times s n')%string
  end.

(** [s.isascii()] *)
Fixpoint isascii (s : string) : bool :=
  match s with
  | EmptyString => true
  | String c s' => (nat_of_ascii c <? 128)%nat && isascii s'
  end.

End Str.

(* ===================================================================== *)
(** ** Filename metadata parser *)
(* ===================================================================== *)

(** The dictionary [extract_metadata_from_filename] returns; a field is
    [None] where the dictionary holds Python's [None]. *)
Record SampleMetadata := mkMeta {
  group : option string;
  timepoint : option string;
  adsorbent : option string;
  sample : option Z;
  source_file : string
}.

(** [re.match(r"(\d+)\s*h", s)]: group 1 of a match anchored at the start
    of [s].  The greedy [\d+] takes the whole run of digits; giving digits
    back cannot help, since the next character would be a digit again, which
    neither [\s] nor [h] accepts.  The same holds for [\s*]. *)
Definition match_time_at (s : string) : option string :=
  let (d, r) := Str.span Str.is_digit s in
  match d with
  | EmptyString => None
  | String _ _ =>
      let (_, r') := Str.span Str.is_space r in
      if Str.startswith "h" r' then Some d else None
  end.

(** [re.search(r"(\d+)\s*h", s)]: the leftmost start that matches. *)
Fixpoint search_time (s : string) : option string :=
  match match_time_at s with
  | Some d => Some d
  | None =>
      match s with
      | EmptyString => None
      | String _ s' => search_time s'
      end
  end.

(** Drop a literal prefix: [Some rest] when [s = p ++ rest]. *)
Fixpoint strip_prefix (p s : string) : option string :=
  match p, s with
  | EmptyString, _ => Some s
  | String a p', String b s' =>
      if Ascii.eqb a b then strip_prefix p' s' else None
  | String _ _, EmptyString => None
  end.

(** [re.match(r"-(char|dvb)-(\d+)", s)]: group 2 of a match anchored at
    the start of [s].  The alternation tries [char] before [dvb]. *)
Definition match_sample_at (s : string) : option string :=
  match strip_prefix "-" s with
  | None => None
  | Some r =>
      let after_token :=
        match strip_prefix "char" r with
        | Some r' => Some r'
        | None => strip_prefix "dvb" r
        end in
      match after_token with
      | None => None
      | Some r' =>
          match strip_prefix "-" r' with
          | None => None
          | Some r'' =>
              match fst (Str.span Str.is_digit r'') with
              | EmptyString => None
              | String c d => Some (String c d)
              end
          end
      end
  end.

(** [re.search(r"-(char|dvb)-(\d+)", s)] *)
Fixpoint search_sample (s : string) : option string :=
  match match_sample_at s with
  | Some d => Some d
  | None =>
      match s with
      | EmptyString => None
      | String _ s' => search_sample s'
      end
  end.

Definition extract_metadata_from_filename (filename : string)
  : result exn SampleMetadata :=
  let name := Str.lower filename in
  let m_time := search_time name in
  let timepoint :=
    match m_time with Some g1 => Some (g1 ++ "h")%string | None => None end in
  let adsorbent :=
    if Str.contains "char" name then Some "char"
    else if Str.contains "dvb" name then Some "dvb"
    else None in
  let m_sample := search_sample name in
  sample <- match m_sample with
            | Some g2 => n <- Str.int g2 ;; Ok (Some n)
            | None => Ok None
            end ;;
  let group :=
    if Str.contains "healthy" name && negb (Str.contains "infested" name)
    then (if Str.contains "masa" name then Some "healthy+masa" else Some "healthy")
    else if Str.contains "infested" name
    then (if Str.contains "masa" name then Some "infested+masa" else Some "infested")
    else None in
  Ok {| group := group;
        timepoint := timepoint;
        adsorbent := adsorbent;
        sample := sample;
        source_file := filename |}.

(** What a cell of a table holds: a number or a text. *)
Inductive value :=
| VNum (z : Z)
| VStr (s : string).

(** A cell; [None] is NaN. *)
Definition cell := option value.

(** [meta.items()]: the keys in insertion order, each value as a cell. *)
Definition items (meta : SampleMetadata) : list (string * cell) :=
  [ ("group", option_map VStr (group meta));
    ("timepoint", option_map VStr (timepoint meta));
    ("adsorbent", option_map VStr (adsorbent meta));
    ("sample", option_map VNum (sample meta));
    ("source_file", Some (VStr (source_file meta))) ].

(* ===================================================================== *)
(** ** Values and their ordering *)
(* ===================================================================== *)

Module Value.

Definition eqb (a b : value) : bool :=
  match a, b with
  | VNum x, VNum y => Z.eqb x y
  | VStr x, VStr y => String.eqb x y
  | _, _ => false
  end.

Definition eq_dec (a b : value) : {a = b} + {a <> b}.
Proof. decide equality; [apply Z.eq_dec | apply string_dec]. Defined.

Definition same_kind (a b : value) : bool :=
  match a, b with
  | VNum _, VNum _ => true
  | VStr _, VStr _ => true
  | _, _ => false
  end.

(** The order pandas sorts group keys by: numbers by value, texts
    lexicographically by character code, and, in a column that mixes both,
    numbers before texts. *)
Definition compare (a b : value) : comparison :=
  match a, b with
  | VNum x, VNum y => Z.compare x y
  | VStr x, VStr y => String_as_OT.compare x y
  | VNum _, VStr _ => Lt
  | VStr _, VNum _ => Gt
  end.

Definition leb (a b : value) : bool :=
  match compare a b with Gt => false | _ => true end.

(** [a < b] in Python: defined between two numbers and between two texts;
    a number against a text is a [TypeError]. *)
Definition lt (a b : value) : Prop :=
  match a, b with
  | VNum x, VNum y => (x < y)%Z
  | VStr x, VStr y => String_as_OT.lt x y
  | _, _ => False
  end.

End Value.

(* ===================================================================== *)
(** ** Tables *)
(* ===================================================================== *)

(** A row with its index label. *)
Record Row := mkRow { label : nat; cells : list cell }.

(** [pd.DataFrame]: the column index and the rows in their current order. *)
Record DataFrame := mkDF { columns : list string; rows : list Row }.

(** What [pd.read_excel(..., header=8)] parses from a sheet: the names of
    the header row (pandas makes them pairwise distinct) and one list of
    cells per data row. *)
Record Sheet := mkSheet { header : list string; body : list (list cell) }.

Module Frame.

(** A list of cells at width [n]: padded with NaN, cut when longer. *)
Definition fit (n : nat) (cs : list cell) : list cell :=
  firstn n (cs ++ repeat None n).

(** Labels [start, start+1, ...]: a [RangeIndex]. *)
Fixpoint range_index (start : nat) (body : list (list cell)) : list Row :=
  match body with
  | [] => []
  | cs :: t => mkRow start cs :: range_index (S start) t
  end.

(** The frame [read_excel] returns for a parsed sheet. *)
Definition of_sheet (s : Sheet) : DataFrame :=
  mkDF (header s)
       (range_index 0 (map (fit (List.length (header s))) (body s))).

(** Position of the first column called [c]. *)
Fixpoint position (c : string) (cols : list string) : option nat :=
  match cols with
  | [] => None
  | h :: t =>
      if String.eqb c h then Some 0
      else match position c t with
           | Some i => Some (S i)
           | None => None
           end
  end.

Definition at_pos (i : nat) (r : Row) : cell := nth i (cells r) None.

(** [df[c]]: the cells of column [c], one per row. *)
Definition getitem (df : DataFrame) (c : string) : result pandas_exn (list cell) :=
  match position c (columns df) with
  | Some i => Ok (map (at_pos i) (rows df))
  | None => Raise (PdKeyError c)
  end.

Fixpoint replace_nth (i : nat) (v : cell) (cs : list cell) {struct cs} : list cell :=
  match cs with
  | [] => []
  | h :: t =>
      match i with
      | O => v :: t
      | S j => h :: replace_nth j v t
      end
  end.

(** One row of [df[c] = ...]: overwrite column [c] where it exists, else
    append it as the last column. *)
Definition set_cell (cols : list string) (c : string) (r : Row) (v : cell) : Row :=
  let cs := fit (List.length cols) (cells r) in
  match position c cols with
  | Some i => mkRow (label r) (replace_nth i v cs)
  | None => mkRow (label r) (cs ++ [v])
  end.

Definition set_columns (cols : list string) (c : string) : list string :=
  match position c cols with
  | Some _ => cols
  | None => cols ++ [c]
  end.

(** [df[c] = series], the series aligned with the rows of [df]. *)
Definition setitem (df : DataFrame) (c : string) (series : list cell) : DataFrame :=
  mkDF (set_columns (columns df) c)
       (map (fun rv => set_cell (columns df) c (fst rv) (snd rv))
            (combine (rows df) series)).

(** [df[c] = v] for a scalar [v]. *)
Definition setitem_scalar (df : DataFrame) (c : string) (v : cell) : DataFrame :=
  mkDF (set_columns (columns df) c)
       (map (fun r => set_cell (columns df) c r v) (rows df)).

Definition isna (c : cell) : bool :=
  match c with None => true | Some _ => false end.

(** [df.dropna(how="all")] *)
Definition dropna_all (df : DataFrame) : DataFrame :=
  mkDF (columns df)
       (filter (fun r => negb (forallb isna (cells r))) (rows df)).

(** [df.dropna(subset=[c])] *)
Definition dropna_subset (df : DataFrame) (c : string) : result pandas_exn DataFrame :=
  match position c (columns df) with
  | Some i => Ok (mkDF (columns df)
                       (filter (fun r => negb (isna (at_pos i r))) (rows df)))
  | None => Raise (PdKeyError c)
  end.

(** [series.ffill()]: a NaN takes the last value seen above it. *)
Fixpoint ffill_from (last : cell) (series : list cell) : list cell :=
  match series with
  | [] => []
  | None :: t => last :: ffill_from last t
  | Some v :: t => Some v :: ffill_from (Some v) t
  end.

Definition ffill (series : list cell) : list cell := ffill_from None series.

(** The values of a series that are not NaN. *)
Fixpoint notna (series : list cell) : list value :=
  match series with
  | [] => []
  | None :: t => notna t
  | Some v :: t => v :: notna t
  end.

(** Distinct values in order of first appearance. *)
Fixpoint uniques (l : list value) : list value :=
  match l with
  | [] => []
  | x :: t => x :: filter (fun y => negb (Value.eqb x y)) (uniques t)
  end.

Fixpoint insert_by {A} (leb : A -> A -> bool) (x : A) (l : list A) : list A :=
  match l with
  | [] => [x]
  | y :: t => if leb x y then x :: l else y :: insert_by leb x t
  end.

(** A stable sort. *)
Definition sort_by {A} (leb : A -> A -> bool) (l : list A) : list A :=
  fold_right (insert_by leb) [] l.

(** The keys of [df.groupby(key)]: distinct, NaN dropped, sorted. *)
Definition group_keys (keys : list cell) : list value :=
  sort_by Value.leb (uniques (notna keys)).

(** [idxmax] of one group, NaN skipped: the label of the first row that
    holds the largest number (a later row replaces the best one only when
    it is strictly larger); [None] (NaN) when the group has no number.
    [Quality] is the numeric score of the instrument, and the embedding
    follows [idxmax] on numbers and NaN.  On a column that holds text
    pandas compares the cells as Python objects, which is not followed
    here: the embedding stops at the first text with a [TypeError], so
    what is proved of a reduction that returns is proved for the numeric
    columns. *)
Fixpoint idxmax_from (best : option (nat * Z)) (group : list (nat * cell))
  : result pandas_exn (option nat) :=
  match group with
  | [] => Ok (option_map fst best)
  | (_, None) :: t => idxmax_from best t
  | (l, Some (VNum q)) :: t =>
      match best with
      | None => idxmax_from (Some (l, q)) t
      | Some (_, bq) =>
          if (bq <? q)%Z then idxmax_from (Some (l, q)) t
          else idxmax_from best t
      end
  | (_, Some (VStr _)) :: t => Raise (PdTypeError "idxmax")
  end.

Definition idxmax (group : list (nat * cell)) : result pandas_exn (option nat) :=
  idxmax_from None group.

Definition has_key (i : nat) (k : value) (r : Row) : bool :=
  match at_pos i r with
  | Some v => Value.eqb k v
  | None => false
  end.

(** The rows of group [k], as (label, cell of the aggregated column). *)
Definition group_of (ki qi : nat) (k : value) (rs : list Row) : list (nat * cell) :=
  map (fun r => (label r, at_pos qi r)) (filter (has_key ki k) rs).

Fixpoint idxmax_groups (ki qi : nat) (rs : list Row) (keys : list value)
  : result pandas_exn (list (value * option nat)) :=
  match keys with
  | [] => Ok []
  | k :: t =>
      l <- idxmax (group_of ki qi k rs) ;;
      rest <- idxmax_groups ki qi rs t ;;
      Ok ((k, l) :: rest)
  end.

(** [df.groupby(key)[col].idxmax()]: a series indexed by the group keys. *)
Definition groupby_idxmax (df : DataFrame) (key col : string)
  : result pandas_exn (list (value * option nat)) :=
  match position key (columns df) with
  | None => Raise (PdKeyError key)
  | Some ki =>
      match position col (columns df) with
      | None => Raise (PdKeyError col)
      | Some qi =>
          idxmax_groups ki qi (rows df)
            (group_keys (map (at_pos ki) (rows df)))
      end
  end.

(** [df.loc[idx]]: for each label of [idx], in order, the rows that carry
    it.  A NaN in [idx], left by a group without any number, is not a
    label of the frame: [KeyError]. *)
Fixpoint loc_rows (rs : list Row) (idx : list (value * option nat))
  : result pandas_exn (list Row) :=
  match idx with
  | [] => Ok []
  | (_, None) :: _ => Raise (PdKeyError "nan")
  | (_, Some l) :: t =>
      match filter (fun r => Nat.eqb (label r) l) rs with
      | [] => Raise (PdKeyError "label")
      | found =>
          rest <- loc_rows rs t ;;
          Ok (found ++ rest)
      end
  end.

Definition loc (df : DataFrame) (idx : list (value * option nat))
  : result pandas_exn DataFrame :=
  rs <- loc_rows (rows df) idx ;;
  Ok (mkDF (columns df) rs).

(** NaN sorts last. *)
Definition cell_leb (a b : cell) : bool :=
  match a, b with
  | _, None => true
  | None, Some _ => false
  | Some x, Some y => Value.leb x y
  end.

Fixpoint homogeneous (l : list value) : bool :=
  match l with
  | [] => true
  | x :: t => forallb (Value.same_kind x) t && homogeneous t
  end.

(** [df.sort_values(c)]: comparing a number with a text is a
    [TypeError].  The sort of the embedding is stable; pandas' default is
    not, which shows only between rows with equal keys. *)
Definition sort_values (df : DataFrame) (c : string) : result pandas_exn DataFrame :=
  match position c (columns df) with
  | None => Raise (PdKeyError c)
  | Some i =>
      if homogeneous (notna (map (at_pos i) (rows df)))
      then Ok (mkDF (columns df)
                    (sort_by (fun a b => cell_leb (at_pos i a) (at_pos i b)) (rows df)))
      else Raise (PdTypeError "'<' not supported between instances of 'str' and 'int'")
  end.

(** [df.reset_index(drop=True)] *)
Definition reset_index (df : DataFrame) : DataFrame :=
  mkDF (columns df) (range_index 0 (map cells (rows df))).

(** [df.rename(columns=m)]: a name that is a key of [m] is replaced. *)
Fixpoint lookup (m : list (string * string)) (c : string) : option string :=
  match m with
  | [] => None
  | (k, v) :: t => if String.eqb c k then Some v else lookup t c
  end.

Definition rename_one (m : list (string * string)) (c : string) : string :=
  match lookup m c with
  | Some c' => c'
  | None => c
  end.

Definition rename (df : DataFrame) (m : list (string * string)) : DataFrame :=
  mkDF (map (rename_one m) (columns df)) (rows df).

End Frame.

(* ===================================================================== *)
(** ** Sheet extractor *)
(* ===================================================================== *)

(** [pd.ExcelFile]: an open workbook.  [parse xls name h] is what
    [pd.read_excel(xls, sheet_name=name, header=h)] does with it: the
    parsed sheet, or the exception the reader raises. *)
Record ExcelFile := mkExcelFile {
  sheet_names : list string;
  parse : string -> nat -> result pandas_exn Sheet
}.

(** The uploaded stream: [opened f engine] is what
    [pd.ExcelFile(f, engine=engine)] does with it. *)
Record FileObj := mkFileObj {
  opened : option string -> result pandas_exn ExcelFile
}.

(** The loop of lines 63-67: the first sheet name that lowercases to
    ["libres"], [None] when the loop ends without a [break]. *)
Definition find_libres (names : list string) : option string :=
  find (fun s => String.eqb (Str.lower s) "libres") names.

Definition load_libres_sheet (file_obj : FileObj) (filename : string)
  : result exn DataFrame :=
  let fname := Str.lower filename in
  let engine := if Str.endswith ".xls" fname then Some "xlrd" else None in
  xls <- pd (opened file_obj engine) ;;
  let libres_name := find_libres (sheet_names xls) in
  match libres_name with
  | None => Raise (ValueError (sheet_names xls))
  | Some name =>
      df_raw <- pd (parse xls name 8) ;;
      Ok (Frame.of_sheet df_raw)
  end.

(* ===================================================================== *)
(** ** Top-hit reducer *)
(* ===================================================================== *)

(** Lines 88-90: the columns whose name contains ["compound"]. *)
Definition compound_candidates (df : DataFrame) : list string :=
  filter (fun c => Str.contains "compound" (Str.lower c)) (columns df).

(** Lines 100-107: drop the empty rows, forward-fill the compound column
    into [compound_id], drop the rows it leaves without an identifier. *)
Definition fill_compound_id (df : DataFrame) (col_compound : string)
  : result pandas_exn DataFrame :=
  let df := Frame.dropna_all df in
  ser <- Frame.getitem df col_compound ;;
  let df := Frame.setitem df "compound_id" (Frame.ffill ser) in
  Frame.dropna_subset df "compound_id".

(** Lines 109-111: the row of maximal quality of each compound. *)
Definition top_rows (df : DataFrame) (col_quality : string)
  : result pandas_exn DataFrame :=
  idx <- Frame.groupby_idxmax df "compound_id" col_quality ;;
  top <- Frame.loc df idx ;;
  top <- Frame.sort_values top "compound_id" ;;
  Ok (Frame.reset_index top).

Definition extract_top_hits (df_raw : DataFrame) : result exn DataFrame :=
  let df := df_raw in
  match compound_candidates df with
  | [] => Raise (KeyError (columns df))
  | col_compound :: _ =>
      let col_quality := "Quality" in
      df <- pd (fill_compound_id df col_compound) ;;
      pd (top_rows df col_quality)
  end.

(* ===================================================================== *)
(** ** File cleaner *)
(* ===================================================================== *)

Definition rename_map : list (string * string) :=
  [ ("Compound number (#)", "compound_number");
    ("Compound", "compound_number");
    ("RT (min)", "rt_min");
    ("Scan number (#)", "scan_number");
    ("Scan numb", "scan_number");
    ("Area (Ab*s)", "area_abs");
    ("Baseline Heigth (Ab)", "baseline_height");
    ("Baseline H", "baseline_height");
    ("Absolute Heigth (Ab)", "absolute_height");
    ("Absolute H", "absolute_height");
    ("Peak Width 50% (min)", "peak_width_50");
    ("Peak Widt", "peak_width_50");
    ("Hit Number", "hit_number");
    ("Hit Numbe", "hit_number");
    ("Hit Name", "hit_name");
    ("Quality", "quality");
    ("Mol Weight (amu)", "mol_weight_amu");
    ("CAS Number", "cas_number");
    ("Library", "library");
    ("Entry Number", "entry_number");
    ("Entry Numb", "entry_number") ].

(** Lines 158-159: one constant column per metadata item. *)
Definition attach (df : DataFrame) (meta : list (string * cell)) : DataFrame :=
  fold_left (fun d kv => Frame.setitem_scalar d (fst kv) (snd kv)) meta df.

Definition clean_rpw_file (file_obj : FileObj) (filename : string)
  : result exn DataFrame :=
  df_raw <- load_libres_sheet file_obj filename ;;
  df_hits <- extract_top_hits df_raw ;;
  let df_hits := Frame.rename df_hits rename_map in
  meta <- extract_metadata_from_filename filename ;;
  let df_hits := attach df_hits (items meta) in
  Ok df_hits.

(* ===================================================================== *)
(** ** What it means for a pattern to occur in a name *)
(* ===================================================================== *)

Module Pattern.

Local Open Scope string_scope.

(** [sub] is a substring of [s]. *)
Definition occurs (sub s : string) : Prop :=
  exists pre post, s = pre ++ sub ++ post.

(** A text [\d+] can match. *)
Definition digits (d : string) : Prop :=
  d <> EmptyString /\ Str.all Str.is_digit d = true.

(** A text [\s*] can match. *)
Definition spaces (w : string) : Prop :=
  Str.all Str.is_space w = true.

(** [(\d+)\s*h] matches somewhere in [s]. *)
Definition time_match (s : string) : Prop :=
  exists pre d w post, s = pre ++ d ++ w ++ "h" ++ post /\ digits d /\ spaces w.

(** [-(char|dvb)-(\d+)] matches somewhere in [s]. *)
Definition sample_match (s : string) : Prop :=
  exists pre tok d post,
    s = pre ++ "-" ++ tok ++ "-" ++ d ++ post
    /\ (tok = "char" \/ tok = "dvb") /\ digits d.

End Pattern.

(** No sheet of the workbook is called [LibRes], whatever the case. *)
Definition no_libres (names : list string) : Prop :=
  forall s, In s names -> Str.lower s <> "libres".

(** No column name contains ["compound"], whatever the case. *)
Definition no_compound (cols : list string) : Prop :=
  forall c, In c cols -> ~ Pattern.occurs "compound" (Str.lower c).

(** [a <= b] in Python, between two numbers or between two texts. *)
Definition value_le (a b : value) : Prop := Value.lt a b \/ a = b.

(** The labels of the rows grow along the table, as in a [RangeIndex]
    and in whatever is left of one after rows were dropped. *)
Definition increasing (rs : list Row) : Prop :=
  StronglySorted lt (map label rs).

(** Row [r] is the top hit of compound [k] among the rows [rs], whose
    compound identifier is at position [ki] and quality at [qi]: it
    belongs to the group, holds a number as quality, every row of the group
    above it has a smaller quality and no row of the group below it has a
    larger one. *)
Definition first_best (ki qi : nat) (rs : list Row) (k : value) (r : Row) : Prop :=
  exists before after q,
    rs = before ++ r :: after
    /\ Frame.has_key ki k r = true
    /\ Frame.at_pos qi r = Some (VNum q)
    /\ (forall r' q', In r' before -> Frame.has_key ki k r' = true ->
          Frame.at_pos qi r' = Some (VNum q') -> (q' < q)%Z)
    /\ (forall r' q', In r' after -> Frame.has_key ki k r' = true ->
          Frame.at_pos qi r' = Some (VNum q') -> (q' <= q)%Z).

(** A table the reducer is defined on: it has a compound column and a
    column [Quality]; after the fill no quality is a text, every compound
    has a row whose quality is a number, and the identifiers are all
    numbers or all texts. *)
Definition is_text (c : cell) : bool :=
  match c with Some (VStr _) => true | _ => false end.

Definition is_number (c : cell) : bool :=
  match c with Some (VNum _) => true | _ => false end.

Definition valid_input (df : DataFrame) : bool :=
  match compound_candidates df with
  | [] => false
  | c :: _ =>
      match fill_compound_id df c with
      | Raise _ => false
      | Ok filled =>
          match Frame.position "compound_id" (columns filled),
                Frame.position "Quality" (columns filled) with
          | Some ki, Some qi =>
              let ids := Frame.notna (map (Frame.at_pos ki) (rows filled)) in
              forallb (fun r => negb (is_text (Frame.at_pos qi r))) (rows filled)
              && forallb (fun k =>
                            existsb (fun r => Frame.has_key ki k r
                                              && is_number (Frame.at_pos qi r))
                                    (rows filled))
                         ids
              && Frame.homogeneous ids
          | _, _ => false
          end
      end
  end.

(* ===================================================================== *)
(** ** Sample inputs *)
(* ===================================================================== *)

(** The sheet of the specification's example: the second row continues
    compound 1 and outranks its first row. *)
Definition libres_example : Sheet :=
  mkSheet ["Compound"; "Quality"]
          [ [Some (VNum 1); Some (VNum 80)];
            [None; Some (VNum 95)];
            [Some (VNum 2); Some (VNum 60)] ].

Definition libres_example_top : DataFrame :=
  mkDF ["Compound"; "Quality"; "compound_id"]
       [ mkRow 0 [None; Some (VNum 95); Some (VNum 1)];
         mkRow 1 [Some (VNum 2); Some (VNum 60); Some (VNum 2)] ].

(** A sheet with an empty row and a tie: two hits of compound 7 share the
    quality 91. *)
Definition tie_example : Sheet :=
  mkSheet ["Compound number (#)"; "Hit Name"; "Quality"]
          [ [Some (VNum 7); Some (VStr "limonene"); Some (VNum 91)];
            [None; Some (VStr "pinene"); Some (VNum 91)];
            [None; None; None];
            [Some (VNum 3); Some (VStr "hexanal"); Some (VNum 64)] ].

Definition tie_example_top : DataFrame :=
  mkDF ["Compound number (#)"; "Hit Name"; "Quality"; "compound_id"]
       [ mkRow 0 [Some (VNum 3); Some (VStr "hexanal"); Some (VNum 64); Some (VNum 3)];
         mkRow 1 [Some (VNum 7); Some (VStr "limonene"); Some (VNum 91); Some (VNum 7)] ].

(** A workbook with the sheets of a raw export; only [LibRes] parses to
    the example sheet. *)
Definition example_workbook : ExcelFile :=
  mkExcelFile ["IntRes"; "LibRes"; "QRes"; "CalCurve"]
              (fun name _ =>
                 if String.eqb name "LibRes" then Ok tie_example
                 else Ok (mkSheet [] [])).

Definition example_file : FileObj :=
  mkFileObj (fun _ => Ok example_workbook).

(** A workbook whose [LibRes] sheet has three rows only: [read_excel]
    with [header=8] finds no ninth row to take the names from and raises
    [ValueError]. *)
Definition short_workbook : ExcelFile :=
  mkExcelFile ["IntRes"; "LibRes"]
              (fun name _ =>
                 if String.eqb name "LibRes"
                 then Raise (PdValueError
                               "Passed header=[8], len of 1, but only 3 lines in file")
                 else Ok (mkSheet [] [])).

Definition short_file : FileObj :=
  mkFileObj (fun _ => Ok short_workbook).

(** A file name with a sample number of 4301 digits. *)
Definition long_sample_name : string :=
  ("Healthy_24h-dvb-" ++ Str.times "9" 4301 ++ ".xlsx")%string.

(** What the cleaner makes of [example_file] under the name
    ["Infested_MASA_72h-dvb-3.xlsx"]. *)
Definition example_cleaned : DataFrame :=
  mkDF ["compound_number"; "hit_name"; "quality"; "compound_id";
        "group"; "timepoint"; "adsorbent"; "sample"; "source_file"]
       [ mkRow 0 [Some (VNum 3); Some (VStr "hexanal"); Some (VNum 64);
                  Some (VNum 3); Some (VStr "infested+masa"); Some (VStr "72h");
                  Some (VStr "dvb"); Some (VNum 3);
                  Some (VStr "Infested_MASA_72h-dvb-3.xlsx")];
         mkRow 1 [Some (VNum 7); Some (VStr "limonene"); Some (VNum 91);
                  Some (VNum 7); Some (VStr "infested+masa"); Some (VStr "72h");
                  Some (VStr "dvb"); Some (VNum 3);
                  Some (VStr "Infested_MASA_72h-dvb-3.xlsx")] ].

(* ===================================================================== *)
(** ** The upload loop of [app.py] *)
(* ===================================================================== *)

Module App.

(** An uploaded file: [f.name] and the stream itself. *)
Record UploadedFile := mkUpload { name : string; stream : FileObj }.

(** What the loop puts on the page: [st.write("Processing: ...")] and
    [st.error("Error processing {f.name}: {e}")]. *)
Inductive shown :=
| Processing (file : string)
| ErrorBox (file : string) (e : exn).

(** One turn of the loop of lines 33-39: the table is appended when
    [clean_rpw_file] returns, the exception is shown when it raises
    ([except Exception] catches every exception of the pipeline). *)
Definition step (state : list DataFrame * list shown) (f : UploadedFile)
  : list DataFrame * list shown :=
  let (all_tables, page) := state in
  let page := page ++ [Processing (name f)] in
  match clean_rpw_file (stream f) (name f) with
  | Ok df_clean => (all_tables ++ [df_clean], page)
  | Raise e => (all_tables, page ++ [ErrorBox (name f) e])
  end.

(** Lines 31-39. *)
Definition run (uploaded_files : list UploadedFile) : list DataFrame * list shown :=
  fold_left step uploaded_files ([], []).

Definition all_tables (uploaded_files : list UploadedFile) : list DataFrame :=
  fst (run uploaded_files).

Definition page (uploaded_files : list UploadedFile) : list shown :=
  snd (run uploaded_files).

(** A row of a table with the columns [own], laid out on the columns
    [cols]: NaN where the table has no such column. *)
Definition reindex_row (own cols : list string) (r : Row) : list cell :=
  map (fun c => match Frame.position c own with
                | Some i => Frame.at_pos i r
                | None => None
                end)
      cols.

(** The columns of an outer join, in order of first appearance. *)
Definition union_columns (frames : list DataFrame) : list string :=
  fold_left (fun acc df =>
               acc ++ filter (fun c => negb (existsb (String.eqb c) acc)) (columns df))
            frames [].

Fixpoint unique (cols : list string) : bool :=
  match cols with
  | [] => true
  | c :: t => negb (existsb (String.eqb c) t) && unique t
  end.

Fixpoint same_columns (a b : list string) : bool :=
  match a, b with
  | [], [] => true
  | x :: a', y :: b' => String.eqb x y && same_columns a' b'
  | _, _ => false
  end.

(** What [pd.concat] raises: [ValueError] on an empty list, and the
    reindexing error ("Reindexing only valid with uniquely valued Index
    objects") when a frame whose column names repeat has to be laid out on
    the union of the columns. *)
Inductive concat_exn :=
| NoObjectsToConcatenate
| DuplicateColumnLabels.

(** [pd.concat(frames, ignore_index=True)]: the rows of the frames one
    after the other under a fresh [RangeIndex].  Frames with the same
    columns are stacked as they are; otherwise the columns are the union,
    a frame's rows are laid out on it, and this needs column names that are
    distinct within each frame. *)
Definition concat (frames : list DataFrame) : result concat_exn DataFrame :=
  match frames with
  | [] => Raise NoObjectsToConcatenate
  | first :: _ =>
      if forallb (fun df => same_columns (columns df) (columns first)) frames
      then Ok (mkDF (columns first)
                    (Frame.range_index 0
                       (flat_map (fun df => map cells (rows df)) frames)))
      else if forallb (fun df => unique (columns df)) frames
      then let cols := union_columns frames in
           Ok (mkDF cols
                    (Frame.range_index 0
                       (flat_map (fun df => map (reindex_row (columns df) cols)
                                                (rows df))
                                 frames)))
      else Raise DuplicateColumnLabels
  end.

(** Lines 41-42: [df_all], when at least one file was cleaned. *)
Definition df_all (uploaded_files : list UploadedFile)
  : option (result concat_exn DataFrame) :=
  match all_tables uploaded_files with
  | [] => None
  | tables => Some (concat tables)
  end.

End App.

(* ===================================================================== *)
(** ** Further predicates *)
(* ===================================================================== *)

(** [(\d+)\s*h] matches at the very start of [s]. *)
Definition time_prefix (s : string) : Prop :=
  exists d w post,
    s = (d ++ w ++ "h" ++ post)%string /\ Pattern.digits d /\ Pattern.spaces w.

(** [-(char|dvb)-(\d+)] matches at the very start of [s]. *)
Definition sample_prefix (s : string) : Prop :=
  exists tok d post,
    s = ("-" ++ tok ++ "-" ++ d ++ post)%string
    /\ (tok = "char" \/ tok = "dvb") /\ Pattern.digits d.

(** [s] does not end with a digit. *)
Definition no_digit_at_end (s : string) : Prop :=
  forall s' c, s = (s' ++ String c EmptyString)%string -> Str.is_digit c = false.

(** [s] does not start with a digit. *)
Definition no_digit_at_start (s : string) : Prop :=
  forall c s', s = String c s' -> Str.is_digit c = false.

(** The data rows of a sheet that are not entirely blank, in order. *)
Definition nonblank_rows (s : Sheet) : list (list cell) :=
  filter (fun cs => negb (forallb Frame.isna cs))
         (map (Frame.fit (List.length (header s))) (body s)).

(** Row [h] of the combined table [all] carries row [r] of the table
    [df]: it holds in every column of [df] what [r] holds there, and NaN in
    the columns [df] does not have. *)
Definition carried (all : DataFrame) (h : Row) (df : DataFrame) (r : Row) : Prop :=
  (forall c i, Frame.position c (columns df) = Some i ->
     exists j, Frame.position c (columns all) = Some j
               /\ Frame.at_pos j h = Frame.at_pos i r)
  /\ (forall c j, Frame.position c (columns all) = Some j ->
        Frame.position c (columns df) = None -> Frame.at_pos j h = None).

(** Every row has one cell per column. *)
Definition rectangular (df : DataFrame) : Prop :=
  forall r, In r (rows df) -> List.length (cells r) = List.length (columns df).

(** The index is [0, 1, ..., n-1]. *)
Definition range_indexed (df : DataFrame) : Prop :=
  map label (rows df) = seq 0 (List.length (rows df)).

(* ===================================================================== *)
(** * Properties *)
(* ===================================================================== *)

(** ** Strings *)

Section StringFacts.

Local Open Scope string_scope.

Lemma startswith_app (p r : string) : Str.startswith p (p ++ r) = true.
Proof.
  induction p as [|a p IH]; simpl; [reflexivity|].
  now rewrite Ascii.eqb_refl, IH.
Qed.

Lemma startswith_inv (p s : string) :
  Str.startswith p s = true -> exists r, s = p ++ r.
Proof.
  revert s; induction p as [|a p IH]; intros s H.
  - now exists s.
  - destruct s as [|b s]; simpl in H; [discriminate|].
    apply andb_true_iff in H as [Hab Hps].
    apply Ascii.eqb_eq in Hab; subst b.
    destruct (IH _ Hps) as [r ->]. now exists r.
Qed.

Lemma contains_occurs (sub s : string) :
  Str.contains sub s = true <-> Pattern.occurs sub s.
Proof.
  split.
  - induction s as [|c s IH]; simpl.
    + destruct (Str.startswith sub EmptyString) eqn:E; [|discriminate].
      intros _. apply startswith_inv in E as [r ->]. now exists EmptyString, r.
    + destruct (Str.startswith sub (String c s)) eqn:E.
      * intros _. apply startswith_inv in E as [r ->]. now exists EmptyString, r.
      * intros H. destruct (IH H) as (pre & post & ->).
        now exists (String c pre), post.
  - intros (pre & post & ->).
    induction pre as [|c pre IH].
    + change (EmptyString ++ sub ++ post) with (sub ++ post).
      pose proof (startswith_app sub post) as E.
      destruct (sub ++ post); simpl; now rewrite E.
    + simpl.
      destruct (Str.startswith sub (String c (pre ++ sub ++ post)));
        [reflexivity | exact IH].
Qed.

Lemma strip_prefix_inv (p s r : string) :
  strip_prefix p s = Some r -> s = p ++ r.
Proof.
  revert s; induction p as [|a p IH]; intros s H; simpl in H.
  - now inversion H.
  - destruct s as [|b s]; [discriminate|].
    destruct (Ascii.eqb a b) eqn:E; [|discriminate].
    apply Ascii.eqb_eq in E; subst b. simpl. f_equal. now apply IH.
Qed.

(** [span] splits the text, its first part satisfies the class and its
    second part does not start in the class. *)
Lemma span_inv (p : ascii -> bool) (s a b : string) :
  Str.span p s = (a, b) ->
  s = a ++ b /\ Str.all p a = true /\ Str.span p b = (EmptyString, b).
Proof.
  revert a b; induction s as [|c s IH]; intros a b H; simpl in H.
  - inversion H; subst. now repeat split.
  - destruct (p c) eqn:Hc.
    + destruct (Str.span p s) as [a' b'] eqn:E. inversion H; subst.
      destruct (IH _ _ eq_refl) as (-> & Ha & Hb).
      repeat split; simpl; [now rewrite Hc, Ha | exact Hb].
    + inversion H; subst. repeat split. simpl. now rewrite Hc.
Qed.

Lemma span_app (p : ascii -> bool) (a b : string) :
  Str.all p a = true -> Str.span p b = (EmptyString, b) -> Str.span p (a ++ b) = (a, b).
Proof.
  intros Ha Hb. induction a as [|c a IH]; simpl in *; [exact Hb|].
  apply andb_true_iff in Ha as [Hc Ha]. now rewrite Hc, (IH Ha).
Qed.

Lemma span_stop (p : ascii -> bool) (c : ascii) (s : string) :
  p c = false -> Str.span p (String c s) = (EmptyString, String c s).
Proof. intros H; simpl; now rewrite H. Qed.

Lemma space_not_digit (c : ascii) : Str.is_space c = true -> Str.is_digit c = false.
Proof. destruct c as [[] [] [] [] [] [] [] []]; vm_compute; congruence. Qed.

Lemma string_app_length (a b : string) :
  String.length (a ++ b)%string = String.length a + String.length b.
Proof. induction a as [|x a IH]; simpl; [reflexivity | now rewrite IH]. Qed.

Lemma lower_length (s : string) : String.length (Str.lower s) = String.length s.
Proof. induction s as [|c s IH]; simpl; [reflexivity | now rewrite IH]. Qed.

End StringFacts.

(** ** The two regular expressions *)

Section RegexFacts.

Local Open Scope string_scope.

Lemma match_time_at_inv (s d : string) :
  match_time_at s = Some d ->
  exists w post, s = d ++ w ++ "h" ++ post /\ Pattern.digits d /\ Pattern.spaces w.
Proof.
  unfold match_time_at.
  destruct (Str.span Str.is_digit s) as [d0 r] eqn:Hd.
  destruct d0 as [|c d0]; [discriminate|].
  destruct (Str.span Str.is_space r) as [w r'] eqn:Hw.
  destruct (Str.startswith "h" r') eqn:Hh; [|discriminate].
  intros H; inversion H; subst d; clear H.
  apply span_inv in Hd as (-> & Hall & _).
  apply span_inv in Hw as (-> & Hsp & _).
  apply startswith_inv in Hh as [post ->].
  exists w, post. repeat split; [discriminate | exact Hall | exact Hsp].
Qed.

Lemma match_time_at_complete (d w post : string) :
  Pattern.digits d -> Pattern.spaces w ->
  match_time_at (d ++ w ++ "h" ++ post) = Some d.
Proof.
  intros [Hne Hd] Hw. unfold match_time_at.
  assert (Hstop : Str.span Str.is_digit (w ++ "h" ++ post) = (EmptyString, w ++ "h" ++ post)).
  { destruct w as [|c w]; simpl "++".
    - now apply span_stop.
    - apply span_stop. apply space_not_digit.
      unfold Pattern.spaces in Hw. simpl in Hw.
      now apply andb_true_iff in Hw as [Hc _]. }
  rewrite (span_app _ _ _ Hd Hstop).
  destruct d as [|c d]; [now elim Hne|].
  rewrite (span_app Str.is_space w ("h" ++ post) Hw); [|now apply span_stop].
  now rewrite startswith_app.
Qed.

(** [search_time] returns the digits of a match of [(\d+)\s*h]. *)
Lemma search_time_sound (s d : string) :
  search_time s = Some d ->
  exists pre w post,
    s = pre ++ d ++ w ++ "h" ++ post /\ Pattern.digits d /\ Pattern.spaces w.
Proof.
  induction s as [|c s IH]; simpl.
  - discriminate.
  - destruct (match_time_at (String c s)) eqn:E.
    + intros H; inversion H; subst.
      apply match_time_at_inv in E as (w & post & E & ? & ?).
      now exists EmptyString, w, post.
    + intros H. destruct (IH H) as (pre & w & post & -> & ? & ?).
      now exists (String c pre), w, post.
Qed.

Lemma search_time_here (s d : string) :
  match_time_at s = Some d -> search_time s = Some d.
Proof. destruct s; simpl; [discriminate | now intros ->]. Qed.

(** [search_time] finds a match whenever there is one. *)
Lemma search_time_complete (s : string) :
  Pattern.time_match s -> search_time s <> None.
Proof.
  intros (pre & d & w & post & -> & Hd & Hw).
  induction pre as [|c pre IH].
  - change (EmptyString ++ d ++ w ++ "h" ++ post) with (d ++ w ++ "h" ++ post).
    now rewrite (search_time_here _ _ (match_time_at_complete d w post Hd Hw)).
  - simpl. destruct (match_time_at _); [discriminate | exact IH].
Qed.

Lemma search_time_none (s : string) :
  search_time s = None <-> ~ Pattern.time_match s.
Proof.
  split.
  - intros H M. now apply (search_time_complete s M).
  - intros H. destruct (search_time s) as [d|] eqn:E; [|reflexivity].
    exfalso. apply H. apply search_time_sound in E as (pre & w & post & ? & ? & ?).
    now exists pre, d, w, post.
Qed.

Lemma match_sample_at_inv (s d : string) :
  match_sample_at s = Some d ->
  exists tok post,
    s = "-" ++ tok ++ "-" ++ d ++ post
    /\ (tok = "char" \/ tok = "dvb") /\ Pattern.digits d.
Proof.
  unfold match_sample_at.
  destruct (strip_prefix "-" s) as [r|] eqn:H1; [|discriminate].
  apply strip_prefix_inv in H1; subst s.
  assert (Htok : forall r',
    match strip_prefix "char" r with
    | Some x => Some x
    | None => strip_prefix "dvb" r
    end = Some r' ->
    exists tok, r = tok ++ r' /\ (tok = "char" \/ tok = "dvb")).
  { intros r' H. destruct (strip_prefix "char" r) as [x|] eqn:E.
    - inversion H; subst. apply strip_prefix_inv in E. eauto.
    - apply strip_prefix_inv in H. eauto. }
  destruct (match strip_prefix "char" r with
            | Some x => Some x
            | None => strip_prefix "dvb" r
            end) as [r'|]; [|discriminate].
  destruct (Htok r' eq_refl) as (tok & -> & Ht).
  destruct (strip_prefix "-" r') as [r''|] eqn:H2; [|discriminate].
  apply strip_prefix_inv in H2; subst r'.
  destruct (Str.span Str.is_digit r'') as [g rest] eqn:Hg. simpl fst.
  destruct g as [|c g]; [discriminate|].
  intros H; inversion H; subst d; clear H.
  apply span_inv in Hg as (-> & Hall & _).
  exists tok, rest.
  split; [reflexivity | split; [exact Ht | split; [discriminate | exact Hall]]].
Qed.

Lemma match_sample_at_complete (tok d post : string) :
  tok = "char" \/ tok = "dvb" -> Pattern.digits d ->
  match_sample_at ("-" ++ tok ++ "-" ++ d ++ post) <> None.
Proof.
  intros Ht [Hne Hd].
  destruct d as [|c d]; [now elim Hne|].
  simpl in Hd. apply andb_true_iff in Hd as [Hc _].
  destruct Ht as [-> | ->]; unfold match_sample_at; simpl; rewrite Hc;
    destruct (Str.span Str.is_digit (d ++ post)); simpl; discriminate.
Qed.

(** [search_sample] returns the digits of a match of [-(char|dvb)-(\d+)]. *)
Lemma search_sample_sound (s d : string) :
  search_sample s = Some d ->
  exists pre tok post,
    s = pre ++ "-" ++ tok ++ "-" ++ d ++ post
    /\ (tok = "char" \/ tok = "dvb") /\ Pattern.digits d.
Proof.
  induction s as [|c s IH]; simpl.
  - discriminate.
  - destruct (match_sample_at (String c s)) eqn:E.
    + intros H; inversion H; subst.
      apply match_sample_at_inv in E as (tok & post & E & ? & ?).
      now exists EmptyString, tok, post.
    + intros H. destruct (IH H) as (pre & tok & post & -> & ? & ?).
      now exists (String c pre), tok, post.
Qed.

Lemma search_sample_here (s d : string) :
  match_sample_at s = Some d -> search_sample s = Some d.
Proof. destruct s; simpl; [discriminate | now intros ->]. Qed.

Lemma search_sample_complete (s : string) :
  Pattern.sample_match s -> search_sample s <> None.
Proof.
  intros (pre & tok & d & post & -> & Ht & Hd).
  induction pre as [|c pre IH].
  - change (EmptyString ++ "-" ++ tok ++ "-" ++ d ++ post)
      with ("-" ++ tok ++ "-" ++ d ++ post).
    pose proof (match_sample_at_complete tok d post Ht Hd) as E.
    destruct (match_sample_at ("-" ++ tok ++ "-" ++ d ++ post)) as [g|] eqn:G;
      [|now elim E].
    now rewrite (search_sample_here _ _ G).
  - simpl.
    destruct (match_sample_at _); [discriminate | exact IH].
Qed.

Lemma search_sample_none (s : string) :
  search_sample s = None <-> ~ Pattern.sample_match s.
Proof.
  split.
  - intros H M. now apply (search_sample_complete s M).
  - intros H. destruct (search_sample s) as [d|] eqn:E; [|reflexivity].
    exfalso. apply H.
    apply search_sample_sound in E as (pre & tok & post & ? & ? & ?).
    now exists pre, tok, d, post.
Qed.

End RegexFacts.

(** ** Filename metadata parser *)

Lemma contains_false (sub s : string) :
  Str.contains sub s = false <-> ~ Pattern.occurs sub s.
Proof.
  rewrite <- contains_occurs.
  destruct (Str.contains sub s); split; congruence.
Qed.

(** C2, as the specification states it, fails: in both example names the
    adsorbent token follows an underscore, so [-(char|dvb)-(\d+)] has no
    match and [sample] is null, not 1 and not 3. *)
Lemma C2_spec_examples_fail :
  extract_metadata_from_filename "Healthy_24h_char-1.xlsx"
    <> Ok (mkMeta (Some "healthy") (Some "24h") (Some "char") (Some 1%Z)
                  "Healthy_24h_char-1.xlsx")
  /\ extract_metadata_from_filename "Infested_MASA_72h_dvb-3.xls"
    <> Ok (mkMeta (Some "infested+masa") (Some "72h") (Some "dvb") (Some 3%Z)
                  "Infested_MASA_72h_dvb-3.xls").
Proof. split; vm_compute; discriminate. Qed.

(** C2, amended: on the two example names the parser returns the group,
    timepoint and adsorbent of the specification and a null sample, since
    the lowercased names hold no hyphen, adsorbent token, hyphen, digits;
    with a hyphen before the token the samples are 1 and 3.  In every name
    the sample is [int] of the digits captured by the leftmost match of
    that pattern in the lowercased name, and the parser raises what [int]
    raises on them. *)
Theorem C2_metadata_examples :
  extract_metadata_from_filename "Healthy_24h_char-1.xlsx"
    = Ok (mkMeta (Some "healthy") (Some "24h") (Some "char") None
                 "Healthy_24h_char-1.xlsx")
  /\ extract_metadata_from_filename "Infested_MASA_72h_dvb-3.xls"
    = Ok (mkMeta (Some "infested+masa") (Some "72h") (Some "dvb") None
                 "Infested_MASA_72h_dvb-3.xls")
  /\ ~ Pattern.sample_match (Str.lower "Healthy_24h_char-1.xlsx")
  /\ ~ Pattern.sample_match (Str.lower "Infested_MASA_72h_dvb-3.xls")
  /\ extract_metadata_from_filename "Healthy_24h-char-1.xlsx"
    = Ok (mkMeta (Some "healthy") (Some "24h") (Some "char") (Some 1%Z)
                 "Healthy_24h-char-1.xlsx")
  /\ extract_metadata_from_filename "Infested_MASA_72h-dvb-3.xls"
    = Ok (mkMeta (Some "infested+masa") (Some "72h") (Some "dvb") (Some 3%Z)
                 "Infested_MASA_72h-dvb-3.xls")
  /\ forall filename,
       (m <- extract_metadata_from_filename filename ;; Ok (sample m))
       = match search_sample (Str.lower filename) with
         | Some d => n <- Str.int d ;; Ok (Some n)
         | None => Ok None
         end.
Proof.
  split; [reflexivity|]. split; [reflexivity|].
  split; [now apply search_sample_none|].
  split; [now apply search_sample_none|].
  split; [reflexivity|]. split; [reflexivity|].
  intros filename. unfold extract_metadata_from_filename.
  destruct (search_sample (Str.lower filename)) as [d|]; [|reflexivity].
  cbn [bind]. now destruct (Str.int d).
Qed.

(** The digits of a sample number are part of the name. *)
Lemma search_sample_short (s d : string) :
  search_sample s = Some d -> (String.length d <= String.length s)%nat.
Proof.
  intros H. apply search_sample_sound in H as (pre & tok & post & -> & _ & _).
  rewrite !string_app_length. lia.
Qed.

Lemma int_raises (d : string) (e : exn) :
  Str.int d = Raise e <->
  (Str.int_max_str_digits < String.length d)%nat
  /\ e = IntValueError (String.length d).
Proof.
  unfold Str.int.
  destruct (Str.int_max_str_digits <? String.length d)%nat eqn:L.
  - apply Nat.ltb_lt in L. split.
    + intros H. inversion H. now split.
    + intros [_ ->]. reflexivity.
  - apply Nat.ltb_ge in L. split; [discriminate|]. intros [H _]. lia.
Qed.

Lemma int_returns (d : string) :
  (String.length d <= Str.int_max_str_digits)%nat ->
  Str.int d = Ok (Str.int_acc 0 d).
Proof.
  intros H. unfold Str.int.
  destruct (Str.int_max_str_digits <? String.length d)%nat eqn:L; [|reflexivity].
  apply Nat.ltb_lt in L. lia.
Qed.

(** The fields of a record the parser returns. *)
Lemma parser_fields (filename : string) (m : SampleMetadata) :
  extract_metadata_from_filename filename = Ok m ->
  let name := Str.lower filename in
  source_file m = filename
  /\ timepoint m = match search_time name with
                   | Some g1 => Some (g1 ++ "h")%string
                   | None => None
                   end
  /\ adsorbent m = (if Str.contains "char" name then Some "char"
                    else if Str.contains "dvb" name then Some "dvb"
                    else None)
  /\ group m = (if Str.contains "healthy" name && negb (Str.contains "infested" name)
                then (if Str.contains "masa" name
                      then Some "healthy+masa" else Some "healthy")
                else if Str.contains "infested" name
                then (if Str.contains "masa" name
                      then Some "infested+masa" else Some "infested")
                else None)
  /\ match search_sample name with
     | Some d => exists n, Str.int d = Ok n /\ sample m = Some n
     | None => sample m = None
     end.
Proof.
  intros H name. unfold extract_metadata_from_filename in H. fold name in H.
  destruct (search_sample name) as [d|].
  - cbn [bind] in H. destruct (Str.int d) as [n|]; cbn [bind] in H; [|discriminate].
    inversion H. cbn [source_file timepoint adsorbent group sample].
    repeat (split; [reflexivity|]). exists n. now split.
  - cbn [bind] in H. inversion H.
    cbn [source_file timepoint adsorbent group sample].
    repeat (split; [reflexivity|]). reflexivity.
Qed.

(** What the parser does, by what [int] does with the sample digits. *)
Lemma parser_outcome (filename : string) :
  match search_sample (Str.lower filename) with
  | Some d =>
      match Str.int d with
      | Ok n => exists m, extract_metadata_from_filename filename = Ok m
                          /\ sample m = Some n
      | Raise e => extract_metadata_from_filename filename = Raise e
      end
  | None => exists m, extract_metadata_from_filename filename = Ok m
                      /\ sample m = None
  end.
Proof.
  unfold extract_metadata_from_filename.
  destruct (search_sample (Str.lower filename)) as [d|].
  - cbn [bind]. destruct (Str.int d) as [n|e]; cbn [bind]; [|reflexivity].
    eexists. split; reflexivity.
  - cbn [bind]. eexists. split; reflexivity.
Qed.

(** A name of at most 4300 characters cannot hold more digits than
    [int] accepts. *)
Lemma short_name_parses (filename : string) :
  (String.length filename <= Str.int_max_str_digits)%nat ->
  exists m, extract_metadata_from_filename filename = Ok m.
Proof.
  intros Short. pose proof (parser_outcome filename) as Out.
  destruct (search_sample (Str.lower filename)) as [d|] eqn:S.
  - apply search_sample_short in S. rewrite lower_length in S.
    rewrite (int_returns d) in Out by lia.
    destruct Out as (m & E & _). now exists m.
  - destruct Out as (m & E & _). now exists m.
Qed.

(** C9, as the specification states it, fails: on a name whose sample
    number has 4301 digits the parser raises the [ValueError] of [int]. *)
Lemma C9_parser_raises_on_long_sample :
  Str.isascii long_sample_name = true
  /\ extract_metadata_from_filename long_sample_name = Raise (IntValueError 4301).
Proof. split; vm_compute; reflexivity. Qed.

(** C9, amended: the parser is a function of the file name alone, so a
    name has one outcome.  On an ASCII file name it raises exactly when the
    sample pattern matches in the lowercased name and captures more than
    4300 digits, and then it raises the [ValueError] of [int]; so it
    returns a record for every name of at most 4300 characters.  A record
    it returns keeps the name verbatim, and a field of it is null exactly
    when its pattern does not occur in the lowercased name. *)
Theorem C9_parser_null_when_absent :
  forall filename : string,
    Str.isascii filename = true ->
    (forall r r',
       extract_metadata_from_filename filename = r ->
       extract_metadata_from_filename filename = r' -> r = r')
    /\ (forall e,
       extract_metadata_from_filename filename = Raise e <->
       exists d,
         search_sample (Str.lower filename) = Some d
         /\ (Str.int_max_str_digits < String.length d)%nat
         /\ e = IntValueError (String.length d))
    /\ ((String.length filename <= Str.int_max_str_digits)%nat ->
        exists m, extract_metadata_from_filename filename = Ok m)
    /\ (forall m,
          extract_metadata_from_filename filename = Ok m ->
          source_file m = filename
          /\ (timepoint m = None <-> ~ Pattern.time_match (Str.lower filename))
          /\ (adsorbent m = None <->
                ~ Pattern.occurs "char" (Str.lower filename)
                /\ ~ Pattern.occurs "dvb" (Str.lower filename))
          /\ (sample m = None <-> ~ Pattern.sample_match (Str.lower filename))
          /\ (group m = None <->
                ~ Pattern.occurs "healthy" (Str.lower filename)
                /\ ~ Pattern.occurs "infested" (Str.lower filename))).
Proof.
  intros filename _.
  pose proof (parser_outcome filename) as Out.
  split; [intros r r' <- <-; reflexivity|].
  split; [|split].
  - intros e. destruct (search_sample (Str.lower filename)) as [d|] eqn:S.
    + destruct (Str.int d) as [n|e'] eqn:I.
      * destruct Out as (m & -> & _). split; [discriminate|].
        intros (d' & E & L & _). inversion E; subst d'.
        assert (R : Str.int d = Raise (IntValueError (String.length d)))
          by (apply int_raises; now split).
        congruence.
      * rewrite Out. split.
        -- intros H. inversion H; subst e'. exists d.
           apply int_raises in I as [L ->]. now repeat split.
        -- intros (d' & E & L & ->). inversion E; subst d'.
           apply int_raises in I as [_ ->]. reflexivity.
    + destruct Out as (m & -> & _). split; [discriminate|].
      intros (d & E & _). discriminate.
  - apply short_name_parses.
  - clear Out. intros m H.
    destruct (parser_fields _ _ H) as (Src & Tp & Ad & Gr & Sa).
    set (name := Str.lower filename) in *.
    split; [exact Src|].
    split.
    { rewrite Tp, <- search_time_none.
      destruct (search_time name); split; congruence. }
    split.
    { rewrite Ad, <- !contains_false.
      destruct (Str.contains "char" name), (Str.contains "dvb" name);
        intuition congruence. }
    split.
    { rewrite <- search_sample_none.
      destruct (search_sample name) as [d|].
      - destruct Sa as (n & _ & ->). split; discriminate.
      - rewrite Sa. split; reflexivity. }
    rewrite Gr, <- !contains_false.
    destruct (Str.contains "healthy" name), (Str.contains "infested" name),
      (Str.contains "masa" name); simpl; intuition congruence.
Qed.

(** ** Forward fill *)

Lemma ffill_from_idem (last : cell) (series : list cell) :
  Frame.ffill_from last (Frame.ffill_from last series)
  = Frame.ffill_from last series.
Proof.
  revert last; induction series as [|c t IH]; intros last; [reflexivity|].
  destruct c as [v|]; simpl.
  - now rewrite IH.
  - destruct last as [v|]; simpl; now rewrite IH.
Qed.

Lemma ffill_from_length (last : cell) (series : list cell) :
  List.length (Frame.ffill_from last series) = List.length series.
Proof.
  revert last; induction series as [|c t IH]; intros last; [reflexivity|].
  destruct c; simpl; now rewrite IH.
Qed.

(** C7: forward-filling a column that is already forward-filled changes
    nothing. *)
Theorem C7_ffill_idempotent :
  forall series : list cell,
    Frame.ffill (Frame.ffill series) = Frame.ffill series.
Proof. intros series. apply ffill_from_idem. Qed.

(** ** Sheet extractor *)

Lemma find_libres_none (names : list string) :
  find_libres names = None <-> no_libres names.
Proof.
  unfold find_libres, no_libres. split.
  - intros H s Hs E.
    pose proof (find_none _ _ H s Hs) as F. simpl in F.
    rewrite E in F. discriminate.
  - intros H. induction names as [|n t IH]; [reflexivity|]. simpl.
    destruct (String.eqb (Str.lower n) "libres") eqn:E.
    + apply String.eqb_eq in E. now elim (H n (or_introl eq_refl)).
    + apply IH. intros s Hs. apply H. now right.
Qed.

Lemma find_libres_first (pre post : list string) (name : string) :
  no_libres pre -> Str.lower name = "libres" ->
  find_libres (pre ++ name :: post) = Some name.
Proof.
  intros Hpre Hn. unfold find_libres.
  induction pre as [|p pre IH]; simpl.
  - now rewrite Hn.
  - destruct (String.eqb (Str.lower p) "libres") eqn:E.
    + apply String.eqb_eq in E. now elim (Hpre p (or_introl eq_refl)).
    + apply IH. intros s Hs. apply Hpre. now right.
Qed.

(** C5, as the specification states it, fails: a workbook can have a
    [LibRes] sheet and the extractor still raise.  On a sheet of three
    rows [read_excel] with [header=8] raises [ValueError], and the
    extractor lets it through. *)
Lemma C5_first_match_can_fail :
  In "LibRes" (sheet_names short_workbook)
  /\ find_libres (sheet_names short_workbook) = Some "LibRes"
  /\ load_libres_sheet short_file "Healthy_24h-char-1.xlsx"
     = Raise (Propagated
                (PdValueError "Passed header=[8], len of 1, but only 3 lines in file")).
Proof. split; [right; now left|]. split; reflexivity. Qed.

(** C5, amended: on an opened workbook the extractor raises the module's
    [ValueError] exactly when no sheet name lowercases to ["libres"], and
    the message lists the sheet names of the workbook; otherwise the first
    such sheet, in the order the reader lists them, is the one read with
    header row 9, and the extractor returns the table read from it or
    raises what the reader raises on it: it returns a table exactly when
    the reader does. *)
Theorem C5_sheet_lookup :
  forall (file_obj : FileObj) (filename : string) (xls : ExcelFile),
    opened file_obj
      (if Str.endswith ".xls" (Str.lower filename) then Some "xlrd" else None)
    = Ok xls ->
    ((exists sheets, load_libres_sheet file_obj filename = Raise (ValueError sheets))
       <-> no_libres (sheet_names xls))
    /\ (forall sheets,
          load_libres_sheet file_obj filename = Raise (ValueError sheets) ->
          sheets = sheet_names xls)
    /\ (forall pre name post,
          sheet_names xls = pre ++ name :: post ->
          Str.lower name = "libres" ->
          no_libres pre ->
          find_libres (sheet_names xls) = Some name
          /\ load_libres_sheet file_obj filename
             = match parse xls name 8 with
               | Ok sheet => Ok (Frame.of_sheet sheet)
               | Raise e => Raise (Propagated e)
               end
          /\ ((exists df, load_libres_sheet file_obj filename = Ok df)
              <-> exists sheet, parse xls name 8 = Ok sheet)
          /\ (forall e,
                load_libres_sheet file_obj filename = Raise e <->
                exists e', parse xls name 8 = Raise e' /\ e = Propagated e')).
Proof.
  intros file_obj filename xls Hopen.
  unfold load_libres_sheet. rewrite Hopen. simpl.
  destruct (find_libres (sheet_names xls)) as [name|] eqn:F.
  - assert (Hload : forall sheets,
      (df_raw <- pd (parse xls name 8) ;; Ok (Frame.of_sheet df_raw))
      <> Raise (ValueError sheets)).
    { intros sheets. destruct (parse xls name 8); simpl; discriminate. }
    split; [|split].
    + split.
      * intros [sheets H]. now elim (Hload sheets).
      * intros H. apply find_libres_none in H. congruence.
    + intros sheets H. now elim (Hload sheets).
    + intros pre name' post E Hn Hpre.
      rewrite E, (find_libres_first pre post name' Hpre Hn) in F.
      inversion F; subst name'. split; [reflexivity|].
      destruct (parse xls name 8) as [sheet|e0]; simpl.
      * split; [reflexivity|]. split.
        -- split; eauto.
        -- intros e. split; [discriminate|]. intros (e' & H & _). discriminate.
      * split; [reflexivity|]. split.
        -- split; [intros [df H]; discriminate | intros [sheet H]; discriminate].
        -- intros e. split.
           ++ intros H. inversion H. now exists e0.
           ++ intros (e' & H & ->). now inversion H.
  - split; [|split].
    + split; [intros _; now apply find_libres_none | intros _; eauto].
    + intros sheets H. now inversion H.
    + intros pre name post E Hn Hpre.
      rewrite E, (find_libres_first pre post name Hpre Hn) in F. discriminate.
Qed.

(** ** Top-hit reducer: the compound column *)

Lemma compound_candidates_nil (df : DataFrame) :
  compound_candidates df = [] <-> no_compound (columns df).
Proof.
  unfold compound_candidates, no_compound.
  induction (columns df) as [|c t IH]; simpl.
  - split; [intros _ c [] | reflexivity].
  - destruct (Str.contains "compound" (Str.lower c)) eqn:E.
    + split; [discriminate|]. intros H. exfalso.
      apply (H c (or_introl eq_refl)). now apply contains_occurs.
    + rewrite IH. split.
      * intros H x [<- | Hx]; [now apply contains_false | now apply H].
      * intros H x Hx. apply H. now right.
Qed.

Lemma compound_candidates_first (df : DataFrame) (pre post : list string) (c : string) :
  columns df = pre ++ c :: post ->
  no_compound pre -> Pattern.occurs "compound" (Str.lower c) ->
  exists others, compound_candidates df = c :: others.
Proof.
  intros E Hpre Hc. unfold compound_candidates. rewrite E. clear E.
  induction pre as [|p pre IH]; simpl.
  - apply contains_occurs in Hc. rewrite Hc. eauto.
  - assert (Hp : Str.contains "compound" (Str.lower p) = false).
    { apply contains_false. apply Hpre. now left. }
    rewrite Hp. apply IH. intros x Hx. apply Hpre. now right.
Qed.

(** C6: the reducer raises the module's [KeyError] exactly when no column
    name contains ["compound"] in any case, and its message lists all the
    columns of the table; otherwise the first such column, in column
    order, is the one the rest of the reducer forward-fills and groups
    by. *)
Theorem C6_compound_column :
  forall df : DataFrame,
    ((exists available, extract_top_hits df = Raise (KeyError available))
       <-> no_compound (columns df))
    /\ (forall available,
          extract_top_hits df = Raise (KeyError available) ->
          available = columns df)
    /\ (forall pre c post,
          columns df = pre ++ c :: post ->
          Pattern.occurs "compound" (Str.lower c) ->
          no_compound pre ->
          extract_top_hits df
          = (filled <- pd (fill_compound_id df c) ;;
             pd (top_rows filled "Quality"))).
Proof.
  intros df. unfold extract_top_hits.
  destruct (compound_candidates df) as [|c0 others] eqn:C.
  - split; [|split].
    + split; [intros _; now apply compound_candidates_nil | intros _; eauto].
    + intros available H. now inversion H.
    + intros pre c post E Hc Hpre.
      destruct (compound_candidates_first df pre post c E Hpre Hc) as [o H].
      congruence.
  - assert (Hrun : forall available,
      (filled <- pd (fill_compound_id df c0) ;; pd (top_rows filled "Quality"))
      <> Raise (KeyError available)).
    { intros available. destruct (fill_compound_id df c0) as [f|e]; simpl;
        [destruct (top_rows f "Quality"); simpl|]; discriminate. }
    split; [|split].
    + split.
      * intros [available H]. now elim (Hrun available).
      * intros H. apply compound_candidates_nil in H. congruence.
    + intros available H. now elim (Hrun available).
    + intros pre c post E Hc Hpre.
      destruct (compound_candidates_first df pre post c E Hpre Hc) as [o H].
      rewrite H in C. now inversion C.
Qed.

(** ** Tables: positions and cells *)

Section FrameFacts.

Import Frame.

Lemma fit_length (n : nat) (cs : list cell) : List.length (fit n cs) = n.
Proof.
  unfold fit. rewrite length_firstn, length_app, repeat_length. lia.
Qed.

Lemma position_lt (c : string) (cols : list string) (i : nat) :
  position c cols = Some i -> i < List.length cols.
Proof.
  revert i; induction cols as [|h t IH]; intros i; simpl; [discriminate|].
  destruct (String.eqb c h).
  - intros H; inversion H; lia.
  - destruct (position c t) as [j|]; [|discriminate].
    intros H; inversion H; subst. specialize (IH j eq_refl). lia.
Qed.

Lemma position_nth (c : string) (cols : list string) (i : nat) :
  position c cols = Some i -> nth_error cols i = Some c.
Proof.
  revert i; induction cols as [|h t IH]; intros i; simpl; [discriminate|].
  destruct (String.eqb c h) eqn:E.
  - intros H; inversion H; subst. apply String.eqb_eq in E. now subst.
  - destruct (position c t) as [j|]; [|discriminate].
    intros H; inversion H; subst. simpl. now apply IH.
Qed.

Lemma position_in (c : string) (cols : list string) (i : nat) :
  position c cols = Some i -> In c cols.
Proof. intros H. eapply nth_error_In. eapply position_nth; eauto. Qed.

Lemma position_app_new (c : string) (cols : list string) :
  position c cols = None -> position c (cols ++ [c]) = Some (List.length cols).
Proof.
  induction cols as [|h t IH]; simpl.
  - now rewrite String.eqb_refl.
  - destruct (String.eqb c h); [discriminate|].
    destruct (position c t); [discriminate|].
    intros _. now rewrite (IH eq_refl).
Qed.

Lemma position_app_old (c : string) (cols more : list string) (i : nat) :
  position c cols = Some i -> position c (cols ++ more) = Some i.
Proof.
  revert i; induction cols as [|h t IH]; intros i; simpl; [discriminate|].
  destruct (String.eqb c h); [easy|].
  destruct (position c t) as [j|]; [|discriminate].
  intros H. now rewrite (IH j eq_refl).
Qed.

Lemma nth_replace_same (i : nat) (v : cell) (cs : list cell) :
  i < List.length cs -> nth i (replace_nth i v cs) None = v.
Proof.
  revert i; induction cs as [|h t IH]; intros i H; simpl in *; [lia|].
  destruct i; simpl; [reflexivity | apply IH; lia].
Qed.

Lemma nth_replace_other (i j : nat) (v : cell) (cs : list cell) :
  i <> j -> nth j (replace_nth i v cs) None = nth j cs None.
Proof.
  revert i j; induction cs as [|h t IH]; intros i j H.
  - reflexivity.
  - destruct i, j; simpl; try reflexivity; [lia | apply IH; lia].
Qed.

(** After [df[c] = ...] column [c] has a position, and a row holds there
    the value it was given. *)
Lemma set_cell_read (cols : list string) (c : string) (r : Row) (v : cell) :
  exists k,
    position c (set_columns cols c) = Some k
    /\ at_pos k (set_cell cols c r v) = v.
Proof.
  unfold set_columns, set_cell, at_pos.
  destruct (position c cols) as [i|] eqn:P.
  - exists i. split; [exact P|]. simpl.
    apply nth_replace_same. rewrite fit_length. eapply position_lt; eauto.
  - exists (List.length cols). split; [now apply position_app_new|]. simpl.
    rewrite app_nth2; rewrite fit_length; [|lia].
    now rewrite Nat.sub_diag.
Qed.

Lemma set_columns_position (cols : list string) (c : string) :
  exists k, position c (set_columns cols c) = Some k.
Proof.
  destruct (set_cell_read cols c (mkRow 0 []) None) as (k & H & _). eauto.
Qed.

Lemma set_cell_at (cols : list string) (c : string) (r : Row) (v : cell) (k : nat) :
  position c (set_columns cols c) = Some k ->
  at_pos k (set_cell cols c r v) = v.
Proof.
  intros H. destruct (set_cell_read cols c r v) as (k' & H' & E). congruence.
Qed.

Lemma set_cell_label (cols : list string) (c : string) (r : Row) (v : cell) :
  label (set_cell cols c r v) = label r.
Proof. unfold set_cell. now destruct (position c cols). Qed.

(** A column other than [c] keeps its position. *)
Lemma set_columns_other (cols : list string) (c d : string) (j : nat) :
  position d cols = Some j -> position d (set_columns cols c) = Some j.
Proof.
  unfold set_columns. destruct (position c cols); [easy|].
  apply position_app_old.
Qed.

End FrameFacts.

(** ** Tables: labels, filling, grouping *)

Section ReducerFacts.

Import Frame.

Lemma range_index_labels (n : nat) (body : list (list cell)) :
  map label (range_index n body) = seq n (List.length body).
Proof.
  revert n; induction body as [|cs t IH]; intros n; simpl; [reflexivity|].
  now rewrite IH.
Qed.

Lemma range_index_cells (n : nat) (body : list (list cell)) :
  map cells (range_index n body) = body.
Proof.
  revert n; induction body as [|cs t IH]; intros n; simpl; [reflexivity|].
  now rewrite IH.
Qed.

Lemma seq_increasing (n len : nat) : StronglySorted lt (seq n len).
Proof.
  revert n; induction len as [|len IH]; intros n; simpl; constructor.
  - apply IH.
  - apply Forall_forall. intros x Hx. apply in_seq in Hx. lia.
Qed.

Lemma of_sheet_increasing (s : Sheet) : increasing (rows (of_sheet s)).
Proof.
  unfold increasing, of_sheet; simpl.
  rewrite range_index_labels. apply seq_increasing.
Qed.

Lemma increasing_filter (p : Row -> bool) (rs : list Row) :
  increasing rs -> increasing (filter p rs).
Proof.
  unfold increasing. induction rs as [|r t IH]; simpl; intros H; [constructor|].
  inversion H as [|? ? Ht Hr]; subst.
  destruct (p r); simpl; [|now apply IH].
  constructor; [now apply IH|].
  rewrite Forall_forall in *. intros x Hx. apply Hr.
  apply in_map_iff in Hx as (y & <- & Hy). apply filter_In in Hy as [Hy _].
  now apply in_map.
Qed.

Lemma increasing_NoDup (rs : list Row) : increasing rs -> NoDup (map label rs).
Proof.
  unfold increasing. induction (map label rs) as [|x t IH]; intros H; constructor;
    inversion H as [|? ? Ht Hx]; subst.
  - intros I. rewrite Forall_forall in Hx. specialize (Hx x I). lia.
  - now apply IH.
Qed.

Lemma map_filter_comm {A B} (f : A -> B) (p : B -> bool) (l : list A) :
  map f (filter (fun a => p (f a)) l) = filter p (map f l).
Proof.
  induction l as [|a t IH]; simpl; [reflexivity|].
  destruct (p (f a)); simpl; now rewrite IH.
Qed.

Lemma map_set_cell (cols : list string) (c : string) (k : nat)
      (rs : list Row) (vals : list cell) :
  position c (set_columns cols c) = Some k ->
  List.length vals = List.length rs ->
  map (at_pos k) (map (fun rv => set_cell cols c (fst rv) (snd rv)) (combine rs vals))
  = vals
  /\ map label (map (fun rv => set_cell cols c (fst rv) (snd rv)) (combine rs vals))
  = map label rs.
Proof.
  intros P. revert vals; induction rs as [|r t IH]; intros vals L.
  - destruct vals; [now split | discriminate].
  - destruct vals as [|v vals]; [discriminate|]. simpl in *.
    destruct (IH vals) as [E1 E2]; [lia|].
    rewrite E1, E2, (set_cell_at _ _ _ _ _ P), set_cell_label. now split.
Qed.

Lemma filter_notna_some (series : list cell) :
  filter (fun x => negb (isna x)) series = map Some (notna series).
Proof.
  induction series as [|[v|] t IH]; simpl; [reflexivity | now rewrite IH | exact IH].
Qed.

(** Lines 100-107: [compound_id] holds, row by row, the forward-filled
    compound column of the rows that are not empty, without the rows the
    fill leaves null; the labels stay in order. *)
Lemma fill_compound_id_inv (df filled : DataFrame) (c : string) :
  fill_compound_id df c = Ok filled ->
  exists i ki series,
    position c (columns df) = Some i
    /\ getitem (dropna_all df) c = Ok series
    /\ columns filled = set_columns (columns df) "compound_id"
    /\ position "compound_id" (columns filled) = Some ki
    /\ map (at_pos ki) (rows filled) = map Some (notna (ffill series))
    /\ (increasing (rows df) -> increasing (rows filled)).
Proof.
  unfold fill_compound_id, getitem. simpl.
  destruct (position c (columns df)) as [i|] eqn:P; [|discriminate]. simpl.
  unfold dropna_subset. simpl.
  destruct (set_columns_position (columns df) "compound_id") as [ki K].
  rewrite K. intros H; inversion H; subst filled; clear H. simpl.
  set (rows1 := filter (fun r => negb (forallb isna (cells r))) (rows df)).
  set (series := map (at_pos i) rows1).
  exists i, ki, series. repeat split; try assumption.
  - destruct (map_set_cell (columns df) "compound_id" ki rows1 (ffill series) K)
      as [E _].
    { unfold ffill. rewrite ffill_from_length. unfold series. now rewrite length_map. }
    rewrite (map_filter_comm (at_pos ki) (fun x => negb (isna x))), E.
    apply filter_notna_some.
  - intros I. apply increasing_filter. unfold increasing.
    destruct (map_set_cell (columns df) "compound_id" ki rows1 (ffill series) K)
      as [_ E].
    { unfold ffill. rewrite ffill_from_length. unfold series. now rewrite length_map. }
    rewrite E. now apply increasing_filter.
Qed.

End ReducerFacts.

(** ** Group keys *)

Section KeyFacts.

Import Frame.

Lemma value_eqb_eq (a b : value) : Value.eqb a b = true <-> a = b.
Proof.
  destruct a as [x|x], b as [y|y]; simpl; split; try congruence.
  - intros H. apply Z.eqb_eq in H. now subst.
  - intros H. inversion H. apply Z.eqb_refl.
  - intros H. apply String.eqb_eq in H. now subst.
  - intros H. inversion H. apply String.eqb_refl.
Qed.

Lemma value_eqb_refl (a : value) : Value.eqb a a = true.
Proof. now apply value_eqb_eq. Qed.

Lemma uniques_In (x : value) (l : list value) : In x (uniques l) <-> In x l.
Proof.
  induction l as [|y t IH]; simpl; [reflexivity|].
  rewrite filter_In, IH. split.
  - intros [H | [H _]]; auto.
  - intros [H | H]; [now left|].
    destruct (Value.eqb y x) eqn:E; [left; now apply value_eqb_eq | right; now split].
Qed.

Lemma NoDup_filter {A} (p : A -> bool) (l : list A) : NoDup l -> NoDup (filter p l).
Proof.
  induction 1 as [|x t Hx Ht IH]; simpl; [constructor|].
  destruct (p x); [|exact IH]. constructor; [|exact IH].
  intros H. apply filter_In in H. tauto.
Qed.

Lemma uniques_NoDup (l : list value) : NoDup (uniques l).
Proof.
  induction l as [|y t IH]; simpl; constructor.
  - intros H. apply filter_In in H as [_ H].
    now rewrite value_eqb_refl in H.
  - now apply NoDup_filter.
Qed.

(** [uniques] counts the distinct values. *)
Lemma uniques_length (l : list value) :
  List.length (uniques l) = List.length (nodup Value.eq_dec l).
Proof.
  apply Permutation_length. apply NoDup_Permutation.
  - apply uniques_NoDup.
  - apply NoDup_nodup.
  - intros x. now rewrite uniques_In, nodup_In.
Qed.

Lemma insert_by_perm {A} (leb : A -> A -> bool) (x : A) (l : list A) :
  Permutation (insert_by leb x l) (x :: l).
Proof.
  induction l as [|y t IH]; simpl; [reflexivity|].
  destruct (leb x y); [reflexivity|].
  rewrite IH. apply perm_swap.
Qed.

Lemma sort_by_perm {A} (leb : A -> A -> bool) (l : list A) :
  Permutation (sort_by leb l) l.
Proof.
  induction l as [|x t IH]; simpl; [reflexivity|].
  unfold sort_by in *. simpl. rewrite insert_by_perm. now constructor.
Qed.

Lemma insert_by_sorted {A} (leb : A -> A -> bool) (x : A) (l : list A) :
  (forall a b, leb a b = true \/ leb b a = true) ->
  Sorted (fun a b => leb a b = true) l ->
  Sorted (fun a b => leb a b = true) (insert_by leb x l).
Proof.
  intros total. induction l as [|y t IH]; simpl; intros S.
  - repeat constructor.
  - destruct (leb x y) eqn:E.
    + constructor; [exact S | now constructor].
    + inversion S as [|? ? St Hy]; subst.
      constructor; [now apply IH|].
      destruct t as [|z t]; simpl.
      * constructor. destruct (total x y) as [H|H]; congruence.
      * destruct (leb x z); constructor.
        -- destruct (total x y) as [H|H]; congruence.
        -- now inversion Hy.
Qed.

Lemma sort_by_sorted {A} (leb : A -> A -> bool) (l : list A) :
  (forall a b, leb a b = true \/ leb b a = true) ->
  Sorted (fun a b => leb a b = true) (sort_by leb l).
Proof.
  intros total. induction l as [|x t IH]; simpl; [constructor|].
  now apply insert_by_sorted.
Qed.

Lemma group_keys_perm (keys : list cell) :
  Permutation (group_keys keys) (uniques (notna keys)).
Proof. apply sort_by_perm. Qed.

Lemma group_keys_NoDup (keys : list cell) : NoDup (group_keys keys).
Proof.
  eapply Permutation_NoDup; [symmetry; apply group_keys_perm | apply uniques_NoDup].
Qed.

Lemma notna_In (k : value) (series : list cell) :
  In k (notna series) <-> In (Some k) series.
Proof.
  induction series as [|[v|] t IH]; simpl; [reflexivity | | ].
  - rewrite IH. split; (intros [H|H]; [left; congruence | now right]).
  - rewrite IH. split; [now right | intros [H|H]; [discriminate | exact H]].
Qed.

Lemma group_keys_In (k : value) (keys : list cell) :
  In k (group_keys keys) <-> In (Some k) keys.
Proof.
  split; intros H.
  - apply notna_In, uniques_In.
    eapply Permutation_in; [apply group_keys_perm | exact H].
  - apply notna_In, uniques_In in H.
    eapply Permutation_in; [apply Permutation_sym, group_keys_perm | exact H].
Qed.

(** One key per distinct identifier that is not null. *)
Lemma group_keys_length (keys : list cell) :
  List.length (group_keys keys)
  = List.length (nodup Value.eq_dec (notna keys)).
Proof.
  rewrite <- uniques_length. apply Permutation_length, group_keys_perm.
Qed.

End KeyFacts.

(** ** The best row of a group *)

Section IdxmaxFacts.

Import Frame.

Local Open Scope Z_scope.

(** [idxmax_from] either keeps the best row it started with, which then
    bounds the whole group, or returns the first row of the group that
    holds the largest number. *)
Lemma idxmax_from_inv (group : list (nat * cell)) :
  forall (best : option (nat * Z)) (res : option nat),
    idxmax_from best group = Ok res ->
    (res = option_map fst best
     /\ match best with
        | Some (_, bq) => forall l q, In (l, Some (VNum q)) group -> q <= bq
        | None => forall l q, ~ In (l, Some (VNum q)) group
        end)
    \/ (exists g1 l q g2,
          group = (g1 ++ (l, Some (VNum q)) :: g2)%list
          /\ res = Some l
          /\ (forall l' q', In (l', Some (VNum q')) g1 -> q' < q)
          /\ (forall l' q', In (l', Some (VNum q')) g2 -> q' <= q)
          /\ match best with Some (_, bq) => bq < q | None => True end).
Proof.
  induction group as [|[l0 c0] t IH]; intros best res H; simpl in H.
  - left. inversion H; subst. split; [reflexivity|].
    destruct best as [[bl bq]|]; intros l q [].
  - destruct c0 as [[q0|s0]|].
    + (* a number *)
      assert (Hnew : idxmax_from (Some (l0, q0)) t = Ok res ->
                     exists g1 l q g2,
                       ((l0, Some (VNum q0)) :: t
                        = g1 ++ (l, Some (VNum q)) :: g2)%list
                       /\ res = Some l
                       /\ (forall l' q', In (l', Some (VNum q')) g1 -> q' < q)
                       /\ (forall l' q', In (l', Some (VNum q')) g2 -> q' <= q)
                       /\ q0 <= q).
      { intros H'. destruct (IH _ _ H') as [[E B] | (g1 & l & q & g2 & E & R & B1 & B2 & B)].
        - exists [], l0, q0, t. simpl in *.
          repeat split; auto; try lia; intros l' q' [].
        - exists ((l0, Some (VNum q0)) :: g1), l, q, g2. subst t.
          repeat split; auto; try lia;
            intros l' q' [X | X]; [inversion X; subst; lia | eauto]. }
      destruct best as [[bl bq]|].
      * destruct (bq <? q0) eqn:C.
        -- apply Z.ltb_lt in C. right.
           destruct (Hnew H) as (g1 & l & q & g2 & E & R & B1 & B2 & B).
           exists g1, l, q, g2. repeat split; auto; lia.
        -- apply Z.ltb_ge in C.
           destruct (IH _ _ H) as [[E B] | (g1 & l & q & g2 & E & R & B1 & B2 & B)].
           ++ left. split; [exact E|].
              intros l q [X | X]; [inversion X; subst; lia | eauto].
           ++ right. exists ((l0, Some (VNum q0)) :: g1), l, q, g2. subst t.
              repeat split; auto;
                intros l' q' [X | X]; [inversion X; subst; lia | eauto].
      * right. destruct (Hnew H) as (g1 & l & q & g2 & E & R & B1 & B2 & B).
        exists g1, l, q, g2. repeat split; auto.
    + (* a text *) discriminate.
    + (* NaN *)
      destruct (IH _ _ H) as [[E B] | (g1 & l & q & g2 & E & R & B1 & B2 & B)].
      * left. split; [exact E|].
        destruct best as [[bl bq]|].
        -- intros l q [X | X]; [discriminate | eauto].
        -- intros l q [X | X]; [discriminate | now apply (B l q)].
      * right. exists ((l0, None) :: g1), l, q, g2. subst t.
        repeat split; auto;
          intros l' q' [X | X]; [discriminate | eauto].
Qed.

Lemma idxmax_inv (group : list (nat * cell)) (res : option nat) :
  idxmax group = Ok res ->
  (res = None /\ forall l q, ~ In (l, Some (VNum q)) group)
  \/ (exists g1 l q g2,
        group = (g1 ++ (l, Some (VNum q)) :: g2)%list
        /\ res = Some l
        /\ (forall l' q', In (l', Some (VNum q')) g1 -> q' < q)
        /\ (forall l' q', In (l', Some (VNum q')) g2 -> q' <= q)).
Proof.
  intros H. destruct (idxmax_from_inv _ _ _ H)
    as [[E B] | (g1 & l & q & g2 & E & R & B1 & B2 & _)].
  - left. now split.
  - right. exists g1, l, q, g2. now repeat split.
Qed.

Lemma map_filter_split {A B} (f : A -> B) (p : A -> bool) (l : list A) :
  forall (g1 : list B) (x : B) (g2 : list B),
    map f (filter p l) = (g1 ++ x :: g2)%list ->
    exists l1 a l2,
      l = (l1 ++ a :: l2)%list /\ p a = true /\ f a = x
      /\ map f (filter p l1) = g1 /\ map f (filter p l2) = g2.
Proof.
  induction l as [|a t IH]; intros g1 x g2 H; simpl in H.
  - destruct g1; discriminate.
  - destruct (p a) eqn:P.
    + destruct g1 as [|y g1]; simpl in H; inversion H; subst.
      * exists [], a, t. now repeat split.
      * match goal with E : map f (filter p t) = _ |- _ =>
          destruct (IH _ _ _ E) as (l1 & a' & l2 & -> & Pa & Fa & M1 & M2) end.
        exists (a :: l1), a', l2. simpl. rewrite P. simpl.
        repeat split; auto. now rewrite M1.
    + destruct (IH _ _ _ H) as (l1 & a' & l2 & -> & Pa & Fa & M1 & M2).
      exists (a :: l1), a', l2. simpl. rewrite P. now repeat split.
Qed.

(** The label [idxmax] returns for group [k] is that of the top hit of
    [k]; a group with no number gives NaN. *)
Lemma idxmax_group_first_best (ki qi : nat) (k : value) (rs : list Row)
      (res : option nat) :
  idxmax (group_of ki qi k rs) = Ok res ->
  match res with
  | Some l => exists r, label r = l /\ first_best ki qi rs k r
  | None => forall r q, In r rs -> has_key ki k r = true ->
                        at_pos qi r <> Some (VNum q)
  end.
Proof.
  intros H. unfold group_of in H.
  destruct (idxmax_inv _ _ H) as [[-> B] | (g1 & l & q & g2 & E & -> & B1 & B2)].
  - intros r q Hr Hk Hq. apply (B (label r) q).
    apply in_map_iff. exists r. split; [now rewrite Hq|].
    apply filter_In. now split.
  - apply map_filter_split in E as (l1 & r & l2 & -> & Pk & Fr & M1 & M2).
    inversion Fr as [[Hl Hq]]. exists r. split; [reflexivity|].
    exists l1, l2, q. repeat split; auto.
    + intros r' q' Hr Hk Hq'. apply (B1 (label r')). rewrite <- M1.
      apply in_map_iff. exists r'. split; [now rewrite Hq'|].
      apply filter_In. now split.
    + intros r' q' Hr Hk Hq'. apply (B2 (label r')). rewrite <- M2.
      apply in_map_iff. exists r'. split; [now rewrite Hq'|].
      apply filter_In. now split.
Qed.

End IdxmaxFacts.

(** ** Picking the rows *)

Section LocFacts.

Import Frame.

Lemma idxmax_groups_inv (ki qi : nat) (rs : list Row) (keys : list value) :
  forall idx,
    idxmax_groups ki qi rs keys = Ok idx ->
    Forall2 (fun k e => fst e = k /\ idxmax (group_of ki qi k rs) = Ok (snd e))
            keys idx.
Proof.
  induction keys as [|k t IH]; intros idx H; simpl in H.
  - inversion H. constructor.
  - destruct (idxmax (group_of ki qi k rs)) as [l|] eqn:E; [|discriminate].
    simpl in H.
    destruct (idxmax_groups ki qi rs t) as [rest|]; [|discriminate].
    simpl in H. inversion H; subst. constructor; [now split | now apply IH].
Qed.

Lemma same_label_same_row (rs : list Row) (a b : Row) :
  NoDup (map label rs) -> In a rs -> In b rs -> label a = label b -> a = b.
Proof.
  induction rs as [|r t IH]; simpl; intros N Ha Hb E; [easy|].
  inversion N as [|? ? Hr Nt]; subst.
  destruct Ha as [-> | Ha], Hb as [-> | Hb]; auto.
  - exfalso. apply Hr. rewrite E. now apply in_map.
  - exfalso. apply Hr. rewrite <- E. now apply in_map.
Qed.

Lemma filter_label_unique (rs : list Row) (r : Row) :
  NoDup (map label rs) -> In r rs ->
  filter (fun r' => Nat.eqb (label r') (label r)) rs = [r].
Proof.
  induction rs as [|a t IH]; simpl; intros N H; [easy|].
  inversion N as [|? ? Ha Nt]; subst.
  destruct H as [-> | H].
  - rewrite Nat.eqb_refl. f_equal.
    destruct (filter (fun r' => Nat.eqb (label r') (label r)) t) as [|x xs] eqn:F;
      [reflexivity|].
    assert (I : In x (x :: xs)) by now left.
    rewrite <- F in I. apply filter_In in I as [I L].
    apply Nat.eqb_eq in L. exfalso. apply Ha. rewrite <- L. now apply in_map.
  - destruct (Nat.eqb (label a) (label r)) eqn:L.
    + apply Nat.eqb_eq in L. exfalso. apply Ha. rewrite L. now apply in_map.
    + now apply IH.
Qed.

(** With distinct labels [df.loc[idx]] yields one row per label. *)
Lemma loc_rows_unique (rs : list Row) (idx : list (value * option nat)) :
  NoDup (map label rs) ->
  forall picked,
    loc_rows rs idx = Ok picked ->
    Forall2 (fun e r => snd e = Some (label r) /\ In r rs) idx picked.
Proof.
  intros N. induction idx as [|[k [l|]] t IH]; intros picked H; simpl in H.
  - inversion H. constructor.
  - destruct (filter (fun r => Nat.eqb (label r) l) rs) as [|r found] eqn:F;
      [discriminate|].
    destruct (loc_rows rs t) as [rest|]; [|discriminate].
    simpl in H. inversion H; subst; clear H.
    assert (I : In r (r :: found)) by now left.
    rewrite <- F in I. apply filter_In in I as [I L]. apply Nat.eqb_eq in L.
    subst l. rewrite (filter_label_unique rs r N I) in F.
    inversion F; subst found. simpl.
    constructor; [now split | now apply IH].
  - discriminate.
Qed.

(** Whatever the labels, [df.loc[idx]] yields rows of the table. *)
Lemma loc_rows_subset (rs : list Row) (idx : list (value * option nat)) :
  forall picked,
    loc_rows rs idx = Ok picked -> forall r, In r picked -> In r rs.
Proof.
  induction idx as [|[k [l|]] t IH]; intros picked H r Hr; simpl in H.
  - inversion H; subst. elim Hr.
  - destruct (filter (fun r => Nat.eqb (label r) l) rs) as [|x found] eqn:F;
      [discriminate|].
    destruct (loc_rows rs t) as [rest|]; [|discriminate].
    simpl in H. inversion H; subst; clear H.
    change (x :: (found ++ rest)%list) with ((x :: found) ++ rest)%list in Hr.
    apply in_app_or in Hr as [Hr | Hr].
    + rewrite <- F in Hr. now apply filter_In in Hr.
    + now apply (IH rest).
  - discriminate.
Qed.

(** Lines 109-111, step by step. *)
Lemma top_rows_unfold (df top : DataFrame) (q : string) :
  top_rows df q = Ok top ->
  exists ki qi idx picked,
    position "compound_id" (columns df) = Some ki
    /\ position q (columns df) = Some qi
    /\ idxmax_groups ki qi (rows df) (group_keys (map (at_pos ki) (rows df)))
       = Ok idx
    /\ loc_rows (rows df) idx = Ok picked
    /\ homogeneous (notna (map (at_pos ki) picked)) = true
    /\ top = mkDF (columns df)
                  (range_index 0
                     (map cells
                        (sort_by (fun a b => cell_leb (at_pos ki a) (at_pos ki b))
                                 picked))).
Proof.
  unfold top_rows, groupby_idxmax, loc, sort_values, reset_index.
  destruct (position "compound_id" (columns df)) as [ki|] eqn:K; [|discriminate].
  destruct (position q (columns df)) as [qi|] eqn:Q; [|discriminate].
  destruct (idxmax_groups ki qi (rows df) (group_keys (map (at_pos ki) (rows df))))
    as [idx|] eqn:I; [|discriminate].
  simpl.
  destruct (loc_rows (rows df) idx) as [picked|] eqn:L; [|discriminate].
  simpl. rewrite K.
  destruct (homogeneous (notna (map (at_pos ki) picked))) eqn:Hm; [|discriminate].
  simpl. intros H; inversion H; subst.
  exists ki, qi, idx, picked. now repeat split.
Qed.

(** With labels in order, the rows picked are the top hits of the group
    keys, one for each key and in the order of the keys. *)
Lemma picked_first_best (ki qi : nat) (rs : list Row)
      (keys : list value) (idx : list (value * option nat)) (picked : list Row) :
  increasing rs ->
  idxmax_groups ki qi rs keys = Ok idx ->
  loc_rows rs idx = Ok picked ->
  Forall2 (first_best ki qi rs) keys picked.
Proof.
  intros Inc HI HL.
  pose proof (increasing_NoDup rs Inc) as N.
  apply idxmax_groups_inv in HI. apply (loc_rows_unique rs idx N) in HL.
  revert picked HL. induction HI as [|k e keys idx [_ Hk] HI IH]; intros picked HL.
  - inversion HL. constructor.
  - inversion HL as [|? r ? picked' [Hl Hr] HL']; subst.
    constructor; [|now apply IH].
    rewrite Hl in Hk. apply idxmax_group_first_best in Hk as (r0 & E & FB).
    assert (r0 = r); [|now subst].
    apply (same_label_same_row rs); auto.
    destruct FB as (before & after & ? & -> & _).
    apply in_or_app. right. now left.
Qed.

End LocFacts.

(** ** The reducer as a whole *)

Section ReducerResult.

Import Frame.

Lemma extract_top_hits_inv (df top : DataFrame) :
  extract_top_hits df = Ok top ->
  exists c others filled,
    compound_candidates df = c :: others
    /\ fill_compound_id df c = Ok filled
    /\ top_rows filled "Quality" = Ok top.
Proof.
  unfold extract_top_hits.
  destruct (compound_candidates df) as [|c others]; [discriminate|].
  destruct (fill_compound_id df c) as [filled|] eqn:F; [|discriminate]. simpl.
  destruct (top_rows filled "Quality") as [t|] eqn:T; [|discriminate]. simpl.
  intros H; inversion H; subst. now exists c, others, filled.
Qed.

Lemma notna_map_Some (l : list value) : notna (map Some l) = l.
Proof. induction l as [|x t IH]; simpl; [reflexivity | now rewrite IH]. Qed.

Lemma range_index_length (n : nat) (body : list (list cell)) :
  List.length (range_index n body) = List.length body.
Proof.
  revert n; induction body as [|cs t IH]; intros n; simpl; [reflexivity|].
  now rewrite IH.
Qed.

Lemma range_index_at_pos (k n : nat) (rs : list Row) :
  map (at_pos k) (range_index n (map cells rs)) = map (at_pos k) rs.
Proof.
  revert n; induction rs as [|r t IH]; intros n; simpl; [reflexivity|].
  now rewrite IH.
Qed.

Lemma range_index_filter_cells (p : Row -> bool) (n : nat) (rs : list Row) :
  (forall a b, cells a = cells b -> p a = p b) ->
  map cells (filter p (range_index n (map cells rs))) = map cells (filter p rs).
Proof.
  intros Hp. revert n; induction rs as [|r t IH]; intros n; simpl; [reflexivity|].
  rewrite (Hp (mkRow n (cells r)) r eq_refl).
  destruct (p r); simpl; now rewrite IH.
Qed.

Lemma Forall2_same_length {A B} (R : A -> B -> Prop) (l : list A) (l' : list B) :
  Forall2 R l l' -> List.length l = List.length l'.
Proof. induction 1; simpl; congruence. Qed.

(** When the reducer succeeds on a sheet, its output has as many rows
    as there are distinct identifiers, null apart, in the forward-filled
    compound column of the rows that are not entirely empty. *)
Lemma row_count_of_success :
  forall (s : Sheet) (top : DataFrame),
    extract_top_hits (of_sheet s) = Ok top ->
    exists c series,
      hd_error (compound_candidates (of_sheet s)) = Some c
      /\ getitem (dropna_all (of_sheet s)) c = Ok series
      /\ List.length (rows top)
         = List.length (nodup Value.eq_dec (notna (ffill series))).
Proof.
  intros s top H.
  apply extract_top_hits_inv in H as (c & others & filled & C & F & T).
  apply fill_compound_id_inv in F as (i & ki & series & P & G & Cols & K & Ids & Inc).
  apply top_rows_unfold in T as (ki' & qi & idx & picked & K' & Q & I & L & _ & ->).
  rewrite K in K'. inversion K'; subst ki'.
  exists c, series. rewrite C. repeat split; [exact G|].
  pose proof (picked_first_best _ _ _ _ _ _ (Inc (of_sheet_increasing s)) I L) as FB.
  apply Forall2_same_length in FB. simpl.
  rewrite range_index_length, length_map.
  rewrite (Permutation_length (sort_by_perm _ picked)), <- FB.
  now rewrite group_keys_length, Ids, notna_map_Some.
Qed.

End ReducerResult.

(** ** Ties *)

Section TieFacts.

Import Frame.

Lemma has_key_cells (ki : nat) (k : value) (a b : Row) :
  cells a = cells b -> has_key ki k a = has_key ki k b.
Proof. unfold has_key, at_pos. now intros ->. Qed.

Lemma has_key_fun (ki : nat) (k k' : value) (r : Row) :
  has_key ki k r = true -> has_key ki k' r = true -> k = k'.
Proof.
  unfold has_key. destruct (at_pos ki r) as [v|]; [|discriminate].
  intros H H'. apply value_eqb_eq in H, H'. congruence.
Qed.

Lemma has_key_at (ki : nat) (k : value) (r : Row) :
  has_key ki k r = true <-> at_pos ki r = Some k.
Proof.
  unfold has_key. destruct (at_pos ki r) as [v|].
  - rewrite value_eqb_eq. split; congruence.
  - split; discriminate.
Qed.

Lemma filter_perm {A} (p : A -> bool) (l l' : list A) :
  Permutation l l' -> Permutation (filter p l) (filter p l').
Proof.
  induction 1 as [|x l l' _ IH|x y l|l l' l'' _ IH1 _ IH2]; simpl.
  - constructor.
  - destruct (p x); [now constructor | exact IH].
  - destruct (p x), (p y); try reflexivity. apply perm_swap.
  - now transitivity (filter p l').
Qed.

Lemma increasing_after (before after : list Row) (r0 r : Row) :
  increasing (before ++ r0 :: after) -> In r after -> label r0 < label r.
Proof.
  unfold increasing. rewrite map_app. simpl.
  induction (map label before) as [|x t IH]; simpl; intros H Hr.
  - inversion H as [|? ? _ F]; subst. rewrite Forall_forall in F.
    apply F. now apply in_map.
  - inversion H; subst. now apply IH.
Qed.

Lemma picked_no_key (ki qi : nat) (rs : list Row) (k : value)
      (keys : list value) (picked : list Row) :
  Forall2 (first_best ki qi rs) keys picked ->
  ~ In k keys -> filter (has_key ki k) picked = [].
Proof.
  induction 1 as [|k1 r1 keys picked FB1 _ IH1]; intros N0; [reflexivity|].
  simpl. destruct (has_key ki k r1) eqn:E.
  - exfalso. apply N0. left.
    destruct FB1 as (? & ? & ? & _ & Hk1 & _).
    symmetry. eapply has_key_fun; eauto.
  - apply IH1. intros X. apply N0. now right.
Qed.

(** Among the picked rows exactly one belongs to group [k]. *)
Lemma picked_of_key (ki qi : nat) (rs : list Row) (k : value)
      (keys : list value) (picked : list Row) :
  Forall2 (first_best ki qi rs) keys picked ->
  NoDup keys -> In k keys ->
  exists r0, first_best ki qi rs k r0 /\ filter (has_key ki k) picked = [r0].
Proof.
  induction 1 as [|k' r keys picked FB Rest IH]; intros N I; [easy|].
  inversion N as [|? ? Hk' N']; subst.
  assert (Hr : has_key ki k' r = true)
    by (destruct FB as (? & ? & ? & _ & ? & _); assumption).
  simpl. destruct I as [-> | I].
  - exists r. rewrite Hr. split; [exact FB|].
    now rewrite (picked_no_key _ _ _ _ _ _ Rest Hk').
  - destruct (has_key ki k r) eqn:E.
    + exfalso. apply Hk'. now rewrite (has_key_fun _ _ _ _ Hr E).
    + now apply IH.
Qed.

(** The top hit of a group is the only row that fits its description. *)
Lemma first_best_unique (ki qi : nat) (rs : list Row) (k : value) (a b : Row) :
  increasing rs ->
  first_best ki qi rs k a -> first_best ki qi rs k b -> a = b.
Proof.
  intros Inc (ba & aa & qa & Ea & Ka & Qa & Ba & Aa)
             (bb & ab & qb & Eb & Kb & Qb & Bb & Ab).
  assert (Ia : In a (bb ++ b :: ab)).
  { rewrite <- Eb, Ea. apply in_or_app. right. now left. }
  assert (Ib : In b (ba ++ a :: aa)).
  { rewrite <- Ea, Eb. apply in_or_app. right. now left. }
  apply in_app_or in Ia as [Ia | [Ia | Ia]]; [ | now subst | ];
    apply in_app_or in Ib as [Ib | [Ib | Ib]]; try (now subst).
  - pose proof (Bb _ _ Ia Ka Qa). pose proof (Ba _ _ Ib Kb Qb). lia.
  - pose proof (Bb _ _ Ia Ka Qa). pose proof (Aa _ _ Ib Kb Qb). lia.
  - pose proof (Ab _ _ Ia Ka Qa). pose proof (Ba _ _ Ib Kb Qb). lia.
  - rewrite Eb in Inc. pose proof (increasing_after _ _ _ _ Inc Ia) as L1.
    rewrite <- Eb, Ea in Inc. pose proof (increasing_after _ _ _ _ Inc Ib). lia.
Qed.

(** When the reducer succeeds on a sheet, the row it keeps for a compound
    is the top hit of the group in the sense of [first_best], has the
    lowest index among the rows of the group with the same quality, and is
    the only row that fits. *)
Lemma top_hit_of_success :
  forall (s : Sheet) (top : DataFrame),
    extract_top_hits (of_sheet s) = Ok top ->
    exists c filled ki qi,
      hd_error (compound_candidates (of_sheet s)) = Some c
      /\ fill_compound_id (of_sheet s) c = Ok filled
      /\ position "compound_id" (columns filled) = Some ki
      /\ position "Quality" (columns filled) = Some qi
      /\ forall k,
           In (Some k) (map (at_pos ki) (rows filled)) ->
           exists r0,
             first_best ki qi (rows filled) k r0
             /\ (forall r, In r (rows filled) -> has_key ki k r = true ->
                           at_pos qi r = at_pos qi r0 -> label r0 <= label r)
             /\ (forall r, first_best ki qi (rows filled) k r -> r = r0)
             /\ map cells (filter (has_key ki k) (rows top)) = [cells r0].
Proof.
  intros s top H.
  apply extract_top_hits_inv in H as (c & others & filled & C & F & T).
  pose proof F as F'.
  apply fill_compound_id_inv in F' as (i & ki & series & P & G & Cols & K & Ids & Inc).
  specialize (Inc (of_sheet_increasing s)).
  apply top_rows_unfold in T as (ki' & qi & idx & picked & K' & Q & I & L & _ & ->).
  rewrite K in K'. inversion K'; subst ki'.
  exists c, filled, ki, qi. rewrite C. repeat split; auto.
  intros k Hk.
  pose proof (picked_first_best _ _ _ _ _ _ Inc I L) as FB.
  destruct (picked_of_key ki qi (rows filled) k _ _ FB (group_keys_NoDup _))
    as (r0 & FB0 & Only); [now apply group_keys_In|].
  exists r0. split; [exact FB0|]. split; [|split].
  - destruct FB0 as (before & after & q & E & K0 & Q0 & B & A).
    intros r Hr Kr Qr. rewrite E in Hr.
    apply in_app_or in Hr as [Hr | [Hr | Hr]].
    + rewrite Q0 in Qr. pose proof (B _ _ Hr Kr Qr). lia.
    + subst. lia.
    + rewrite E in Inc. pose proof (increasing_after _ _ _ _ Inc Hr). lia.
  - intros r Hr. now apply (first_best_unique ki qi (rows filled) k).
  - simpl. rewrite (range_index_filter_cells _ _ _ (has_key_cells ki k)).
    pose proof (filter_perm (has_key ki k) _ _
                  (sort_by_perm (fun a b => cell_leb (at_pos ki a) (at_pos ki b)) picked))
      as Pm.
    rewrite Only in Pm. apply Permutation_sym, Permutation_length_1_inv in Pm.
    now rewrite Pm.
Qed.

End TieFacts.

(** ** Order of the output *)

Section OrderFacts.

Import Frame.

Lemma value_leb_total (a b : value) : Value.leb a b = true \/ Value.leb b a = true.
Proof.
  unfold Value.leb. destruct a as [x|x], b as [y|y]; simpl; auto.
  - rewrite (Z.compare_antisym x y). destruct (Z.compare x y); simpl; auto.
  - destruct (String_as_OT.compare_spec x y) as [E|L|L]; auto.
    right. destruct (String_as_OT.compare_spec y x) as [E'|L'|L']; auto.
    exfalso. eapply (StrictOrder_Irreflexive x).
    eapply (StrictOrder_Transitive x y x); eassumption.
Qed.

Lemma cell_leb_total (a b : cell) : cell_leb a b = true \/ cell_leb b a = true.
Proof.
  destruct a as [x|], b as [y|]; simpl; auto. apply value_leb_total.
Qed.

Lemma leb_same_kind_le (a b : value) :
  Value.leb a b = true -> Value.same_kind a b = true -> value_le a b.
Proof.
  unfold Value.leb, value_le. destruct a as [x|x], b as [y|y]; simpl;
    try discriminate; intros H _.
  - destruct (Z.compare_spec x y) as [E|L|L]; [right; now subst | now left | discriminate].
  - destruct (String_as_OT.compare_spec x y) as [E|L|L];
      [right; f_equal; exact E | now left | discriminate].
Qed.

Lemma value_lt_trans (a b c : value) : Value.lt a b -> Value.lt b c -> Value.lt a c.
Proof.
  destruct a as [x|x], b as [y|y], c as [z|z]; simpl; try easy.
  - apply Z.lt_trans.
  - apply (StrictOrder_Transitive (R := String_as_OT.lt)).
Qed.

Lemma value_le_trans (a b c : value) : value_le a b -> value_le b c -> value_le a c.
Proof.
  intros [H | ->] [H' | ->]; unfold value_le; auto.
  left. eapply value_lt_trans; eauto.
Qed.

Lemma same_kind_refl (a : value) : Value.same_kind a a = true.
Proof. now destruct a. Qed.

Lemma same_kind_sym (a b : value) : Value.same_kind a b = Value.same_kind b a.
Proof. now destruct a, b. Qed.

Lemma homogeneous_same_kind (l : list value) :
  homogeneous l = true ->
  forall x y, In x l -> In y l -> Value.same_kind x y = true.
Proof.
  induction l as [|h t IH]; simpl; intros H x y Hx Hy; [easy|].
  apply andb_true_iff in H as [Hh Ht]. rewrite forallb_forall in Hh.
  destruct Hx as [<- | Hx], Hy as [<- | Hy].
  - apply same_kind_refl.
  - now apply Hh.
  - rewrite same_kind_sym. now apply Hh.
  - now apply IH.
Qed.

Lemma all_some_notna (series : list cell) :
  (forall c, In c series -> exists v, c = Some v) ->
  series = map Some (notna series).
Proof.
  induction series as [|c t IH]; intros H; [reflexivity|].
  destruct (H c (or_introl eq_refl)) as [v ->]. simpl. f_equal.
  apply IH. intros x Hx. apply H. now right.
Qed.

(** Rows sorted by a column whose cells are all numbers, or all texts,
    show its values in ascending order. *)
Lemma sorted_ids (ki : nat) (rs : list Row) :
  Sorted (fun a b => cell_leb (at_pos ki a) (at_pos ki b) = true) rs ->
  (forall r, In r rs -> exists v, at_pos ki r = Some v) ->
  (forall x y, In x (notna (map (at_pos ki) rs)) ->
               In y (notna (map (at_pos ki) rs)) ->
               Value.same_kind x y = true) ->
  Sorted value_le (notna (map (at_pos ki) rs)).
Proof.
  induction rs as [|r t IH]; intros S Hsome Hkind; [constructor|].
  inversion S as [|? ? St Hd]; subst.
  destruct (Hsome r (or_introl eq_refl)) as [v Hv].
  simpl in *. rewrite Hv in *. simpl in *.
  constructor.
  - apply IH; auto.
  - destruct t as [|r' t']; [constructor|].
    destruct (Hsome r' (or_intror (or_introl eq_refl))) as [v' Hv'].
    simpl in *. rewrite Hv' in *. simpl in *. constructor.
    inversion Hd as [|? ? Hrel]; subst. rewrite Hv, Hv' in Hrel.
    apply leb_same_kind_le; [exact Hrel|]. apply Hkind; auto.
Qed.

Lemma le_NoDup_lt (l : list value) :
  StronglySorted value_le l -> NoDup l -> StronglySorted Value.lt l.
Proof.
  induction 1 as [|x t St IH Hx]; intros N; constructor;
    inversion N as [|? ? Nx Nt]; subst.
  - now apply IH.
  - rewrite Forall_forall in *. intros y Hy.
    destruct (Hx y Hy) as [L | ->]; [exact L | contradiction].
Qed.

Lemma first_best_keys (ki qi : nat) (rs : list Row)
      (keys : list value) (picked : list Row) :
  Forall2 (first_best ki qi rs) keys picked ->
  map (at_pos ki) picked = map Some keys.
Proof.
  induction 1 as [|k r keys picked FB _ IH]; simpl; [reflexivity|].
  destruct FB as (? & ? & ? & _ & Hk & _). apply has_key_at in Hk.
  now rewrite Hk, IH.
Qed.

(** C8: when the reducer succeeds, every row of its output holds an
    identifier in [compound_id], the identifiers are all numbers or all
    texts, and they ascend down the table in the order of that type; on a
    sheet, where index labels are distinct, they ascend strictly. *)
Theorem C8_rows_ascending :
  forall (df top : DataFrame),
    extract_top_hits df = Ok top ->
    exists ki ids,
      position "compound_id" (columns top) = Some ki
      /\ map (at_pos ki) (rows top) = map Some ids
      /\ StronglySorted value_le ids
      /\ ((exists s, df = of_sheet s) -> StronglySorted Value.lt ids).
Proof.
  intros df top H.
  apply extract_top_hits_inv in H as (c & others & filled & C & F & T).
  apply fill_compound_id_inv in F as (i & ki & series & P & G & Cols & K & Ids & Inc).
  apply top_rows_unfold in T as (ki' & qi & idx & picked & K' & Q & I & L & Hm & ->).
  rewrite K in K'. inversion K'; subst ki'.
  set (srt := sort_by (fun a b => cell_leb (at_pos ki a) (at_pos ki b)) picked).
  assert (Pm : Permutation srt picked) by apply sort_by_perm.
  assert (Hsome : forall r, In r srt -> exists v, at_pos ki r = Some v).
  { intros r Hr. apply (Permutation_in _ Pm) in Hr.
    apply (loc_rows_subset _ _ _ L) in Hr.
    apply (in_map (at_pos ki)) in Hr. rewrite Ids in Hr.
    apply in_map_iff in Hr as (v & E & _). eauto. }
  assert (Pk : Permutation (notna (map (at_pos ki) srt))
                           (notna (map (at_pos ki) picked))).
  { clear - Pm. induction Pm as [|x l l' _ IH|x y l|l l' l'' _ IH1 _ IH2]; simpl.
    - constructor.
    - destruct (at_pos ki x); [now constructor | exact IH].
    - destruct (at_pos ki x), (at_pos ki y); try reflexivity. apply perm_swap.
    - now transitivity (notna (map (at_pos ki) l')). }
  exists ki, (notna (map (at_pos ki) srt)). simpl.
  assert (SS : StronglySorted value_le (notna (map (at_pos ki) srt))).
  { apply Sorted_StronglySorted; [exact value_le_trans|].
    apply sorted_ids.
    - apply sort_by_sorted. intros a b. apply cell_leb_total.
    - exact Hsome.
    - intros x y Hx Hy. apply (homogeneous_same_kind _ Hm);
        eapply Permutation_in; eauto. }
  split; [exact K|]. split; [|split; [exact SS|]].
  - rewrite range_index_at_pos. apply all_some_notna.
    intros x Hx. apply in_map_iff in Hx as (r & <- & Hr). now apply Hsome.
  - intros [s ->]. apply le_NoDup_lt; [exact SS|].
    apply (Permutation_NoDup (Permutation_sym Pk)).
    pose proof (picked_first_best _ _ _ _ _ _ (Inc (of_sheet_increasing s)) I L) as FB.
    rewrite (first_best_keys _ _ _ _ _ FB), notna_map_Some.
    apply group_keys_NoDup.
Qed.

End OrderFacts.

(** ** File cleaner *)

Section CleanerFacts.

Import Frame.

Lemma nth_fit (n j : nat) (cs : list cell) :
  j < n -> nth j (fit n cs) None = nth j cs None.
Proof.
  intros H. unfold fit. rewrite nth_firstn.
  destruct (Nat.ltb_spec j n) as [_|]; [|lia].
  destruct (Nat.lt_ge_cases j (List.length cs)) as [L|L].
  - now rewrite app_nth1.
  - rewrite app_nth2, nth_repeat, nth_overflow; auto.
Qed.

(** [df[k] = ...] leaves the cells of the other columns as they are. *)
Lemma set_cell_other (cols : list string) (k d : string) (j : nat)
      (r : Row) (v : cell) :
  position d cols = Some j -> d <> k ->
  at_pos j (set_cell cols k r v) = at_pos j r.
Proof.
  intros P N. pose proof (position_lt _ _ _ P) as L.
  unfold set_cell, at_pos.
  destruct (position k cols) as [i|] eqn:K; simpl.
  - rewrite nth_replace_other, nth_fit; auto.
    intros ->. apply position_nth in P, K. congruence.
  - rewrite app_nth1, nth_fit; auto. now rewrite fit_length.
Qed.

Lemma set_columns_incl (cols : list string) (k d : string) :
  In d cols -> In d (set_columns cols k).
Proof.
  unfold set_columns. destruct (position k cols); [easy|].
  intros H. apply in_or_app. now left.
Qed.

Lemma set_columns_has (cols : list string) (k : string) :
  In k (set_columns cols k).
Proof.
  destruct (set_columns_position cols k) as [i H]. eapply position_in; eauto.
Qed.

(** Attaching metadata keeps every column that was there, adds the
    metadata keys, and leaves alone a column that is not a metadata key. *)
Lemma attach_spec (meta : list (string * cell)) :
  forall df : DataFrame,
    (forall d, In d (columns df) -> In d (columns (attach df meta)))
    /\ (forall key, In key (map fst meta) -> In key (columns (attach df meta)))
    /\ (forall d j, position d (columns df) = Some j -> ~ In d (map fst meta) ->
          position d (columns (attach df meta)) = Some j
          /\ map (at_pos j) (rows (attach df meta)) = map (at_pos j) (rows df)).
Proof.
  induction meta as [|[k v] meta IH]; intros df; simpl.
  - repeat split; auto. intros key [].
  - destruct (IH (setitem_scalar df k v)) as (I1 & I2 & I3).
    split; [|split].
    + intros d Hd. apply I1. simpl. now apply set_columns_incl.
    + intros key [<- | Hk]; [|now apply I2].
      apply I1. simpl. apply set_columns_has.
    + intros d j P N.
      assert (d <> k) by (intros ->; apply N; now left).
      destruct (I3 d j) as [P' R'].
      * simpl. now apply set_columns_other.
      * intros X. apply N. now right.
      * split; [exact P'|]. rewrite R'. simpl. rewrite map_map.
        apply map_ext. intros r. now apply (set_cell_other _ k d).
Qed.

Lemma rename_one_keeps (m : list (string * string)) (x c : string) :
  forallb (fun kv => negb (String.eqb (fst kv) x) && negb (String.eqb (snd kv) x)) m
  = true ->
  String.eqb x (rename_one m c) = String.eqb x c.
Proof.
  unfold rename_one. induction m as [|[k v] m IH]; simpl; intros H; [reflexivity|].
  apply andb_true_iff in H as [Hkv Hm].
  apply andb_true_iff in Hkv as [Hk Hv]. simpl in *.
  destruct (String.eqb c k) eqn:E.
  - apply String.eqb_eq in E. subst c.
    rewrite (String.eqb_sym x v), (String.eqb_sym x k).
    now destruct (String.eqb v x), (String.eqb k x).
  - now apply IH.
Qed.

Lemma position_rename (m : list (string * string)) (x : string) (cols : list string) :
  forallb (fun kv => negb (String.eqb (fst kv) x) && negb (String.eqb (snd kv) x)) m
  = true ->
  position x (map (rename_one m) cols) = position x cols.
Proof.
  intros H. induction cols as [|c t IH]; simpl; [reflexivity|].
  now rewrite (rename_one_keeps m x c H), IH.
Qed.

(** A row the fill keeps is a row of the table that is not empty, with
    [compound_id] set to its own forward-filled identifier. *)
Lemma fill_compound_id_rows (df filled : DataFrame) (c : string) (series : list cell) :
  fill_compound_id df c = Ok filled ->
  getitem (dropna_all df) c = Ok series ->
  forall r, In r (rows filled) ->
    exists r1 v,
      In (r1, Some v) (combine (rows (dropna_all df)) (ffill series))
      /\ r = set_cell (columns df) "compound_id" r1 (Some v).
Proof.
  unfold fill_compound_id. intros H G. rewrite G in H. simpl in H.
  unfold dropna_subset in H. simpl in H.
  destruct (set_columns_position (columns df) "compound_id") as [ki K].
  rewrite K in H. inversion H; subst filled; clear H. simpl.
  intros r Hr. apply filter_In in Hr as [Hr Hv].
  apply in_map_iff in Hr as ([r1 x] & <- & Hin). simpl in *.
  rewrite (set_cell_at _ _ _ _ _ K) in Hv.
  destruct x as [v|]; [|discriminate]. now exists r1, v.
Qed.

Lemma range_index_cells_in (n : nat) (rs : list Row) (r : Row) :
  In r (range_index n (map cells rs)) -> exists r', In r' rs /\ cells r = cells r'.
Proof.
  intros H. apply (in_map cells) in H. rewrite range_index_cells in H.
  apply in_map_iff in H as (r' & E & H). eauto.
Qed.

End CleanerFacts.

(** C10: when the cleaner succeeds, its output has a column [compound_id]
    at the position the reducer gave it; the renaming table has no entry
    for it and no metadata key overwrites it, so it holds what the reducer
    put there: for each row, the forward-filled identifier of the source row
    the hit was taken from.  The renamed source columns and the metadata
    columns are in the output as well. *)
Theorem C10_compound_id_passes_through :
  forall (file_obj : FileObj) (filename : string) (out : DataFrame),
    clean_rpw_file file_obj filename = Ok out ->
    exists df_raw df_hits c series ki,
      load_libres_sheet file_obj filename = Ok df_raw
      /\ extract_top_hits df_raw = Ok df_hits
      /\ hd_error (compound_candidates df_raw) = Some c
      /\ Frame.getitem (Frame.dropna_all df_raw) c = Ok series
      /\ Frame.lookup rename_map "compound_id" = None
      /\ In "compound_id" (columns out)
      /\ Frame.position "compound_id" (columns df_hits) = Some ki
      /\ Frame.position "compound_id" (columns out) = Some ki
      /\ map (Frame.at_pos ki) (rows out) = map (Frame.at_pos ki) (rows df_hits)
      /\ (forall h, In h (rows df_hits) ->
            exists r1 v,
              In (r1, Some v)
                 (combine (rows (Frame.dropna_all df_raw)) (Frame.ffill series))
              /\ cells h
                 = cells (Frame.set_cell (columns df_raw) "compound_id" r1 (Some v))
              /\ Frame.at_pos ki h = Some v)
      /\ (forall d, In d (columns df_raw) ->
            In (Frame.rename_one rename_map d) (columns out))
      /\ (exists meta,
            extract_metadata_from_filename filename = Ok meta
            /\ forall key, In key (map fst (items meta)) -> In key (columns out)).
Proof.
  intros file_obj filename out H. unfold clean_rpw_file in H.
  destruct (load_libres_sheet file_obj filename) as [df_raw|] eqn:Ld;
    [|discriminate]. simpl in H.
  destruct (extract_top_hits df_raw) as [df_hits|] eqn:Ex; [|discriminate].
  simpl in H.
  destruct (extract_metadata_from_filename filename) as [parsed|] eqn:Pm;
    [|discriminate].
  simpl in H. inversion H as [Hout]; clear H.
  set (meta := items parsed) in *.
  pose proof Ex as Ex'.
  apply extract_top_hits_inv in Ex' as (c & others & filled & C & F & T).
  pose proof F as F'.
  apply fill_compound_id_inv in F' as (i & ki & series & P & G & Cols & K & Ids & _).
  apply top_rows_unfold in T as (ki' & qi & idx & picked & K' & Q & I & L & _ & Top).
  rewrite K in K'. inversion K'; subst ki'. clear K'.
  assert (Kh : Frame.position "compound_id" (columns df_hits) = Some ki)
    by (subst df_hits; exact K).
  assert (Kr : Frame.position "compound_id"
                 (columns (Frame.rename df_hits rename_map)) = Some ki).
  { simpl. rewrite position_rename; [exact Kh | reflexivity]. }
  destruct (attach_spec meta (Frame.rename df_hits rename_map)) as (A1 & A2 & A3).
  destruct (A3 "compound_id" ki Kr) as [Ko Ro].
  { unfold meta. simpl. intuition discriminate. }
  exists df_raw, df_hits, c, series, ki. rewrite C.
  repeat split; auto.
  - eapply position_in; eauto.
  - intros h Hh. subst df_hits. simpl in Hh.
    apply range_index_cells_in in Hh as (r' & Hr' & E).
    apply (Permutation_in _ (sort_by_perm _ picked)) in Hr'.
    apply (loc_rows_subset _ _ _ L) in Hr'.
    destruct (fill_compound_id_rows _ _ _ _ F G r' Hr') as (r1 & v & Hin & ->).
    exists r1, v. repeat split; auto.
    unfold Frame.at_pos. rewrite E.
    apply (set_cell_at (columns df_raw) "compound_id" r1 (Some v) ki).
    now rewrite <- Cols.
  - intros d Hd. apply A1. simpl. apply in_map. subst df_hits. simpl.
    rewrite Cols. now apply set_columns_incl.
  - exists parsed. split; [reflexivity | exact A2].
Qed.

(** ** Valid inputs *)

Section ValidFacts.

Import Frame.

Lemma idxmax_from_ok (group : list (nat * cell)) :
  (forall e, In e group -> is_text (snd e) = false) ->
  forall best, exists res, idxmax_from best group = Ok res.
Proof.
  induction group as [|[l c] t IH]; intros H best; simpl; [eauto|].
  assert (Ht : forall e, In e t -> is_text (snd e) = false)
    by (intros e He; apply H; now right).
  destruct c as [[q|x]|].
  - destruct best as [[bl bq]|]; [destruct (bq <? q)%Z|]; now apply IH.
  - specialize (H (l, Some (VStr x)) (or_introl eq_refl)). discriminate.
  - now apply IH.
Qed.

Lemma idxmax_from_no_text (group : list (nat * cell)) :
  forall best res,
    idxmax_from best group = Ok res ->
    forall e, In e group -> is_text (snd e) = false.
Proof.
  induction group as [|[l c] t IH]; intros best res H e He; [easy|].
  simpl in H. destruct c as [[q|x]|]; [ | discriminate | ].
  - destruct He as [<- | He]; [reflexivity|].
    destruct best as [[bl bq]|]; [destruct (bq <? q)%Z|]; eapply IH; eauto.
  - destruct He as [<- | He]; [reflexivity | eapply IH; eauto].
Qed.

Lemma homogeneous_of_pairwise (l : list value) :
  (forall x y, In x l -> In y l -> Value.same_kind x y = true) ->
  homogeneous l = true.
Proof.
  induction l as [|h t IH]; intros H; simpl; [reflexivity|].
  apply andb_true_iff. split.
  - apply forallb_forall. intros y Hy. apply H; [now left | now right].
  - apply IH. intros x y Hx Hy. apply H; now right.
Qed.

Lemma is_number_inv (c : cell) : is_number c = true -> exists q, c = Some (VNum q).
Proof. destruct c as [[q|x]|]; try discriminate. eauto. Qed.

(** Every group without a text and with a number gets the label of one
    of its rows. *)
Lemma idxmax_groups_ok (ki qi : nat) (rs : list Row) (keys : list value) :
  (forall r, In r rs -> is_text (at_pos qi r) = false) ->
  (forall k, In k keys ->
     existsb (fun r => has_key ki k r && is_number (at_pos qi r)) rs = true) ->
  exists idx,
    idxmax_groups ki qi rs keys = Ok idx
    /\ Forall (fun e => exists r, In r rs /\ snd e = Some (label r)) idx.
Proof.
  intros Htext. induction keys as [|k t IH]; intros Hnum; simpl.
  - eexists. split; [reflexivity | constructor].
  - destruct (idxmax_from_ok (group_of ki qi k rs)) with (best := @None (nat * Z))
      as [res E].
    { intros e He. unfold group_of in He. apply in_map_iff in He as (r & <- & Hr).
      apply filter_In in Hr as [Hr _]. now apply Htext. }
    fold (idxmax (group_of ki qi k rs)) in E. rewrite E. simpl.
    destruct IH as (rest & -> & F); [intros k' Hk'; apply Hnum; now right|].
    simpl. eexists. split; [reflexivity|]. constructor; [|exact F]. simpl.
    pose proof (idxmax_group_first_best _ _ _ _ _ E) as S.
    destruct res as [l|].
    + destruct S as (r & <- & before & after & q & -> & _).
      exists r. split; [|reflexivity]. apply in_or_app. right. now left.
    + exfalso. specialize (Hnum k (or_introl eq_refl)).
      apply existsb_exists in Hnum as (r & Hr & Hk).
      apply andb_true_iff in Hk as [Hk Hq].
      apply is_number_inv in Hq as [q Hq]. now apply (S r q).
Qed.

Lemma loc_rows_ok (rs : list Row) (idx : list (value * option nat)) :
  Forall (fun e => exists r, In r rs /\ snd e = Some (label r)) idx ->
  exists picked, loc_rows rs idx = Ok picked.
Proof.
  induction 1 as [|[k l] t (r & Hr & E) _ (rest & IH)]; simpl; [eauto|].
  simpl in E. subst l.
  destruct (filter (fun r' => Nat.eqb (label r') (label r)) rs) as [|x found] eqn:F.
  - exfalso. assert (I : In r []); [|easy].
    rewrite <- F. apply filter_In. split; [exact Hr | apply Nat.eqb_refl].
  - rewrite IH. simpl. eauto.
Qed.

Lemma picked_ids (ki : nat) (rs picked : list Row) (idx : list (value * option nat)) :
  loc_rows rs idx = Ok picked ->
  forall x, In x (notna (map (at_pos ki) picked)) ->
            In x (notna (map (at_pos ki) rs)).
Proof.
  intros L x Hx. apply notna_In in Hx. apply notna_In.
  apply in_map_iff in Hx as (r & E & Hr). rewrite <- E.
  apply in_map. eapply loc_rows_subset; eauto.
Qed.

(** A valid input is reduced to a table. *)
Lemma valid_input_reduces (df : DataFrame) :
  valid_input df = true -> exists top, extract_top_hits df = Ok top.
Proof.
  unfold valid_input, extract_top_hits.
  destruct (compound_candidates df) as [|c others]; [discriminate|].
  destruct (fill_compound_id df c) as [filled|]; [|discriminate].
  destruct (position "compound_id" (columns filled)) as [ki|] eqn:K; [|discriminate].
  destruct (position "Quality" (columns filled)) as [qi|] eqn:Q; [|discriminate].
  intros H. apply andb_true_iff in H as [H Hm].
  apply andb_true_iff in H as [Htext Hnum].
  rewrite forallb_forall in Htext, Hnum.
  simpl. unfold top_rows, groupby_idxmax. rewrite K, Q.
  destruct (idxmax_groups_ok ki qi (rows filled)
              (group_keys (map (at_pos ki) (rows filled)))) as (idx & I & F).
  { intros r Hr. specialize (Htext r Hr). now destruct (is_text (at_pos qi r)). }
  { intros k Hk. apply Hnum. now apply notna_In, group_keys_In. }
  rewrite I. simpl. unfold loc.
  destruct (loc_rows_ok _ _ F) as [picked L]. rewrite L. simpl.
  unfold sort_values. simpl. rewrite K.
  rewrite homogeneous_of_pairwise; [simpl; eauto|].
  intros x y Hx Hy. apply (homogeneous_same_kind _ Hm);
    eapply picked_ids; eauto.
Qed.

Lemma Forall2_In_l {A B} (R : A -> B -> Prop) (l : list A) (l' : list B) (x : A) :
  Forall2 R l l' -> In x l -> exists y, In y l' /\ R x y.
Proof.
  induction 1 as [|a b l l' Hab _ IH]; intros Hx; [easy|].
  destruct Hx as [<- | Hx].
  - exists b. split; [now left | exact Hab].
  - destruct (IH Hx) as (y & Hy & Hr). exists y. split; [now right | exact Hr].
Qed.

Lemma loc_rows_some (rs picked : list Row) (idx : list (value * option nat)) :
  loc_rows rs idx = Ok picked ->
  forall e, In e idx ->
    exists l, snd e = Some l
              /\ forall r, In r rs -> label r = l -> In r picked.
Proof.
  revert picked. induction idx as [|[k [l|]] t IH]; intros picked H e He; simpl in H.
  - elim He.
  - destruct (filter (fun r => Nat.eqb (label r) l) rs) as [|x found] eqn:F;
      [discriminate|].
    destruct (loc_rows rs t) as [rest|]; [|discriminate].
    simpl in H. inversion H; subst; clear H.
    destruct He as [<- | He].
    + exists l. split; [reflexivity|]. intros r Hr E.
      change (x :: (found ++ rest)%list) with ((x :: found) ++ rest)%list.
      apply in_or_app. left. rewrite <- F. apply filter_In.
      split; [exact Hr | now apply Nat.eqb_eq].
    + destruct (IH rest eq_refl e He) as (l' & E & Hl').
      exists l'. split; [exact E|]. intros r Hr El.
      change (x :: (found ++ rest)%list) with ((x :: found) ++ rest)%list.
      apply in_or_app. right. now apply Hl'.
  - discriminate.
Qed.

(** The top hit recorded for a key of a table the reducer succeeds on. *)
Lemma key_has_top_hit (ki qi : nat) (rs picked : list Row)
      (keys : list value) (idx : list (value * option nat)) (k : value) :
  idxmax_groups ki qi rs keys = Ok idx ->
  loc_rows rs idx = Ok picked ->
  In k keys ->
  (forall e, In e (group_of ki qi k rs) -> is_text (snd e) = false)
  /\ exists r, first_best ki qi rs k r /\ In r picked.
Proof.
  intros I L Hk. apply idxmax_groups_inv in I.
  destruct (Forall2_In_l _ _ _ _ I Hk) as (e & He & _ & E).
  split; [now apply (idxmax_from_no_text _ _ _ E)|].
  destruct (loc_rows_some _ _ _ L e He) as (l & El & Hl).
  rewrite El in E. apply idxmax_group_first_best in E as (r & Er & FB).
  exists r. split; [exact FB|]. apply Hl; [|exact Er].
  destruct FB as (before & after & q & -> & _).
  apply in_or_app. right. now left.
Qed.

(** In the embedding, where the reduction stops on a text quality, a
    table the reducer returns a table for is a valid input. *)
Lemma reduces_valid_input (df top : DataFrame) :
  extract_top_hits df = Ok top -> valid_input df = true.
Proof.
  intros H.
  apply extract_top_hits_inv in H as (c & others & filled & C & F & T).
  pose proof F as F'.
  apply fill_compound_id_inv in F' as (i & ki & series & P & G & Cols & K & Ids & _).
  apply top_rows_unfold in T as (ki' & qi & idx & picked & K' & Q & I & L & Hm & _).
  rewrite K in K'. inversion K'; subst ki'. clear K'.
  unfold valid_input. rewrite C, F, K, Q.
  assert (Hkey : forall k, In k (notna (map (at_pos ki) (rows filled))) ->
                           In k (group_keys (map (at_pos ki) (rows filled))))
    by (intros k Hk; now apply group_keys_In, notna_In).
  apply andb_true_iff. split; [apply andb_true_iff; split|].
  - apply forallb_forall. intros r Hr.
    assert (Hs : exists k, at_pos ki r = Some k).
    { pose proof (in_map (at_pos ki) _ _ Hr) as X. rewrite Ids in X.
      apply in_map_iff in X as (k & E & _). eauto. }
    destruct Hs as [k Ek].
    destruct (key_has_top_hit _ _ _ _ _ _ k I L) as [Ht _].
    { apply Hkey, notna_In. rewrite <- Ek. now apply in_map. }
    apply negb_true_iff. apply (Ht (label r, at_pos qi r)).
    unfold group_of. apply in_map_iff. exists r. split; [reflexivity|].
    apply filter_In. split; [exact Hr | now apply has_key_at].
  - apply forallb_forall. intros k Hk.
    destruct (key_has_top_hit _ _ _ _ _ _ k I L (Hkey k Hk))
      as (_ & r & (before & after & q & E & Kr & Qr & _) & _).
    apply existsb_exists. exists r. split.
    + rewrite E. apply in_or_app. right. now left.
    + now rewrite Kr, Qr.
  - apply homogeneous_of_pairwise.
    assert (Hp : forall k, In k (notna (map (at_pos ki) (rows filled))) ->
                           In k (notna (map (at_pos ki) picked))).
    { intros k Hk.
      destruct (key_has_top_hit _ _ _ _ _ _ k I L (Hkey k Hk))
        as (_ & r & (before & after & q & E & Kr & _) & Hr).
      apply notna_In. apply has_key_at in Kr. rewrite <- Kr. now apply in_map. }
    intros x y Hx Hy. apply (homogeneous_same_kind _ Hm); now apply Hp.
Qed.

(** C3: a valid sheet is reduced to a table, and the table has as many
    rows as there are distinct identifiers, null apart, in the
    forward-filled compound column of the rows that are not entirely
    empty.  Valid means: a compound column, a column [Quality] without
    text, a number as quality somewhere in every compound, identifiers all
    numbers or all texts; these are the sheets the reducer succeeds on. *)
Theorem C3_one_row_per_compound :
  forall s : Sheet,
    valid_input (of_sheet s) = true ->
    exists top c series,
      extract_top_hits (of_sheet s) = Ok top
      /\ hd_error (compound_candidates (of_sheet s)) = Some c
      /\ getitem (dropna_all (of_sheet s)) c = Ok series
      /\ List.length (rows top)
         = List.length (nodup Value.eq_dec (notna (ffill series))).
Proof.
  intros s V. destruct (valid_input_reduces _ V) as [top H].
  destruct (row_count_of_success s top H) as (c & series & ? & ? & ?).
  now exists top, c, series.
Qed.

(** C4: on a valid sheet the reducer returns a table in which the row of
    a compound is the first row of its group, in the order of the table,
    that holds the largest quality: the rows of the group above it have a
    smaller quality, those below none larger, and among the rows of the
    group with that same quality it has the lowest index.  No other row fits
    this description, so the choice is the same in every run. *)
Theorem C4_first_maximum_wins :
  forall s : Sheet,
    valid_input (of_sheet s) = true ->
    exists top c filled ki qi,
      extract_top_hits (of_sheet s) = Ok top
      /\ hd_error (compound_candidates (of_sheet s)) = Some c
      /\ fill_compound_id (of_sheet s) c = Ok filled
      /\ position "compound_id" (columns filled) = Some ki
      /\ position "Quality" (columns filled) = Some qi
      /\ forall k,
           In (Some k) (map (at_pos ki) (rows filled)) ->
           exists r0,
             first_best ki qi (rows filled) k r0
             /\ (forall r, In r (rows filled) -> has_key ki k r = true ->
                           at_pos qi r = at_pos qi r0 -> label r0 <= label r)
             /\ (forall r, first_best ki qi (rows filled) k r -> r = r0)
             /\ map cells (filter (has_key ki k) (rows top)) = [cells r0].
Proof.
  intros s V. destruct (valid_input_reduces _ V) as [top H].
  destruct (top_hit_of_success s top H) as (c & filled & ki & qi & ? & ? & ? & ? & ?).
  now exists top, c, filled, ki, qi.
Qed.

End ValidFacts.

(** ** The examples of the specification, and instances of the theorems *)

(** The failures of the reducer, each on a small table. *)

Example no_compound_column :
  extract_top_hits (Frame.of_sheet (mkSheet ["Hit Name"; "Quality"] [[None; Some (VNum 5)]]))
  = Raise (KeyError ["Hit Name"; "Quality"]).
Proof. reflexivity. Qed.

Example no_quality_column :
  extract_top_hits (Frame.of_sheet (mkSheet ["Compound"; "quality"]
                                            [[Some (VNum 1); Some (VNum 5)]]))
  = Raise (Propagated (PdKeyError "Quality")).
Proof. reflexivity. Qed.

Example compound_without_quality :
  extract_top_hits (Frame.of_sheet (mkSheet ["Compound"; "Quality"]
                                            [[Some (VNum 1); Some (VNum 5)];
                                             [Some (VNum 2); None]]))
  = Raise (Propagated (PdKeyError "nan")).
Proof. reflexivity. Qed.

Example mixed_identifiers :
  exists msg,
    extract_top_hits (Frame.of_sheet (mkSheet ["Compound"; "Quality"]
                                              [[Some (VNum 1); Some (VNum 5)];
                                               [Some (VStr "x"); Some (VNum 7)]]))
    = Raise (Propagated (PdTypeError msg)).
Proof. eexists. reflexivity. Qed.

Example sheet_not_found :
  load_libres_sheet
    (mkFileObj (fun _ => Ok (mkExcelFile ["IntRes"; "QRes"]
                                         (fun _ _ => Ok (mkSheet [] [])))))
    "Healthy_24h-char-1.xlsx"
  = Raise (ValueError ["IntRes"; "QRes"]).
Proof. reflexivity. Qed.

(** C1: on the sheet with the rows (1, 80), (null, 95), (2, 60) the
    forward fill gives the identifiers 1, 1, 2 and the reducer returns
    exactly two rows: compound 1 with quality 95, then compound 2 with
    quality 60. *)
Theorem C1_libres_example :
  (filled <- fill_compound_id (Frame.of_sheet libres_example) "Compound" ;;
   Frame.getitem filled "compound_id")
  = Ok [Some (VNum 1); Some (VNum 1); Some (VNum 2)]
  /\ extract_top_hits (Frame.of_sheet libres_example) = Ok libres_example_top
  /\ List.length (rows libres_example_top) = 2
  /\ Frame.getitem libres_example_top "compound_id"
     = Ok [Some (VNum 1); Some (VNum 2)]
  /\ Frame.getitem libres_example_top "Quality"
     = Ok [Some (VNum 95); Some (VNum 60)].
Proof. repeat split; reflexivity. Qed.

Lemma C3_witness :
  valid_input (Frame.of_sheet tie_example) = true
  /\ exists top c series,
       extract_top_hits (Frame.of_sheet tie_example) = Ok top
       /\ hd_error (compound_candidates (Frame.of_sheet tie_example)) = Some c
       /\ Frame.getitem (Frame.dropna_all (Frame.of_sheet tie_example)) c = Ok series
       /\ List.length (rows top)
          = List.length (nodup Value.eq_dec (Frame.notna (Frame.ffill series))).
Proof.
  split; [reflexivity|].
  apply (C3_one_row_per_compound tie_example). reflexivity.
Defined.

Lemma C4_witness :
  valid_input (Frame.of_sheet tie_example) = true
  /\ exists top c filled ki qi,
       extract_top_hits (Frame.of_sheet tie_example) = Ok top
       /\ hd_error (compound_candidates (Frame.of_sheet tie_example)) = Some c
       /\ fill_compound_id (Frame.of_sheet tie_example) c = Ok filled
       /\ Frame.position "compound_id" (columns filled) = Some ki
       /\ Frame.position "Quality" (columns filled) = Some qi
       /\ forall k,
            In (Some k) (map (Frame.at_pos ki) (rows filled)) ->
            exists r0,
              first_best ki qi (rows filled) k r0
              /\ (forall r, In r (rows filled) -> Frame.has_key ki k r = true ->
                            Frame.at_pos qi r = Frame.at_pos qi r0 ->
                            label r0 <= label r)
              /\ (forall r, first_best ki qi (rows filled) k r -> r = r0)
              /\ map cells (filter (Frame.has_key ki k) (rows top)) = [cells r0].
Proof.
  split; [reflexivity|].
  apply (C4_first_maximum_wins tie_example). reflexivity.
Defined.

Lemma C5_witness :
  opened example_file
    (if Str.endswith ".xls" (Str.lower "Healthy_24h-char-1.xls")
     then Some "xlrd" else None)
  = Ok example_workbook
  /\ find_libres (sheet_names example_workbook) = Some "LibRes"
  /\ load_libres_sheet example_file "Healthy_24h-char-1.xls"
     = Ok (Frame.of_sheet tie_example).
Proof.
  split; [reflexivity|].
  destruct (C5_sheet_lookup example_file "Healthy_24h-char-1.xls" example_workbook
              eq_refl) as (_ & _ & First).
  destruct (First ["IntRes"] "LibRes" ["QRes"; "CalCurve"] eq_refl eq_refl)
    as (Found & Loaded & _).
  - intros s [<- | []]. discriminate.
  - split; [exact Found | exact Loaded].
Defined.

Lemma C9_witness :
  Str.isascii "Healthy_24h-char-1.xlsx" = true
  /\ exists m, extract_metadata_from_filename "Healthy_24h-char-1.xlsx" = Ok m.
Proof.
  split; [reflexivity|].
  destruct (C9_parser_null_when_absent "Healthy_24h-char-1.xlsx" eq_refl)
    as (_ & _ & Short & _).
  apply Short. apply Nat.leb_le. reflexivity.
Defined.

Lemma C8_witness :
  extract_top_hits (Frame.of_sheet tie_example) = Ok tie_example_top
  /\ exists ki ids,
       Frame.position "compound_id" (columns tie_example_top) = Some ki
       /\ map (Frame.at_pos ki) (rows tie_example_top) = map Some ids
       /\ StronglySorted value_le ids
       /\ ((exists s, Frame.of_sheet tie_example = Frame.of_sheet s) ->
           StronglySorted Value.lt ids).
Proof.
  split; [reflexivity|].
  apply (C8_rows_ascending (Frame.of_sheet tie_example) tie_example_top).
  reflexivity.
Defined.

Lemma C10_witness :
  clean_rpw_file example_file "Infested_MASA_72h-dvb-3.xlsx" = Ok example_cleaned
  /\ In "compound_id" (columns example_cleaned)
  /\ Frame.position "compound_id" (columns example_cleaned) = Some 3.
Proof.
  split; [reflexivity|].
  destruct (C10_compound_id_passes_through example_file
              "Infested_MASA_72h-dvb-3.xlsx" example_cleaned eq_refl)
    as (df_raw & df_hits & c & series & ki & _ & _ & _ & _ & _ & Has & _).
  split; [exact Has | reflexivity].
Defined.

(* ===================================================================== *)
(** * Further properties of the code *)
(* ===================================================================== *)

(** ** Filename metadata parser *)

Section ParserMore.

Local Open Scope string_scope.

(** X1: in a record the parser returns the adsorbent is "char" exactly
    when the lowercased name contains "char", also when it contains "dvb"
    as well; it is "dvb" exactly when the name contains "dvb" and not
    "char"; it is never anything else. *)
Theorem X1_adsorbent_char_first :
  forall (filename : string) (m : SampleMetadata),
    extract_metadata_from_filename filename = Ok m ->
    let name := Str.lower filename in
    (adsorbent m = Some "char" <-> Pattern.occurs "char" name)
    /\ (adsorbent m = Some "dvb" <->
          ~ Pattern.occurs "char" name /\ Pattern.occurs "dvb" name)
    /\ (forall a, adsorbent m = Some a -> a = "char" \/ a = "dvb").
Proof.
  intros filename m H name.
  destruct (parser_fields _ _ H) as (_ & _ & Ad & _). fold name in Ad.
  rewrite Ad, <- !contains_occurs.
  destruct (Str.contains "char" name), (Str.contains "dvb" name);
    repeat split; try congruence; try tauto;
    try (intros [? ?]; congruence);
    try (intros a Ha; inversion Ha; auto).
Qed.

Lemma X1_witness :
  extract_metadata_from_filename "Run1_DVB_Char-2.xlsx"
  = Ok (mkMeta None None (Some "char") None "Run1_DVB_Char-2.xlsx")
  /\ Pattern.occurs "char" (Str.lower "Run1_DVB_Char-2.xlsx").
Proof.
  split; [reflexivity|].
  destruct (X1_adsorbent_char_first "Run1_DVB_Char-2.xlsx" _ eq_refl) as [[F _] _].
  apply F. reflexivity.
Defined.

(** X2: in a record the parser returns, a name that contains "infested"
    is classified as infested, also when it contains "healthy"; it is
    healthy only when "healthy" occurs and "infested" does not; "+masa" is
    appended exactly when "masa" occurs. *)
Theorem X2_group_infested_first :
  forall (filename : string) (m : SampleMetadata),
    extract_metadata_from_filename filename = Ok m ->
    let name := Str.lower filename in
    (group m = Some "infested" <->
       Pattern.occurs "infested" name /\ ~ Pattern.occurs "masa" name)
    /\ (group m = Some "infested+masa" <->
          Pattern.occurs "infested" name /\ Pattern.occurs "masa" name)
    /\ (group m = Some "healthy" <->
          Pattern.occurs "healthy" name /\ ~ Pattern.occurs "infested" name
          /\ ~ Pattern.occurs "masa" name)
    /\ (group m = Some "healthy+masa" <->
          Pattern.occurs "healthy" name /\ ~ Pattern.occurs "infested" name
          /\ Pattern.occurs "masa" name).
Proof.
  intros filename m H name.
  destruct (parser_fields _ _ H) as (_ & _ & _ & Gr & _). fold name in Gr.
  rewrite Gr, <- !contains_occurs.
  destruct (Str.contains "healthy" name), (Str.contains "infested" name),
    (Str.contains "masa" name); simpl;
    repeat split; try congruence; try tauto;
    try (intros [? ?]; congruence);
    try (intros (? & ? & ?); congruence).
Qed.

Lemma X2_witness :
  extract_metadata_from_filename "Healthy-vs-Infested_12h.xls"
  = Ok (mkMeta (Some "infested") (Some "12h") None None
               "Healthy-vs-Infested_12h.xls")
  /\ Pattern.occurs "infested" (Str.lower "Healthy-vs-Infested_12h.xls")
  /\ ~ Pattern.occurs "masa" (Str.lower "Healthy-vs-Infested_12h.xls").
Proof.
  split; [reflexivity|].
  destruct (X2_group_infested_first "Healthy-vs-Infested_12h.xls" _ eq_refl)
    as [[F _] _].
  apply F. reflexivity.
Defined.

Lemma match_time_at_none (s : string) :
  match_time_at s = None <-> ~ time_prefix s.
Proof.
  split.
  - intros H (d & w & post & -> & Hd & Hw).
    rewrite (match_time_at_complete d w post Hd Hw) in H. discriminate.
  - intros H. destruct (match_time_at s) as [d|] eqn:E; [|reflexivity].
    exfalso. apply H. apply match_time_at_inv in E as (w & post & ? & ? & ?).
    now exists d, w, post.
Qed.

(** The match [search_time] returns is the leftmost one. *)
Lemma search_time_leftmost (s d : string) :
  search_time s = Some d ->
  exists pre w post,
    s = pre ++ d ++ w ++ "h" ++ post
    /\ Pattern.digits d /\ Pattern.spaces w
    /\ forall p1 p2, pre = p1 ++ p2 -> p2 <> EmptyString ->
                     ~ time_prefix (p2 ++ d ++ w ++ "h" ++ post).
Proof.
  induction s as [|c s IH]; simpl; [discriminate|].
  destruct (match_time_at (String c s)) eqn:E.
  - intros H; inversion H; subst.
    apply match_time_at_inv in E as (w & post & E & Hd & Hw).
    exists EmptyString, w, post.
    split; [exact E|]. split; [exact Hd|]. split; [exact Hw|].
    intros p1 p2 H12 Hne. destruct p1; simpl in H12; [now subst | discriminate].
  - intros H. destruct (IH H) as (pre & w & post & -> & Hd & Hw & Left).
    exists (String c pre), w, post.
    split; [reflexivity|]. split; [exact Hd|]. split; [exact Hw|].
    intros p1 p2 H12 Hne. destruct p1 as [|c1 p1]; simpl in H12.
    + subst p2. now apply match_time_at_none.
    + inversion H12; subst. exact (Left p1 p2 eq_refl Hne).
Qed.

(** X3: a timepoint is the digits of the leftmost place of the lowercased
    name where digits, optional white space and "h" follow one another,
    with "h" appended; the digits are a whole number of the name, not the
    tail of a longer one (from "124h" the timepoint is "124h"). *)
Theorem X3_timepoint_whole_number :
  forall (filename : string) (m : SampleMetadata) (t : string),
    extract_metadata_from_filename filename = Ok m ->
    timepoint m = Some t ->
    exists pre d w post,
      Str.lower filename = pre ++ d ++ w ++ "h" ++ post
      /\ t = d ++ "h"
      /\ Pattern.digits d /\ Pattern.spaces w
      /\ no_digit_at_end pre
      /\ forall p1 p2, pre = p1 ++ p2 -> p2 <> EmptyString ->
                       ~ time_prefix (p2 ++ d ++ w ++ "h" ++ post).
Proof.
  intros filename m t Hm.
  destruct (parser_fields _ _ Hm) as (_ & Tp & _). rewrite Tp.
  destruct (search_time (Str.lower filename)) as [d|] eqn:E; [|discriminate].
  intros H; inversion H; subst t; clear H.
  destruct (search_time_leftmost _ _ E) as (pre & w & post & Es & Hd & Hw & Left).
  exists pre, d, w, post.
  split; [exact Es|]. split; [reflexivity|]. split; [exact Hd|].
  split; [exact Hw|]. split; [|exact Left].
  intros s' c -> .
  destruct (Str.is_digit c) eqn:Dc; [|reflexivity]. exfalso.
  apply (Left s' (String c EmptyString) eq_refl); [discriminate|].
  exists (String c d), w, post.
  split; [reflexivity|]. split; [|exact Hw].
  split; [discriminate|]. simpl. rewrite Dc. apply Hd.
Qed.

Lemma X3_witness :
  extract_metadata_from_filename "Run_124 H_dvb.xls"
  = Ok (mkMeta None (Some "124h") (Some "dvb") None "Run_124 H_dvb.xls")
  /\ exists pre d w post,
       Str.lower "Run_124 H_dvb.xls" = pre ++ d ++ w ++ "h" ++ post
       /\ "124h" = d ++ "h"
       /\ Pattern.digits d /\ Pattern.spaces w
       /\ no_digit_at_end pre
       /\ forall p1 p2, pre = p1 ++ p2 -> p2 <> EmptyString ->
                        ~ time_prefix (p2 ++ d ++ w ++ "h" ++ post).
Proof.
  split; [reflexivity|].
  apply (X3_timepoint_whole_number "Run_124 H_dvb.xls" _ "124h" eq_refl).
  reflexivity.
Defined.

End ParserMore.

Section SampleMore.

Local Open Scope string_scope.

Lemma string_app_assoc (a b c : string) : (a ++ b) ++ c = a ++ (b ++ c).
Proof. induction a as [|x a IH]; simpl; [reflexivity | now rewrite IH]. Qed.

Lemma span_stops (p : ascii -> bool) (b : string) :
  Str.span p b = (EmptyString, b) ->
  forall c s', b = String c s' -> p c = false.
Proof.
  intros H c s' ->. simpl in H. destruct (p c); [|reflexivity].
  destruct (Str.span p s'). discriminate.
Qed.

(** A match of the sample pattern at the start of [s] captures the whole
    run of digits. *)
Lemma match_sample_at_greedy (s d : string) :
  match_sample_at s = Some d ->
  exists tok post,
    s = "-" ++ tok ++ "-" ++ d ++ post
    /\ (tok = "char" \/ tok = "dvb") /\ Pattern.digits d
    /\ no_digit_at_start post.
Proof.
  unfold match_sample_at.
  destruct (strip_prefix "-" s) as [r|] eqn:H1; [|discriminate].
  apply strip_prefix_inv in H1; subst s.
  destruct (strip_prefix "char" r) as [r1|] eqn:Hc.
  - apply strip_prefix_inv in Hc; subst r.
    destruct (strip_prefix "-" r1) as [r2|] eqn:H2; [|discriminate].
    apply strip_prefix_inv in H2; subst r1.
    destruct (Str.span Str.is_digit r2) as [g rest] eqn:Hg. simpl fst.
    destruct g as [|c g]; [discriminate|].
    intros H; inversion H; subst d; clear H.
    apply span_inv in Hg as (-> & Hall & Hstop).
    exists "char", rest.
    split; [reflexivity|]. split; [now left|].
    split; [split; [discriminate | exact Hall]|].
    intros c' s' E. eapply span_stops; eauto.
  - destruct (strip_prefix "dvb" r) as [r1|] eqn:Hv; [|discriminate].
    apply strip_prefix_inv in Hv; subst r.
    destruct (strip_prefix "-" r1) as [r2|] eqn:H2; [|discriminate].
    apply strip_prefix_inv in H2; subst r1.
    destruct (Str.span Str.is_digit r2) as [g rest] eqn:Hg. simpl fst.
    destruct g as [|c g]; [discriminate|].
    intros H; inversion H; subst d; clear H.
    apply span_inv in Hg as (-> & Hall & Hstop).
    exists "dvb", rest.
    split; [reflexivity|]. split; [now right|].
    split; [split; [discriminate | exact Hall]|].
    intros c' s' E. eapply span_stops; eauto.
Qed.

Lemma match_sample_at_none (s : string) :
  match_sample_at s = None <-> ~ sample_prefix s.
Proof.
  split.
  - intros H (tok & d & post & -> & Ht & Hd).
    now apply (match_sample_at_complete tok d post Ht Hd).
  - intros H. destruct (match_sample_at s) as [d|] eqn:E; [|reflexivity].
    exfalso. apply H. apply match_sample_at_inv in E as (tok & post & ? & ? & ?).
    now exists tok, d, post.
Qed.

Lemma search_sample_leftmost (s d : string) :
  search_sample s = Some d ->
  exists pre tok post,
    s = pre ++ "-" ++ tok ++ "-" ++ d ++ post
    /\ (tok = "char" \/ tok = "dvb") /\ Pattern.digits d
    /\ no_digit_at_start post
    /\ forall p1 p2, pre = p1 ++ p2 -> p2 <> EmptyString ->
                     ~ sample_prefix (p2 ++ "-" ++ tok ++ "-" ++ d ++ post).
Proof.
  induction s as [|c s IH]; simpl; [discriminate|].
  destruct (match_sample_at (String c s)) eqn:E.
  - intros H; inversion H; subst.
    apply match_sample_at_greedy in E as (tok & post & E & Ht & Hd & Hp).
    exists EmptyString, tok, post.
    split; [exact E|]. split; [exact Ht|]. split; [exact Hd|].
    split; [exact Hp|].
    intros p1 p2 H12 Hne. destruct p1; simpl in H12; [now subst | discriminate].
  - intros H. destruct (IH H) as (pre & tok & post & -> & Ht & Hd & Hp & Left).
    exists (String c pre), tok, post.
    split; [reflexivity|]. split; [exact Ht|]. split; [exact Hd|].
    split; [exact Hp|].
    intros p1 p2 H12 Hne. destruct p1 as [|c1 p1]; simpl in H12.
    + subst p2. now apply match_sample_at_none.
    + inversion H12; subst. exact (Left p1 p2 eq_refl Hne).
Qed.

Lemma int_acc_nonneg (s : string) (acc : Z) :
  (0 <= acc)%Z -> (0 <= Str.int_acc acc s)%Z.
Proof.
  revert acc; induction s as [|c s IH]; intros acc H; cbn [Str.int_acc];
    [exact H|].
  apply IH. unfold Str.digit_val.
  pose proof (Nat2Z.is_nonneg (nat_of_ascii c - 48)). lia.
Qed.

(** X4: a sample number in a record the parser returns is [int] of the
    digits of the leftmost place of the lowercased name where a hyphen,
    "char" or "dvb", a hyphen and digits follow one another; all the
    digits of that run are taken, and they are at most 4300; the number is
    never negative; and a name with a sample number always has an
    adsorbent. *)
Theorem X4_sample_number :
  forall (filename : string) (m : SampleMetadata) (n : Z),
    extract_metadata_from_filename filename = Ok m ->
    sample m = Some n ->
    (0 <= n)%Z
    /\ adsorbent m <> None
    /\ exists pre tok d post,
         Str.lower filename = pre ++ "-" ++ tok ++ "-" ++ d ++ post
         /\ (tok = "char" \/ tok = "dvb")
         /\ Pattern.digits d /\ Str.int d = Ok n
         /\ (String.length d <= Str.int_max_str_digits)%nat
         /\ no_digit_at_start post
         /\ forall p1 p2, pre = p1 ++ p2 -> p2 <> EmptyString ->
                          ~ sample_prefix (p2 ++ "-" ++ tok ++ "-" ++ d ++ post).
Proof.
  intros filename m n Hm.
  destruct (parser_fields _ _ Hm) as (_ & _ & Ad & _ & Sa).
  set (name := Str.lower filename) in *.
  destruct (search_sample name) as [d|] eqn:E; [|rewrite Sa; discriminate].
  destruct Sa as (n' & I & ->). intros H; inversion H; subst n'; clear H.
  destruct (search_sample_leftmost _ _ E)
    as (pre & tok & post & Es & Ht & Hd & Hp & Left).
  assert (Len : (String.length d <= Str.int_max_str_digits)%nat).
  { destruct (Nat.le_gt_cases (String.length d) Str.int_max_str_digits) as [L|L];
      [exact L|].
    assert (R : Str.int d = Raise (IntValueError (String.length d)))
      by (apply int_raises; now split).
    congruence. }
  split.
  { rewrite (int_returns d Len) in I. inversion I. now apply int_acc_nonneg. }
  split.
  - assert (O : Pattern.occurs tok name).
    { exists (pre ++ "-"), ("-" ++ d ++ post). rewrite Es.
      now rewrite !string_app_assoc. }
    rewrite Ad.
    destruct Ht as [-> | ->]; apply contains_occurs in O; rewrite O.
    + discriminate.
    + destruct (Str.contains "char" name); discriminate.
  - exists pre, tok, d, post.
    split; [exact Es|]. split; [exact Ht|]. split; [exact Hd|].
    split; [exact I|]. split; [exact Len|]. split; [exact Hp | exact Left].
Qed.

Lemma X4_witness :
  extract_metadata_from_filename "Healthy_48h-DVB-012_rep.xlsx"
  = Ok (mkMeta (Some "healthy") (Some "48h") (Some "dvb") (Some 12%Z)
               "Healthy_48h-DVB-012_rep.xlsx")
  /\ (0 <= 12)%Z
  /\ Some "dvb" <> None.
Proof.
  split; [reflexivity|].
  destruct (X4_sample_number "Healthy_48h-DVB-012_rep.xlsx" _ 12%Z eq_refl eq_refl)
    as (Nonneg & Ads & _).
  split; [exact Nonneg | exact Ads].
Defined.

End SampleMore.

(** ** Sheet extractor *)

Section ExtractorMore.

Local Open Scope string_scope.

Lemma endswith_suffix (p s : string) :
  Str.endswith p s = true <-> exists pre, s = pre ++ p.
Proof.
  split.
  - induction s as [|c s IH]; simpl.
    + destruct (String.eqb p EmptyString) eqn:E; [|discriminate].
      apply String.eqb_eq in E. subst. intros _. now exists EmptyString.
    + destruct (String.eqb p (String c s)) eqn:E.
      * apply String.eqb_eq in E. subst. intros _. now exists EmptyString.
      * intros H. destruct (IH H) as [pre ->]. now exists (String c pre).
  - intros [pre ->]. induction pre as [|c pre IH].
    + change (EmptyString ++ p) with p.
      destruct p; cbn [Str.endswith]; now rewrite String.eqb_refl.
    + change (String c pre ++ p) with (String c (pre ++ p)).
      cbn [Str.endswith]. rewrite IH.
      now destruct (String.eqb p (String c (pre ++ p))).
Qed.

Lemma xlsx_is_not_xls (pre : string) :
  Str.endswith ".xls" (pre ++ ".xlsx") = false.
Proof.
  induction pre as [|c pre IH]; [reflexivity|].
  change (String c pre ++ ".xlsx") with (String c (pre ++ ".xlsx")).
  cbn [Str.endswith]. rewrite IH.
  destruct (String.eqb ".xls" (String c (pre ++ ".xlsx"))) eqn:E; [|reflexivity].
  apply String.eqb_eq in E. apply (f_equal String.length) in E.
  simpl in E. rewrite string_app_length in E. simpl in E. lia.
Qed.

(** X5: the legacy reader [xlrd] is asked for exactly when the lowercased
    file name ends in ".xls"; every other name, ".xlsx" among them, is
    opened with the reader pandas picks itself.  Nothing else of the name
    matters to the extractor. *)
Theorem X5_reader_by_extension :
  forall (file_obj : FileObj) (filename : string),
    ((exists pre, Str.lower filename = pre ++ ".xls") ->
       load_libres_sheet file_obj filename
       = load_libres_sheet (mkFileObj (fun _ => opened file_obj (Some "xlrd")))
                           EmptyString)
    /\ (~ (exists pre, Str.lower filename = pre ++ ".xls") ->
          load_libres_sheet file_obj filename
          = load_libres_sheet (mkFileObj (fun _ => opened file_obj None))
                              EmptyString)
    /\ ((exists pre, Str.lower filename = pre ++ ".xlsx") ->
          load_libres_sheet file_obj filename
          = load_libres_sheet (mkFileObj (fun _ => opened file_obj None))
                              EmptyString).
Proof.
  intros file_obj filename. unfold load_libres_sheet. simpl.
  split; [|split].
  - intros H. apply endswith_suffix in H. now rewrite H.
  - intros H. destruct (Str.endswith ".xls" (Str.lower filename)) eqn:E;
      [|reflexivity].
    apply endswith_suffix in E. contradiction.
  - intros [pre H]. now rewrite H, xlsx_is_not_xls.
Qed.

End ExtractorMore.

Section ExtractorShape.

Import Frame.

Lemma range_index_in (n : nat) (body : list (list cell)) (r : Row) :
  In r (range_index n body) -> In (cells r) body.
Proof.
  intros H. apply (in_map cells) in H. now rewrite range_index_cells in H.
Qed.

Lemma of_sheet_shape (s : Sheet) :
  columns (of_sheet s) = header s
  /\ rectangular (of_sheet s)
  /\ range_indexed (of_sheet s)
  /\ List.length (rows (of_sheet s)) = List.length (body s).
Proof.
  unfold rectangular, range_indexed, of_sheet. simpl.
  split; [reflexivity|]. split; [|split].
  - intros r Hr. apply range_index_in in Hr.
    apply in_map_iff in Hr as (cs & <- & _). apply fit_length.
  - now rewrite range_index_labels, range_index_length.
  - now rewrite range_index_length, length_map.
Qed.

(** X6: a table the extractor returns is always the sheet that
    [find_libres] picks, a sheet of the opened workbook whose name
    lowercases to "libres", read with header row 9 (index 8): its columns
    are the header names, it has one row per data row, every row has one
    cell per column and the index is 0, 1, 2, ... *)
Theorem X6_loaded_table :
  forall (file_obj : FileObj) (filename : string) (df : DataFrame),
    load_libres_sheet file_obj filename = Ok df ->
    exists engine xls name sheet,
      opened file_obj engine = Ok xls
      /\ find_libres (sheet_names xls) = Some name
      /\ In name (sheet_names xls)
      /\ Str.lower name = "libres"
      /\ parse xls name 8 = Ok sheet
      /\ df = of_sheet sheet
      /\ columns df = header sheet
      /\ List.length (rows df) = List.length (body sheet)
      /\ rectangular df
      /\ range_indexed df.
Proof.
  intros file_obj filename df. unfold load_libres_sheet.
  set (engine := if Str.endswith ".xls" (Str.lower filename)
                 then Some "xlrd" else None).
  destruct (opened file_obj engine) as [xls|] eqn:O; [|discriminate]. simpl.
  destruct (find_libres (sheet_names xls)) as [name|] eqn:F; [|discriminate].
  destruct (parse xls name 8) as [sheet|] eqn:P; [|discriminate]. simpl.
  intros H; inversion H; subst df; clear H.
  pose proof F as F'. unfold find_libres in F'. apply find_some in F' as [I L].
  apply String.eqb_eq in L.
  destruct (of_sheet_shape sheet) as (C & R & X & N).
  exists engine, xls, name, sheet. repeat split; auto.
Qed.

Lemma X6_witness :
  load_libres_sheet example_file "Healthy_24h-char-1.xls"
  = Ok (of_sheet tie_example)
  /\ rectangular (of_sheet tie_example)
  /\ range_indexed (of_sheet tie_example).
Proof.
  split; [reflexivity|].
  destruct (X6_loaded_table example_file "Healthy_24h-char-1.xls"
              (of_sheet tie_example) eq_refl)
    as (engine & xls & name & sheet & _ & _ & _ & _ & _ & _ & _ & _ & R & X).
  split; [exact R | exact X].
Defined.

End ExtractorShape.

(** ** Top-hit reducer *)

Section ReducerMore.

Import Frame.

Lemma position_absent (c : string) (cols : list string) :
  ~ In c cols -> position c cols = None.
Proof.
  induction cols as [|h t IH]; simpl; intros H; [reflexivity|].
  destruct (String.eqb c h) eqn:E.
  - apply String.eqb_eq in E. subst. elim H. now left.
  - rewrite IH; [reflexivity|]. intros I. apply H. now right.
Qed.

Lemma position_present (c : string) (cols : list string) :
  In c cols -> exists i, position c cols = Some i.
Proof.
  intros H. destruct (position c cols) as [i|] eqn:P; [eauto|].
  exfalso. revert H P. induction cols as [|h t IH]; simpl; [easy|].
  intros [-> | H]; [now rewrite String.eqb_refl|].
  destruct (String.eqb c h); [discriminate|].
  destruct (position c t); [discriminate | intros _; now apply IH].
Qed.

Lemma candidate_is_column (df : DataFrame) (c : string) (others : list string) :
  compound_candidates df = c :: others -> In c (columns df).
Proof.
  unfold compound_candidates. intros H.
  assert (I : In c (c :: others)) by now left.
  rewrite <- H in I. now apply filter_In in I.
Qed.

(** Lines 100-107 cannot fail once the compound column is a column. *)
Lemma fill_compound_id_ok (df : DataFrame) (c : string) :
  In c (columns df) ->
  exists filled ki,
    fill_compound_id df c = Ok filled
    /\ columns filled = set_columns (columns df) "compound_id"
    /\ position "compound_id" (columns filled) = Some ki.
Proof.
  intros H. destruct (position_present _ _ H) as [i P].
  unfold fill_compound_id, getitem. simpl. rewrite P. simpl.
  unfold dropna_subset. simpl.
  destruct (set_columns_position (columns df) "compound_id") as [ki K].
  rewrite K. eexists. exists ki. split; [reflexivity|]. now split.
Qed.

(** X7: a table with a compound column but without a column called
    exactly "Quality" makes the reducer fail with the [KeyError] pandas
    raises for the missing column, whatever the rows are; a column
    "quality" or "QUALITY" does not count. *)
Theorem X7_quality_column_required :
  forall (df : DataFrame) (c : string) (others : list string),
    compound_candidates df = c :: others ->
    ~ In "Quality" (columns df) ->
    extract_top_hits df = Raise (Propagated (PdKeyError "Quality")).
Proof.
  intros df c others C NQ. unfold extract_top_hits. rewrite C.
  destruct (fill_compound_id_ok df c (candidate_is_column _ _ _ C))
    as (filled & ki & -> & Cols & K).
  simpl. unfold top_rows, groupby_idxmax. rewrite K.
  rewrite position_absent; [reflexivity|].
  rewrite Cols. unfold set_columns.
  destruct (position "compound_id" (columns df)); [exact NQ|].
  intros I. apply in_app_or in I as [I | [I | []]]; [now apply NQ | discriminate].
Qed.

Lemma X7_witness :
  compound_candidates
    (of_sheet (mkSheet ["Compound"; "quality"] [[Some (VNum 1); Some (VNum 5)]]))
  = ["Compound"]
  /\ extract_top_hits
       (of_sheet (mkSheet ["Compound"; "quality"] [[Some (VNum 1); Some (VNum 5)]]))
     = Raise (Propagated (PdKeyError "Quality")).
Proof.
  split; [reflexivity|].
  apply (X7_quality_column_required _ "Compound" []); [reflexivity|].
  simpl. intros [H | [H | []]]; discriminate.
Defined.

Lemma ffill_from_values (v : value) (series : list cell) :
  forall last,
    In v (notna (ffill_from last series)) ->
    last = Some v \/ In (Some v) series.
Proof.
  induction series as [|c t IH]; intros last H; simpl in H; [easy|].
  destruct c as [x|]; simpl in H.
  - destruct H as [-> | H]; [right; now left|].
    destruct (IH _ H) as [E | I]; [inversion E; right; now left | right; now right].
  - destruct last as [x|]; simpl in H.
    + destruct H as [-> | H]; [now left|].
      destruct (IH _ H) as [E | I]; [now left | right; now right].
    + destruct (IH _ H) as [E | I]; [discriminate | right; now right].
Qed.

(** X8: when the compound column holds no identifier at all (no rows,
    empty rows only, or a column of blanks) and a column "Quality" exists,
    the reducer does not fail: it returns the table without rows, with the
    columns of the input and [compound_id]. *)
Theorem X8_no_identifier_no_rows :
  forall (df : DataFrame) (c : string) (others : list string) (series : list cell),
    compound_candidates df = c :: others ->
    In "Quality" (columns df) ->
    getitem (dropna_all df) c = Ok series ->
    (forall v, ~ In (Some v) series) ->
    extract_top_hits df = Ok (mkDF (set_columns (columns df) "compound_id") []).
Proof.
  intros df c others series C Q G Hnone. unfold extract_top_hits. rewrite C.
  destruct (fill_compound_id df c) as [filled|e] eqn:F.
  - destruct (fill_compound_id_inv _ _ _ F)
      as (i & ki & series' & P & G' & Cols & K & Ids & _).
    rewrite G in G'. inversion G'; subst series'. clear G'.
    assert (E : notna (ffill series) = []).
    { destruct (notna (ffill series)) as [|v l] eqn:N; [reflexivity|].
      exfalso. assert (I : In v (notna (ffill series))) by (rewrite N; now left).
      destruct (ffill_from_values v series None I) as [X | X];
        [discriminate | now apply (Hnone v)]. }
    rewrite E in Ids. simpl in Ids. apply map_eq_nil in Ids.
    destruct filled as [cols rs]. simpl in *. subst rs cols.
    destruct (position_present _ _ Q) as [j Pj].
    unfold top_rows, groupby_idxmax. simpl. rewrite K.
    rewrite (set_columns_other _ "compound_id" _ _ Pj). simpl.
    unfold sort_values. simpl. rewrite K. reflexivity.
  - destruct (fill_compound_id_ok df c (candidate_is_column _ _ _ C))
      as (filled & ki & F' & _). congruence.
Qed.

Lemma X8_witness :
  extract_top_hits
    (of_sheet (mkSheet ["Compound"; "Quality"] [[None; None]; [None; Some (VNum 7)]]))
  = Ok (mkDF ["Compound"; "Quality"; "compound_id"] []).
Proof.
  refine (X8_no_identifier_no_rows
            (of_sheet (mkSheet ["Compound"; "Quality"]
                               [[None; None]; [None; Some (VNum 7)]]))
            "Compound" [] [None] eq_refl _ eq_refl _).
  - simpl. auto.
  - intros v [H | []]. discriminate.
Defined.

End ReducerMore.

Section ReducerShape.

Import Frame.

Lemma replace_nth_width (i : nat) (v : cell) (cs : list cell) :
  List.length (replace_nth i v cs) = List.length cs.
Proof.
  revert i; induction cs as [|h t IH]; intros i; simpl; [reflexivity|].
  destruct i; simpl; [reflexivity | now rewrite IH].
Qed.

(** After [df[c] = ...] a row has one cell per column. *)
Lemma set_cell_width (cols : list string) (c : string) (r : Row) (v : cell) :
  List.length (cells (set_cell cols c r v)) = List.length (set_columns cols c).
Proof.
  unfold set_cell, set_columns. destruct (position c cols); simpl.
  - now rewrite replace_nth_width, fit_length.
  - rewrite !length_app, fit_length. reflexivity.
Qed.

Lemma in_combine_rows {A B} (l : list A) (l' : list B) (a : A) (b : B) :
  In (a, b) (combine l l') -> In a l.
Proof. apply in_combine_l. Qed.

(** The rows of the output are rows of the filled table. *)
Lemma top_rows_from_filled (filled top : DataFrame) (q : string) :
  top_rows filled q = Ok top ->
  columns top = columns filled
  /\ range_indexed top
  /\ forall h, In h (rows top) ->
       exists r, In r (rows filled) /\ cells h = cells r.
Proof.
  intros T.
  apply top_rows_unfold in T as (ki & qi & idx & picked & K & Q & I & L & _ & ->).
  simpl. split; [reflexivity|]. split.
  - unfold range_indexed. simpl.
    now rewrite range_index_labels, range_index_length.
  - intros h Hh. apply range_index_cells_in in Hh as (r & Hr & E).
    exists r. split; [|exact E].
    apply (loc_rows_subset _ _ _ L).
    eapply Permutation_in; [apply sort_by_perm | exact Hr].
Qed.

(** X9: the table the reducer returns has the columns of the input, in
    their order, followed by [compound_id] unless the input had a column
    of that name already; "Quality" is among them; every row has one cell
    per column and the index is 0, 1, 2, ... *)
Theorem X9_output_shape :
  forall (df top : DataFrame),
    extract_top_hits df = Ok top ->
    (In "compound_id" (columns df) -> columns top = columns df)
    /\ (~ In "compound_id" (columns df) ->
        columns top = columns df ++ ["compound_id"])
    /\ In "Quality" (columns top)
    /\ rectangular top
    /\ range_indexed top.
Proof.
  intros df top H.
  apply extract_top_hits_inv in H as (c & others & filled & C & F & T).
  pose proof F as F'.
  apply fill_compound_id_inv in F' as (i & ki & series & P & G & Cols & K & Ids & _).
  pose proof (top_rows_from_filled _ _ _ T) as (Ct & X & Sub).
  rewrite Ct, Cols. unfold set_columns.
  split; [|split; [|split; [|split]]].
  - intros I. destruct (position_present _ _ I) as [j ->]. reflexivity.
  - intros N. now rewrite (position_absent _ _ N).
  - apply top_rows_unfold in T as (? & qi & ? & ? & _ & Q & _).
    rewrite Cols in Q. eapply position_in; eauto.
  - intros h Hh. destruct (Sub h Hh) as (r & Hr & E).
    destruct (fill_compound_id_rows _ _ _ _ F G r Hr) as (r1 & v & _ & ->).
    rewrite E, Ct, Cols. apply set_cell_width.
  - exact X.
Qed.

Lemma X9_witness :
  extract_top_hits (of_sheet tie_example) = Ok tie_example_top
  /\ columns tie_example_top = columns (of_sheet tie_example) ++ ["compound_id"]
  /\ rectangular tie_example_top
  /\ range_indexed tie_example_top.
Proof.
  split; [reflexivity|].
  destruct (X9_output_shape (of_sheet tie_example) tie_example_top eq_refl)
    as (_ & New & _ & R & X).
  split; [|split; [exact R | exact X]].
  apply New. simpl. intros [H | [H | [H | []]]]; discriminate.
Defined.

(** X10: the reducer neither invents nor alters a measurement: every row
    of its output agrees, in every column of the input other than
    [compound_id], with one row of the input that is not entirely
    empty. *)
Theorem X10_rows_come_from_input :
  forall (df top : DataFrame),
    extract_top_hits df = Ok top ->
    forall h, In h (rows top) ->
      exists r,
        In r (rows df)
        /\ forallb isna (cells r) = false
        /\ forall d j, position d (columns df) = Some j -> d <> "compound_id" ->
                       at_pos j h = at_pos j r.
Proof.
  intros df top H h Hh.
  apply extract_top_hits_inv in H as (c & others & filled & C & F & T).
  pose proof F as F'.
  apply fill_compound_id_inv in F' as (i & ki & series & P & G & _).
  destruct (top_rows_from_filled _ _ _ T) as (_ & _ & Sub).
  destruct (Sub h Hh) as (r & Hr & E).
  destruct (fill_compound_id_rows _ _ _ _ F G r Hr) as (r1 & v & Hin & ->).
  apply in_combine_rows in Hin. simpl in Hin.
  apply filter_In in Hin as [Hin Hne].
  exists r1. split; [exact Hin|]. split; [now apply negb_true_iff|].
  intros d j Pd Nd. unfold at_pos at 1. rewrite E.
  now apply (set_cell_other (columns df) "compound_id" d).
Qed.

Lemma X10_witness :
  extract_top_hits (of_sheet tie_example) = Ok tie_example_top
  /\ forall h, In h (rows tie_example_top) ->
       exists r,
         In r (rows (of_sheet tie_example))
         /\ forallb isna (cells r) = false
         /\ forall d j,
              position d (columns (of_sheet tie_example)) = Some j ->
              d <> "compound_id" -> at_pos j h = at_pos j r.
Proof.
  split; [reflexivity|].
  apply (X10_rows_come_from_input (of_sheet tie_example) tie_example_top).
  reflexivity.
Defined.

End ReducerShape.

Section ReducerKeys.

Import Frame.

Lemma sort_by_sorted_id {A} (leb : A -> A -> bool) (l : list A) :
  Sorted (fun a b => leb a b = true) l -> sort_by leb l = l.
Proof.
  induction 1 as [|x t St IH Hd]; [reflexivity|].
  unfold sort_by in *. simpl. rewrite IH.
  destruct Hd as [|y t' Hxy]; simpl; [reflexivity | now rewrite Hxy].
Qed.

Lemma filter_twice {A} (p : A -> bool) (l : list A) :
  filter p (filter p l) = filter p l.
Proof.
  induction l as [|x t IH]; simpl; [reflexivity|].
  destruct (p x) eqn:E; simpl; [now rewrite E, IH | exact IH].
Qed.

Lemma uniques_repeat (a : value) (l : list value) :
  uniques (a :: a :: l) = uniques (a :: l).
Proof.
  simpl. rewrite value_eqb_refl. simpl. now rewrite filter_twice.
Qed.

Lemma uniques_ffill_from (series : list cell) :
  forall a, uniques (a :: notna (ffill_from (Some a) series))
            = uniques (a :: notna series).
Proof.
  induction series as [|c t IH]; intros a; [reflexivity|].
  destruct c as [v|].
  - change (notna (ffill_from (Some a) (Some v :: t)))
      with (v :: notna (ffill_from (Some v) t)).
    change (notna (Some v :: t)) with (v :: notna t).
    change (uniques (a :: v :: notna (ffill_from (Some v) t)))
      with (a :: filter (fun y => negb (Value.eqb a y))
                        (uniques (v :: notna (ffill_from (Some v) t)))).
    now rewrite IH.
  - change (notna (ffill_from (Some a) (None :: t)))
      with (a :: notna (ffill_from (Some a) t)).
    change (notna (None :: t)) with (notna t).
    now rewrite uniques_repeat, IH.
Qed.

(** Forward fill brings no new identifier and loses none. *)
Lemma uniques_ffill (series : list cell) :
  uniques (notna (ffill series)) = uniques (notna series).
Proof.
  unfold ffill. induction series as [|c t IH]; [reflexivity|].
  destruct c as [v|]; [|exact IH].
  change (notna (ffill_from None (Some v :: t)))
    with (v :: notna (ffill_from (Some v) t)).
  apply uniques_ffill_from.
Qed.

Lemma all_na_at (i : nat) (cs : list cell) :
  forallb isna cs = true -> nth i cs None = None.
Proof.
  revert i; induction cs as [|c t IH]; intros i H; [now destruct i|].
  simpl in H. apply andb_true_iff in H as [Hc Ht].
  destruct i; simpl; [now destruct c | now apply IH].
Qed.

(** An empty row has no identifier. *)
Lemma notna_dropna (i : nat) (rs : list Row) :
  notna (map (at_pos i) (filter (fun r => negb (forallb isna (cells r))) rs))
  = notna (map (at_pos i) rs).
Proof.
  induction rs as [|r t IH]; [reflexivity|]. simpl.
  destruct (forallb isna (cells r)) eqn:E; simpl.
  - unfold at_pos at 2. now rewrite (all_na_at i _ E).
  - destruct (at_pos i r); simpl; now rewrite IH.
Qed.

Lemma keys_sorted_rows (ki : nat) (rs : list Row) (keys : list value) :
  map (at_pos ki) rs = map Some keys ->
  Sorted (fun a b => Value.leb a b = true) keys ->
  Sorted (fun a b => cell_leb (at_pos ki a) (at_pos ki b) = true) rs.
Proof.
  revert keys; induction rs as [|r t IH]; intros keys E S; [constructor|].
  destruct keys as [|k keys]; [discriminate|]. simpl in E.
  inversion E as [[Er Et]]. inversion S as [|? ? St Hd]; subst.
  constructor; [now apply (IH keys)|].
  destruct t as [|r' t']; [constructor|].
  destruct keys as [|k' keys']; [discriminate|]. simpl in Et.
  injection Et as Er' _. constructor.
  rewrite Er, Er'. simpl. now inversion Hd.
Qed.

(** The identifiers of the output of a sheet are the group keys of its
    compound column. *)
Lemma top_ids_of_sheet :
  forall (s : Sheet) (top : DataFrame),
    extract_top_hits (of_sheet s) = Ok top ->
    exists c raw ki,
      hd_error (compound_candidates (of_sheet s)) = Some c
      /\ getitem (of_sheet s) c = Ok raw
      /\ position "compound_id" (columns top) = Some ki
      /\ map (at_pos ki) (rows top) = map Some (group_keys raw)
      /\ NoDup (group_keys raw)
      /\ forall k, In (Some k) (map (at_pos ki) (rows top)) <-> In (Some k) raw.
Proof.
  intros s top H.
  pose proof (of_sheet_increasing s) as Inc0.
  remember (of_sheet s) as df eqn:Edf. clear Edf.
  apply extract_top_hits_inv in H as (c & others & filled & C & F & T).
  apply fill_compound_id_inv in F as (i & ki & series & P & G & Cols & K & Ids & Inc).
  apply top_rows_unfold in T as (ki' & qi & idx & picked & K' & Q & I & L & _ & ->).
  rewrite K in K'. inversion K'; subst ki'. clear K'.
  pose proof (picked_first_best _ _ _ _ _ _ (Inc Inc0) I L) as FB.
  apply first_best_keys in FB.
  unfold getitem in G. cbn [columns rows dropna_all] in G. rewrite P in G.
  inversion G as [Gs]. clear G.
  assert (Keys : group_keys (map (at_pos ki) (rows filled))
                 = group_keys (map (at_pos i) (rows df))).
  { unfold group_keys. rewrite Ids, notna_map_Some, <- Gs.
    now rewrite uniques_ffill, notna_dropna. }
  rewrite Keys in FB.
  exists c, (map (at_pos i) (rows df)), ki. rewrite C.
  unfold getitem. rewrite P. cbn [columns rows].
  assert (Ids' : map (at_pos ki)
                     (range_index 0
                        (map cells
                           (sort_by (fun a b => cell_leb (at_pos ki a) (at_pos ki b))
                                    picked)))
                 = map Some (group_keys (map (at_pos i) (rows df)))).
  { rewrite range_index_at_pos, sort_by_sorted_id; [exact FB|].
    eapply keys_sorted_rows; [exact FB|].
    apply sort_by_sorted. apply value_leb_total. }
  repeat split; auto.
  - apply group_keys_NoDup.
  - rewrite Ids'. intros Hk. apply in_map_iff in Hk as (k' & E & Hk).
    inversion E; subst k'. now apply group_keys_In.
  - rewrite Ids'. intros Hk. apply in_map. now apply group_keys_In.
Qed.

(** X11: on a sheet the reducer succeeds on, the [compound_id] column of
    the output lists, in ascending order and once each, exactly the
    identifiers that occur in the compound column of the sheet: no compound
    is lost, none is made up by the forward fill. *)
Theorem X11_one_row_for_each_identifier :
  forall (s : Sheet) (top : DataFrame),
    extract_top_hits (of_sheet s) = Ok top ->
    exists c raw ki,
      hd_error (compound_candidates (of_sheet s)) = Some c
      /\ getitem (of_sheet s) c = Ok raw
      /\ position "compound_id" (columns top) = Some ki
      /\ map (at_pos ki) (rows top) = map Some (group_keys raw)
      /\ NoDup (group_keys raw)
      /\ forall k, In (Some k) (map (at_pos ki) (rows top)) <-> In (Some k) raw.
Proof. exact top_ids_of_sheet. Qed.

Lemma X11_witness :
  extract_top_hits (of_sheet tie_example) = Ok tie_example_top
  /\ getitem tie_example_top "compound_id" = Ok [Some (VNum 3); Some (VNum 7)]
  /\ exists c raw ki,
       hd_error (compound_candidates (of_sheet tie_example)) = Some c
       /\ getitem (of_sheet tie_example) c = Ok raw
       /\ position "compound_id" (columns tie_example_top) = Some ki
       /\ map (at_pos ki) (rows tie_example_top) = map Some (group_keys raw)
       /\ NoDup (group_keys raw)
       /\ forall k, In (Some k) (map (at_pos ki) (rows tie_example_top))
                    <-> In (Some k) raw.
Proof.
  split; [reflexivity|]. split; [reflexivity|].
  apply (X11_one_row_for_each_identifier tie_example tie_example_top).
  reflexivity.
Defined.

End ReducerKeys.

Section FfillMore.

Import Frame.

Lemma ffill_from_nth (series : list cell) :
  forall (last : cell) (i : nat) (v : value),
    nth i (ffill_from last series) None = Some v <->
    i < List.length series
    /\ ((exists j, j <= i /\ nth j series None = Some v
                   /\ forall m, j < m <= i -> nth m series None = None)
        \/ (last = Some v /\ forall m, m <= i -> nth m series None = None)).
Proof.
  induction series as [|c t IH]; intros last i v.
  - simpl. split; [now destruct i | intros [H _]; lia].
  - destruct i as [|i].
    + (* the first cell *)
      destruct c as [x|]; simpl.
      * split.
        -- intros H. split; [lia|]. left. exists 0.
           split; [lia|]. split; [exact H|]. intros m Hm; lia.
        -- intros [_ [(j & Hj & Hv & _) | (_ & Hn)]].
           ++ assert (j = 0) by lia. now subst.
           ++ specialize (Hn 0 (le_n 0)). discriminate.
      * split.
        -- intros H. split; [lia|]. right. split; [exact H|].
           intros m Hm. assert (m = 0) by lia. now subst.
        -- intros [_ [(j & Hj & Hv & _) | (H & _)]]; [|exact H].
           assert (j = 0) by lia. subst. discriminate.
    + (* a later cell *)
      set (last' := match c with Some x => Some x | None => last end).
      assert (E : nth (S i) (ffill_from last (c :: t)) None
                  = nth i (ffill_from last' t) None)
        by (unfold last'; now destruct c).
      rewrite E, IH. simpl List.length. split.
      * intros [Hi [(j & Hj & Hv & Hn) | (Hl & Hn)]].
        -- split; [lia|]. left. exists (S j). split; [lia|]. split; [exact Hv|].
           intros m Hm. destruct m as [|m]; [lia|]. apply Hn. lia.
        -- split; [lia|]. unfold last' in Hl. destruct c as [x|].
           ++ left. exists 0. split; [lia|]. split; [exact Hl|].
              intros m Hm. destruct m as [|m]; [lia|]. apply Hn. lia.
           ++ right. split; [exact Hl|].
              intros m Hm. destruct m as [|m]; [reflexivity|]. apply Hn. lia.
      * intros [Hi [(j & Hj & Hv & Hn) | (Hl & Hn)]].
        -- split; [lia|]. destruct j as [|j].
           ++ right. simpl in Hv. unfold last'. rewrite Hv. split; [reflexivity|].
              intros m Hm. apply (Hn (S m)). lia.
           ++ left. exists j. split; [lia|]. split; [exact Hv|].
              intros m Hm. apply (Hn (S m)). lia.
        -- split; [lia|]. right.
           pose proof (Hn 0 (Nat.le_0_l _)) as H0. simpl in H0.
           unfold last'. rewrite H0. split; [exact Hl|].
           intros m Hm. apply (Hn (S m)). lia.
Qed.

(** X12: after the forward fill a cell holds [v] exactly when [v] stands
    in the column at that place or above it with only blanks in between:
    a blank takes the nearest value above it, a value is never changed, and
    blanks above the first value stay blank.  The column keeps its
    length. *)
Theorem X12_ffill_nearest_above :
  forall (series : list cell),
    List.length (ffill series) = List.length series
    /\ forall (i : nat) (v : value),
         nth i (ffill series) None = Some v <->
         i < List.length series
         /\ exists j, j <= i /\ nth j series None = Some v
                      /\ forall m, j < m <= i -> nth m series None = None.
Proof.
  intros series. split; [apply ffill_from_length|].
  intros i v. unfold ffill. rewrite ffill_from_nth. split.
  - intros [Hi [H | [H _]]]; [now split | discriminate].
  - intros [Hi H]. split; [exact Hi | now left].
Qed.

End FfillMore.

Section BlankRows.

Import Frame.

Lemma same_cells_length (rs rs' : list Row) :
  map cells rs = map cells rs' -> List.length rs = List.length rs'.
Proof. intros H. apply (f_equal (@List.length _)) in H. now rewrite !length_map in H. Qed.

Lemma same_cells_filter (p : Row -> bool) (rs rs' : list Row) :
  (forall a b, cells a = cells b -> p a = p b) ->
  map cells rs = map cells rs' ->
  map cells (filter p rs) = map cells (filter p rs').
Proof.
  intros Hp. revert rs'; induction rs as [|r t IH]; intros rs' H;
    destruct rs' as [|r' t']; try discriminate; [reflexivity|].
  simpl in H. injection H as Hr Ht. simpl. rewrite (Hp r r' Hr).
  destruct (p r'); simpl; [rewrite Hr; f_equal|]; now apply IH.
Qed.

Lemma same_cells_map (f : Row -> cell) (rs rs' : list Row) :
  (forall a b, cells a = cells b -> f a = f b) ->
  map cells rs = map cells rs' -> map f rs = map f rs'.
Proof.
  intros Hf. revert rs'; induction rs as [|r t IH]; intros rs' H;
    destruct rs' as [|r' t']; try discriminate; [reflexivity|].
  simpl in H. injection H as Hr Ht. simpl. rewrite (Hf r r' Hr). f_equal.
  now apply IH.
Qed.

Lemma same_cells_forallb (p : Row -> bool) (rs rs' : list Row) :
  (forall a b, cells a = cells b -> p a = p b) ->
  map cells rs = map cells rs' -> forallb p rs = forallb p rs'.
Proof.
  intros Hp. revert rs'; induction rs as [|r t IH]; intros rs' H;
    destruct rs' as [|r' t']; try discriminate; [reflexivity|].
  simpl in H. injection H as Hr Ht. simpl. rewrite (Hp r r' Hr). f_equal.
  now apply IH.
Qed.

Lemma same_cells_existsb (p : Row -> bool) (rs rs' : list Row) :
  (forall a b, cells a = cells b -> p a = p b) ->
  map cells rs = map cells rs' -> existsb p rs = existsb p rs'.
Proof.
  intros Hp. revert rs'; induction rs as [|r t IH]; intros rs' H;
    destruct rs' as [|r' t']; try discriminate; [reflexivity|].
  simpl in H. injection H as Hr Ht. simpl. rewrite (Hp r r' Hr). f_equal.
  now apply IH.
Qed.

Lemma at_pos_cells (i : nat) (a b : Row) : cells a = cells b -> at_pos i a = at_pos i b.
Proof. unfold at_pos. now intros ->. Qed.

Lemma same_cells_set (cols : list string) (c : string) (rs rs' : list Row)
      (vals : list cell) :
  map cells rs = map cells rs' ->
  map cells (map (fun rv => set_cell cols c (fst rv) (snd rv)) (combine rs vals))
  = map cells (map (fun rv => set_cell cols c (fst rv) (snd rv)) (combine rs' vals)).
Proof.
  revert rs' vals; induction rs as [|r t IH]; intros rs' vals H;
    destruct rs' as [|r' t']; try discriminate; [reflexivity|].
  simpl in H. injection H as Hr Ht.
  destruct vals as [|v vals]; [reflexivity|]. simpl.
  rewrite (IH t' vals Ht). f_equal.
  unfold set_cell. rewrite Hr. now destruct (position c cols).
Qed.

(** Lines 100-107 see the rows only through their cells. *)
Lemma fill_same_cells (df df' filled filled' : DataFrame) (c : string) :
  columns df = columns df' ->
  map cells (rows (dropna_all df)) = map cells (rows (dropna_all df')) ->
  fill_compound_id df c = Ok filled ->
  fill_compound_id df' c = Ok filled' ->
  columns filled = columns filled'
  /\ map cells (rows filled) = map cells (rows filled').
Proof.
  intros Hc Hr. unfold fill_compound_id, getitem.
  cbn [columns dropna_all]. rewrite <- Hc.
  destruct (position c (columns df)) as [i|]; [|discriminate]. simpl.
  unfold dropna_subset, setitem. cbn [columns rows dropna_all]. rewrite <- Hc.
  destruct (position "compound_id" (set_columns (columns df) "compound_id"))
    as [ki|]; [|discriminate].
  intros H H'. inversion H; inversion H'; subst; clear H H'. simpl.
  split; [reflexivity|].
  simpl in Hr.
  set (rs := filter (fun r => negb (forallb isna (cells r))) (rows df)) in *.
  set (rs' := filter (fun r => negb (forallb isna (cells r))) (rows df')) in *.
  rewrite (same_cells_map (at_pos i) rs rs' (at_pos_cells i) Hr).
  apply same_cells_filter.
  - intros a b E. now rewrite (at_pos_cells ki a b E).
  - now apply same_cells_set.
Qed.

(** Two tables with the same cells have the same top hit for a key. *)
Lemma first_best_same_cells (ki qi : nat) (rs rs' : list Row) (k : value) (r r' : Row) :
  map cells rs = map cells rs' ->
  first_best ki qi rs k r -> first_best ki qi rs' k r' -> cells r = cells r'.
Proof.
  intros E (b & a & q & Es & Kr & Qr & Bb & Aa)
           (b' & a' & q' & Es' & Kr' & Qr' & Bb' & Aa').
  pose proof (same_cells_length _ _ E) as Len.
  rewrite Es, Es', !length_app in Len. simpl in Len.
  assert (Nth : forall n, nth n (map cells rs) [] = nth n (map cells rs') [])
    by (intros n; now rewrite E).
  destruct (Nat.lt_trichotomy (List.length b) (List.length b')) as [L | [L | L]].
  - exfalso.
    (* the row of rs' where r stands in rs lies above r' *)
    set (x := nth (List.length b) b' r').
    assert (Ix : In x b') by (apply nth_In; exact L).
    assert (Cx : cells x = cells r).
    { specialize (Nth (List.length b)). rewrite Es, Es' in Nth.
      rewrite !map_app in Nth. simpl in Nth.
      rewrite (app_nth2 (map cells b)) in Nth; rewrite length_map in *; [|lia].
      rewrite Nat.sub_diag in Nth. simpl in Nth.
      rewrite app_nth1 in Nth by (rewrite length_map; exact L).
      rewrite (nth_indep _ [] (cells r')) in Nth by (rewrite length_map; exact L).
      rewrite map_nth in Nth. symmetry. exact Nth. }
    assert (Q1 : (q < q')%Z).
    { apply (Bb' x q Ix).
      - now rewrite (has_key_cells ki k x r Cx).
      - now rewrite (at_pos_cells qi x r Cx). }
    (* the row of rs where r' stands in rs' lies below r *)
    set (n := List.length b' - List.length b - 1).
    set (y := nth n a r).
    assert (Iy : In y a) by (apply nth_In; unfold n; lia).
    assert (Cy : cells y = cells r').
    { specialize (Nth (List.length b')). rewrite Es, Es' in Nth.
      rewrite !map_app in Nth. simpl in Nth.
      rewrite (app_nth2 (map cells b')) in Nth; rewrite !length_map in *; [|lia].
      rewrite Nat.sub_diag in Nth. simpl in Nth.
      rewrite app_nth2 in Nth by (rewrite length_map; lia).
      rewrite length_map in Nth.
      replace (List.length b' - List.length b) with (S n) in Nth by (unfold n; lia).
      simpl in Nth.
      rewrite (nth_indep _ [] (cells r)) in Nth by (rewrite length_map; unfold n; lia).
      rewrite map_nth in Nth. exact Nth. }
    assert (Q2 : (q' <= q)%Z).
    { apply (Aa y q' Iy).
      - now rewrite (has_key_cells ki k y r' Cy).
      - now rewrite (at_pos_cells qi y r' Cy). }
    lia.
  - specialize (Nth (List.length b)). rewrite Es, Es' in Nth.
    rewrite !map_app in Nth. simpl in Nth.
    rewrite (app_nth2 (map cells b)) in Nth by (rewrite length_map; lia).
    rewrite (app_nth2 (map cells b')) in Nth by (rewrite length_map; lia).
    rewrite !length_map, <- L, Nat.sub_diag in Nth. exact Nth.
  - exfalso.
    set (x := nth (List.length b') b r).
    assert (Ix : In x b) by (apply nth_In; exact L).
    assert (Cx : cells x = cells r').
    { specialize (Nth (List.length b')). rewrite Es, Es' in Nth.
      rewrite !map_app in Nth. simpl in Nth.
      rewrite (app_nth2 (map cells b')) in Nth; rewrite length_map in *; [|lia].
      rewrite Nat.sub_diag in Nth. simpl in Nth.
      rewrite app_nth1 in Nth by (rewrite length_map; exact L).
      rewrite (nth_indep _ [] (cells r)) in Nth by (rewrite length_map; exact L).
      rewrite map_nth in Nth. exact Nth. }
    assert (Q1 : (q' < q)%Z).
    { apply (Bb x q' Ix).
      - now rewrite (has_key_cells ki k x r' Cx).
      - now rewrite (at_pos_cells qi x r' Cx). }
    set (n := List.length b - List.length b' - 1).
    set (y := nth n a' r').
    assert (Iy : In y a') by (apply nth_In; unfold n; lia).
    assert (Cy : cells y = cells r).
    { specialize (Nth (List.length b)). rewrite Es, Es' in Nth.
      rewrite !map_app in Nth. simpl in Nth.
      rewrite (app_nth2 (map cells b)) in Nth; rewrite !length_map in *; [|lia].
      rewrite Nat.sub_diag in Nth. simpl in Nth.
      rewrite app_nth2 in Nth by (rewrite length_map; lia).
      rewrite length_map in Nth.
      replace (List.length b - List.length b') with (S n) in Nth by (unfold n; lia).
      simpl in Nth.
      rewrite (nth_indep _ [] (cells r')) in Nth by (rewrite length_map; unfold n; lia).
      rewrite map_nth in Nth. symmetry. exact Nth. }
    assert (Q2 : (q <= q')%Z).
    { apply (Aa' y q Iy).
      - now rewrite (has_key_cells ki k y r Cy).
      - now rewrite (at_pos_cells qi y r Cy). }
    lia.
Qed.

End BlankRows.

Section BlankRowsResult.

Import Frame.

Lemma fill_needs_column (df filled : DataFrame) (c : string) :
  fill_compound_id df c = Ok filled -> In c (columns df).
Proof.
  intros F. apply fill_compound_id_inv in F as (i & ? & ? & P & _).
  eapply position_in; eauto.
Qed.

Lemma forallb_same {A} (f g : A -> bool) (l : list A) :
  (forall x, f x = g x) -> forallb f l = forallb g l.
Proof.
  intros H. induction l as [|x t IH]; simpl; [reflexivity | now rewrite H, IH].
Qed.

(** Whether a table is a valid input depends on its rows through the
    cells of the rows that are not empty only. *)
Lemma valid_same_cells (df df' : DataFrame) :
  columns df = columns df' ->
  map cells (rows (dropna_all df)) = map cells (rows (dropna_all df')) ->
  valid_input df = valid_input df'.
Proof.
  intros Hc Hr. unfold valid_input.
  assert (Cc : compound_candidates df = compound_candidates df')
    by (unfold compound_candidates; now rewrite Hc).
  rewrite <- Cc. destruct (compound_candidates df) as [|c others]; [reflexivity|].
  destruct (fill_compound_id df c) as [filled|e] eqn:F;
    destruct (fill_compound_id df' c) as [filled'|e'] eqn:F'.
  - destruct (fill_same_cells _ _ _ _ _ Hc Hr F F') as [Cf Rf].
    rewrite <- Cf.
    destruct (position "compound_id" (columns filled)) as [ki|]; [|reflexivity].
    destruct (position "Quality" (columns filled)) as [qi|]; [|reflexivity].
    rewrite <- (same_cells_map (at_pos ki) _ _ (at_pos_cells ki) Rf).
    f_equal. f_equal.
    + apply same_cells_forallb; [|exact Rf].
      intros a b E. now rewrite (at_pos_cells qi a b E).
    + apply forallb_same. intros k. apply same_cells_existsb; [|exact Rf].
      intros a b E.
      now rewrite (at_pos_cells qi a b E), (has_key_cells ki k a b E).
  - exfalso. apply fill_needs_column in F. rewrite Hc in F.
    destruct (fill_compound_id_ok df' c F) as (? & ? & X & _). congruence.
  - exfalso. apply fill_needs_column in F'. rewrite <- Hc in F'.
    destruct (fill_compound_id_ok df c F') as (? & ? & X & _). congruence.
  - reflexivity.
Qed.

(** With labels in order the output is the list of the top hits of the
    keys, under a fresh index. *)
Lemma top_hits_in_key_order (df top : DataFrame) :
  increasing (rows df) ->
  extract_top_hits df = Ok top ->
  exists c others filled ki qi picked,
    compound_candidates df = c :: others
    /\ fill_compound_id df c = Ok filled
    /\ position "compound_id" (columns filled) = Some ki
    /\ position "Quality" (columns filled) = Some qi
    /\ Forall2 (first_best ki qi (rows filled))
               (group_keys (map (at_pos ki) (rows filled))) picked
    /\ top = mkDF (columns filled) (range_index 0 (map cells picked)).
Proof.
  intros Inc0 H.
  apply extract_top_hits_inv in H as (c & others & filled & C & F & T).
  pose proof F as F'.
  apply fill_compound_id_inv in F' as (i & ki & series & P & G & Cols & K & Ids & Inc).
  apply top_rows_unfold in T as (ki' & qi & idx & picked & K' & Q & I & L & _ & ->).
  rewrite K in K'. inversion K'; subst ki'. clear K'.
  pose proof (picked_first_best _ _ _ _ _ _ (Inc Inc0) I L) as FB.
  exists c, others, filled, ki, qi, picked. repeat split; auto.
  rewrite sort_by_sorted_id; [reflexivity|].
  eapply keys_sorted_rows; [apply (first_best_keys _ _ _ _ _ FB)|].
  apply sort_by_sorted. apply value_leb_total.
Qed.

Lemma top_hits_same_cells (ki qi : nat) (rs rs' : list Row) (keys : list value) :
  map cells rs = map cells rs' ->
  forall picked picked',
    Forall2 (first_best ki qi rs) keys picked ->
    Forall2 (first_best ki qi rs') keys picked' ->
    map cells picked = map cells picked'.
Proof.
  intros E. induction keys as [|k keys IH]; intros picked picked' H H'.
  - inversion H; inversion H'; reflexivity.
  - inversion H as [|? r ? p FB Rest]; inversion H' as [|? r' ? p' FB' Rest']; subst.
    simpl. rewrite (first_best_same_cells _ _ _ _ _ _ _ E FB FB'). f_equal.
    now apply IH.
Qed.

Lemma reduce_same_cells (df df' top : DataFrame) :
  columns df = columns df' ->
  map cells (rows (dropna_all df)) = map cells (rows (dropna_all df')) ->
  increasing (rows df) -> increasing (rows df') ->
  extract_top_hits df = Ok top -> extract_top_hits df' = Ok top.
Proof.
  intros Hc Hr Inc Inc' H.
  assert (V : valid_input df' = true).
  { rewrite <- (valid_same_cells df df' Hc Hr). eapply reduces_valid_input; eauto. }
  destruct (valid_input_reduces _ V) as [top' H']. rewrite H'. f_equal.
  destruct (top_hits_in_key_order _ _ Inc H)
    as (c & others & filled & ki & qi & picked & C & F & K & Q & FB & ->).
  destruct (top_hits_in_key_order _ _ Inc' H')
    as (c' & others' & filled' & ki' & qi' & picked' & C' & F' & K' & Q' & FB' & ->).
  assert (Cc : compound_candidates df = compound_candidates df')
    by (unfold compound_candidates; now rewrite Hc).
  rewrite C, C' in Cc. inversion Cc; subst c' others'. clear Cc.
  destruct (fill_same_cells _ _ _ _ _ Hc Hr F F') as [Cf Rf].
  rewrite <- Cf in K', Q'. rewrite K in K'. rewrite Q in Q'.
  inversion K'; inversion Q'; subst ki' qi'.
  rewrite <- (same_cells_map (at_pos ki) _ _ (at_pos_cells ki) Rf) in FB'.
  rewrite <- Cf. f_equal. f_equal. symmetry.
  eapply top_hits_same_cells; eauto.
Qed.

Lemma of_sheet_nonblank (s : Sheet) :
  map cells (rows (dropna_all (of_sheet s))) = nonblank_rows s.
Proof.
  unfold nonblank_rows, dropna_all, of_sheet. simpl.
  generalize (map (fit (List.length (header s))) (body s)) as body.
  generalize 0 as n.
  intros n body. revert n. induction body as [|cs t IH]; intros n; [reflexivity|].
  simpl. destruct (forallb isna cs); simpl; now rewrite IH.
Qed.

(** X13: entirely blank rows do not matter, wherever they stand in the
    sheet: two sheets with the same header and the same rows that are not
    blank, in the same order, are reduced to the same table. *)
Theorem X13_blank_rows_do_not_matter :
  forall (s s' : Sheet) (top : DataFrame),
    header s = header s' ->
    nonblank_rows s = nonblank_rows s' ->
    extract_top_hits (of_sheet s) = Ok top ->
    extract_top_hits (of_sheet s') = Ok top.
Proof.
  intros s s' top Hh Hn H.
  apply (reduce_same_cells (of_sheet s) (of_sheet s') top); auto.
  - now rewrite !of_sheet_nonblank.
  - apply of_sheet_increasing.
  - apply of_sheet_increasing.
Qed.

Lemma X13_witness :
  extract_top_hits
    (of_sheet
       (mkSheet ["Compound number (#)"; "Hit Name"; "Quality"]
                [ [None; None; None];
                  [Some (VNum 7); Some (VStr "limonene"); Some (VNum 91)];
                  [None; None; None];
                  [None; None; None];
                  [None; Some (VStr "pinene"); Some (VNum 91)];
                  [Some (VNum 3); Some (VStr "hexanal"); Some (VNum 64)] ]))
  = Ok tie_example_top.
Proof.
  apply (X13_blank_rows_do_not_matter tie_example); reflexivity.
Defined.

End BlankRowsResult.

(** ** File cleaner *)

Section CleanerMore.

Import Frame.

(** A cleaned table is the table of top hits, renamed, with the parsed
    metadata attached. *)
Lemma clean_rpw_file_inv (file_obj : FileObj) (filename : string) (out : DataFrame) :
  clean_rpw_file file_obj filename = Ok out ->
  exists df_raw df_hits meta,
    load_libres_sheet file_obj filename = Ok df_raw
    /\ extract_top_hits df_raw = Ok df_hits
    /\ extract_metadata_from_filename filename = Ok meta
    /\ out = attach (rename df_hits rename_map) (items meta).
Proof.
  unfold clean_rpw_file. intros H.
  destruct (load_libres_sheet file_obj filename) as [df_raw|]; [|discriminate].
  cbn [bind] in H.
  destruct (extract_top_hits df_raw) as [df_hits|] eqn:Ex; [|discriminate].
  cbn [bind] in H.
  destruct (extract_metadata_from_filename filename) as [meta|]; [|discriminate].
  cbn [bind] in H.
  exists df_raw, df_hits, meta.
  split; [reflexivity|]. split; [exact Ex|]. split; [reflexivity|].
  now inversion H.
Qed.

(** X15: the cleaner runs the sheet extractor, the reducer and the
    file-name parser in this order and fails exactly when one of them
    fails, with the exception of the first that does; renaming the columns
    and attaching the metadata never fail.  For a file name of at most
    4300 characters the parser cannot fail, and the cleaner fails exactly
    when the extractor or the reducer does. *)
Theorem X15_cleaner_outcomes :
  forall (file_obj : FileObj) (filename : string),
    (forall e,
       clean_rpw_file file_obj filename = Raise e <->
       load_libres_sheet file_obj filename = Raise e
       \/ (exists df_raw,
             load_libres_sheet file_obj filename = Ok df_raw
             /\ extract_top_hits df_raw = Raise e)
       \/ (exists df_raw df_hits,
             load_libres_sheet file_obj filename = Ok df_raw
             /\ extract_top_hits df_raw = Ok df_hits
             /\ extract_metadata_from_filename filename = Raise e))
    /\ ((exists out, clean_rpw_file file_obj filename = Ok out) <->
        exists df_raw df_hits meta,
          load_libres_sheet file_obj filename = Ok df_raw
          /\ extract_top_hits df_raw = Ok df_hits
          /\ extract_metadata_from_filename filename = Ok meta)
    /\ ((String.length filename <= Str.int_max_str_digits)%nat ->
        forall e,
          clean_rpw_file file_obj filename = Raise e <->
          load_libres_sheet file_obj filename = Raise e
          \/ exists df_raw,
               load_libres_sheet file_obj filename = Ok df_raw
               /\ extract_top_hits df_raw = Raise e).
Proof.
  intros file_obj filename.
  assert (Stages : forall e,
    clean_rpw_file file_obj filename = Raise e <->
    load_libres_sheet file_obj filename = Raise e
    \/ (exists df_raw,
          load_libres_sheet file_obj filename = Ok df_raw
          /\ extract_top_hits df_raw = Raise e)
    \/ (exists df_raw df_hits,
          load_libres_sheet file_obj filename = Ok df_raw
          /\ extract_top_hits df_raw = Ok df_hits
          /\ extract_metadata_from_filename filename = Raise e)).
  { intros e. unfold clean_rpw_file.
    destruct (load_libres_sheet file_obj filename) as [df_raw|e0]; cbn [bind].
    - destruct (extract_top_hits df_raw) as [df_hits|e1] eqn:E; cbn [bind].
      + destruct (extract_metadata_from_filename filename) as [meta|e2];
          cbn [bind].
        * split; [discriminate|].
          intros [H | [(d & H & H') | (d & h & H & H' & H'')]];
            [discriminate | inversion H; subst; congruence | discriminate].
        * split.
          -- intros H. right. right. exists df_raw, df_hits.
             inversion H; subst. now repeat split.
          -- intros [H | [(d & H & H') | (d & h & H & H' & H'')]];
               [discriminate | inversion H; subst; congruence
                | inversion H''; reflexivity].
      + split.
        * intros H. right. left. exists df_raw. inversion H; subst. now split.
        * intros [H | [(d & H & H') | (d & h & H & H' & H'')]];
            [discriminate | inversion H; subst; congruence
             | inversion H; subst; congruence].
    - split; [intros H; now left|].
      intros [H | [(d & H & _) | (d & h & H & _)]];
        [exact H | discriminate | discriminate]. }
  split; [exact Stages|]. split.
  - split.
    + intros [out H].
      apply clean_rpw_file_inv in H as (df_raw & df_hits & meta & L & E & P & _).
      now exists df_raw, df_hits, meta.
    + intros (df_raw & df_hits & meta & L & E & P).
      unfold clean_rpw_file. rewrite L. cbn [bind]. rewrite E. cbn [bind].
      rewrite P. cbn [bind]. eauto.
  - intros Short e. rewrite Stages.
    destruct (short_name_parses filename Short) as [m Pm].
    split.
    + intros [H | [H | (d & h & _ & _ & H)]]; [now left | now right | congruence].
    + intros [H | H]; [now left | right; now left].
Qed.

Lemma X15_witness :
  (String.length "Healthy_24h-char-1.xlsx" <= Str.int_max_str_digits)%nat
  /\ clean_rpw_file short_file "Healthy_24h-char-1.xlsx"
     = Raise (Propagated
                (PdValueError "Passed header=[8], len of 1, but only 3 lines in file"))
  /\ load_libres_sheet short_file "Healthy_24h-char-1.xlsx"
     = Raise (Propagated
                (PdValueError "Passed header=[8], len of 1, but only 3 lines in file")).
Proof.
  assert (Short : (String.length "Healthy_24h-char-1.xlsx"
                   <= Str.int_max_str_digits)%nat)
    by (apply Nat.leb_le; reflexivity).
  split; [exact Short|]. split; [reflexivity|].
  destruct (X15_cleaner_outcomes short_file "Healthy_24h-char-1.xlsx")
    as (_ & _ & Two).
  destruct (proj1 (Two Short _) eq_refl) as [H | (d & H & _)];
    [exact H | discriminate H].
Defined.

Lemma attach_rows (meta : list (string * cell)) :
  forall df : DataFrame,
    map label (rows (attach df meta)) = map label (rows df).
Proof.
  induction meta as [|[k v] meta IH]; intros df; simpl; [reflexivity|].
  rewrite IH. simpl. rewrite map_map. apply map_ext. intros r.
  apply set_cell_label.
Qed.

(** A metadata key holds its value in every row, whatever is attached
    after it under other keys. *)
Lemma attach_values (meta : list (string * cell)) :
  NoDup (map fst meta) ->
  forall (df : DataFrame) (key : string) (v : cell),
    In (key, v) meta ->
    exists j,
      position key (columns (attach df meta)) = Some j
      /\ forall r, In r (rows (attach df meta)) -> at_pos j r = v.
Proof.
  induction meta as [|[k0 v0] meta IH]; intros N df key v H; [easy|].
  simpl in N. inversion N as [|? ? N0 N']; subst.
  destruct H as [H | H].
  - inversion H; subst k0 v0. simpl.
    destruct (set_columns_position (columns df) key) as [j K].
    destruct (attach_spec meta (setitem_scalar df key v)) as (_ & _ & A3).
    destruct (A3 key j K N0) as [P R].
    exists j. split; [exact P|].
    intros r Hr. apply (in_map (at_pos j)) in Hr. rewrite R in Hr.
    simpl in Hr. rewrite map_map in Hr. apply in_map_iff in Hr as (r0 & E & _).
    rewrite <- E. now apply set_cell_at.
  - simpl. now apply IH.
Qed.

Lemma items_keys_distinct (m : SampleMetadata) : NoDup (map fst (items m)).
Proof.
  simpl. repeat constructor; simpl; intuition discriminate.
Qed.

(** The metadata columns of a cleaned table are constant. *)
Lemma cleaned_metadata :
  forall (file_obj : FileObj) (filename : string) (out : DataFrame),
    clean_rpw_file file_obj filename = Ok out ->
    exists meta,
      extract_metadata_from_filename filename = Ok meta
      /\ (forall key v,
            In (key, v) (items meta) ->
            exists j,
              position key (columns out) = Some j
              /\ forall r, In r (rows out) -> at_pos j r = v)
      /\ exists j,
           position "source_file" (columns out) = Some j
           /\ forall r, In r (rows out) -> at_pos j r = Some (VStr filename).
Proof.
  intros file_obj filename out H.
  apply clean_rpw_file_inv in H as (df_raw & df_hits & meta & _ & _ & Pm & ->).
  assert (All : forall key v,
    In (key, v) (items meta) ->
    exists j,
      position key (columns (attach (rename df_hits rename_map) (items meta)))
      = Some j
      /\ forall r,
           In r (rows (attach (rename df_hits rename_map) (items meta))) ->
           at_pos j r = v).
  { intros key v I. apply attach_values; [apply items_keys_distinct | exact I]. }
  exists meta. split; [exact Pm|]. split; [exact All|].
  apply All. simpl. right. right. right. right. left.
  destruct (parser_fields _ _ Pm) as (Src & _). now rewrite Src.
Qed.

(** X16: in the cleaned table every metadata field is a column that holds
    the same value in all rows, the value parsed from the file name; the
    column [source_file] holds the file name as it was given. *)
Theorem X16_metadata_columns :
  forall (file_obj : FileObj) (filename : string) (out : DataFrame),
    clean_rpw_file file_obj filename = Ok out ->
    exists meta,
      extract_metadata_from_filename filename = Ok meta
      /\ (forall key v,
            In (key, v) (items meta) ->
            exists j,
              position key (columns out) = Some j
              /\ forall r, In r (rows out) -> at_pos j r = v)
      /\ exists j,
           position "source_file" (columns out) = Some j
           /\ forall r, In r (rows out) -> at_pos j r = Some (VStr filename).
Proof. exact cleaned_metadata. Qed.

Lemma X16_witness :
  clean_rpw_file example_file "Infested_MASA_72h-dvb-3.xlsx" = Ok example_cleaned
  /\ exists j,
       position "source_file" (columns example_cleaned) = Some j
       /\ forall r, In r (rows example_cleaned) ->
                    at_pos j r = Some (VStr "Infested_MASA_72h-dvb-3.xlsx").
Proof.
  split; [reflexivity|].
  destruct (X16_metadata_columns example_file "Infested_MASA_72h-dvb-3.xlsx"
              example_cleaned eq_refl) as (meta & _ & _ & Src).
  exact Src.
Defined.

End CleanerMore.

Section CleanerShape.

Import Frame.

Lemma attach_rectangular (meta : list (string * cell)) :
  meta <> [] -> forall df, rectangular (attach df meta).
Proof.
  induction meta as [|[k v] meta IH]; intros N df; [now elim N|].
  destruct meta as [|m rest].
  - simpl. intros r Hr. simpl in Hr. apply in_map_iff in Hr as (r0 & <- & _).
    simpl. apply set_cell_width.
  - change (attach df ((k, v) :: m :: rest))
      with (attach (setitem_scalar df k v) (m :: rest)).
    apply IH. discriminate.
Qed.

Lemma same_labels_length (rs rs' : list Row) :
  map label rs = map label rs' -> List.length rs = List.length rs'.
Proof. intros H. apply (f_equal (@List.length _)) in H. now rewrite !length_map in H. Qed.

(** X17: the cleaned table of a file has one row for each distinct
    identifier in the compound column of its LibRes sheet; its index is
    0, 1, 2, ... and every row has one cell per column. *)
Theorem X17_cleaned_table_rows :
  forall (file_obj : FileObj) (filename : string) (out : DataFrame),
    clean_rpw_file file_obj filename = Ok out ->
    exists sheet c raw,
      load_libres_sheet file_obj filename = Ok (of_sheet sheet)
      /\ hd_error (compound_candidates (of_sheet sheet)) = Some c
      /\ getitem (of_sheet sheet) c = Ok raw
      /\ List.length (rows out)
         = List.length (nodup Value.eq_dec (notna raw))
      /\ range_indexed out
      /\ rectangular out.
Proof.
  intros file_obj filename out H.
  apply clean_rpw_file_inv in H as (df_raw & df_hits & parsed & Ld & Ex & _ & ->).
  set (meta := items parsed) in *.
  assert (Sh : exists sheet, df_raw = of_sheet sheet).
  { unfold load_libres_sheet in Ld.
    destruct (opened file_obj _) as [xls|]; [|discriminate]. simpl in Ld.
    destruct (find_libres (sheet_names xls)) as [name|]; [|discriminate].
    destruct (parse xls name 8) as [sheet|]; [|discriminate]. simpl in Ld.
    inversion Ld. eauto. }
  destruct Sh as [sheet ->].
  destruct (top_ids_of_sheet sheet df_hits Ex) as (c & raw & ki & C & G & K & Ids & _).
  pose proof (attach_rows meta (rename df_hits rename_map)) as Lb.
  change (rows (rename df_hits rename_map)) with (rows df_hits) in Lb.
  assert (Xh : range_indexed df_hits).
  { apply extract_top_hits_inv in Ex as (? & ? & filled & _ & _ & T).
    now destruct (top_rows_from_filled _ _ _ T) as (_ & X & _). }
  exists sheet, c, raw. repeat split; auto.
  - rewrite (same_labels_length _ _ Lb).
    apply (f_equal (@List.length _)) in Ids. rewrite !length_map in Ids.
    now rewrite Ids, group_keys_length.
  - unfold range_indexed. rewrite Lb, (same_labels_length _ _ Lb). exact Xh.
  - apply attach_rectangular. discriminate.
Qed.

Lemma X17_witness :
  clean_rpw_file example_file "Infested_MASA_72h-dvb-3.xlsx" = Ok example_cleaned
  /\ List.length (rows example_cleaned) = 2
  /\ range_indexed example_cleaned
  /\ rectangular example_cleaned.
Proof.
  split; [reflexivity|].
  destruct (X17_cleaned_table_rows example_file "Infested_MASA_72h-dvb-3.xlsx"
              example_cleaned eq_refl) as (sheet & c & raw & _ & _ & _ & _ & X & R).
  split; [reflexivity|]. split; [exact X | exact R].
Defined.

Lemma lookup_in (m : list (string * string)) (c v : string) :
  lookup m c = Some v -> In v (map snd m).
Proof.
  induction m as [|[k x] m IH]; simpl; [discriminate|].
  destruct (String.eqb c k); [intros H; inversion H; now left | intros H; right; auto].
Qed.

Lemma lookup_none (m : list (string * string)) (c : string) :
  lookup m c = None -> ~ In c (map fst m).
Proof.
  induction m as [|[k x] m IH]; simpl; [intros _ []|].
  destruct (String.eqb c k) eqn:E; [discriminate|].
  apply String.eqb_neq in E. intros H [X | X]; [congruence | now apply IH].
Qed.

(** No canonical name of the renaming table is itself a source name. *)
Lemma rename_map_targets :
  forall v, In v (map snd rename_map) -> ~ In v (map fst rename_map).
Proof.
  intros v H.
  assert (B : forallb (fun t => negb (existsb (String.eqb t) (map fst rename_map)))
                      (map snd rename_map) = true) by reflexivity.
  rewrite forallb_forall in B. specialize (B v H).
  intros I. apply negb_true_iff in B.
  assert (X : existsb (String.eqb v) (map fst rename_map) = true).
  { apply existsb_exists. exists v. split; [exact I | apply String.eqb_refl]. }
  congruence.
Qed.

Lemma rename_one_not_source (c : string) :
  ~ In (rename_one rename_map c) (map fst rename_map).
Proof.
  unfold rename_one. destruct (lookup rename_map c) as [v|] eqn:L.
  - apply rename_map_targets. eapply lookup_in; eauto.
  - now apply lookup_none.
Qed.

Lemma attach_columns_inv (meta : list (string * cell)) :
  forall (df : DataFrame) (d : string),
    In d (columns (attach df meta)) -> In d (columns df) \/ In d (map fst meta).
Proof.
  induction meta as [|[k v] meta IH]; intros df d H; simpl in *; [now left|].
  destruct (IH _ _ H) as [I | I]; [|right; now right].
  simpl in I. unfold set_columns in I.
  destruct (position k (columns df)); [now left|].
  apply in_app_or in I as [I | [I | []]]; [now left | right; now left].
Qed.

(** X18: no source header of the renaming table survives in the cleaned
    table: each is replaced by its canonical name, which is never a source
    header itself, and no metadata key is one either.  In particular the
    table has a column "quality" and none called "Quality". *)
Theorem X18_source_headers_replaced :
  forall (file_obj : FileObj) (filename : string) (out : DataFrame),
    clean_rpw_file file_obj filename = Ok out ->
    (forall k, In k (map fst rename_map) -> ~ In k (columns out))
    /\ In "quality" (columns out)
    /\ ~ In "Quality" (columns out).
Proof.
  intros file_obj filename out H.
  apply clean_rpw_file_inv in H as (df_raw & df_hits & parsed & _ & Ex & _ & ->).
  set (meta := items parsed).
  assert (Gone : forall k, In k (map fst rename_map) ->
                 ~ In k (columns (attach (rename df_hits rename_map) meta))).
  { intros k Hk I. apply attach_columns_inv in I as [I | I].
    - simpl in I. apply in_map_iff in I as (c & <- & _).
      now apply (rename_one_not_source c).
    - revert Hk. unfold meta in I. simpl in I.
      destruct I as [<- | [<- | [<- | [<- | [<- | []]]]]];
        simpl; intuition discriminate. }
  split; [exact Gone|]. split.
  - destruct (attach_spec meta (rename df_hits rename_map)) as (A1 & _).
    apply A1. simpl.
    change "quality" with (rename_one rename_map "Quality"). apply in_map.
    apply extract_top_hits_inv in Ex as (? & ? & filled & _ & _ & T).
    apply top_rows_unfold in T as (? & qi & ? & ? & _ & Q & _ & _ & _ & ->).
    simpl. eapply position_in; eauto.
  - apply Gone. simpl. tauto.
Qed.

Lemma X18_witness :
  clean_rpw_file example_file "Infested_MASA_72h-dvb-3.xlsx" = Ok example_cleaned
  /\ In "quality" (columns example_cleaned)
  /\ ~ In "Quality" (columns example_cleaned).
Proof.
  split; [reflexivity|].
  destruct (X18_source_headers_replaced example_file
              "Infested_MASA_72h-dvb-3.xlsx" example_cleaned eq_refl)
    as (_ & Has & Not).
  split; [exact Has | exact Not].
Defined.

(** X19: normalising the column names a second time changes nothing:
    the canonical names are fixed points of the renaming table, and a name
    the table does not know is left as it is. *)
Theorem X19_rename_idempotent :
  forall df : DataFrame,
    rename (rename df rename_map) rename_map = rename df rename_map
    /\ rows (rename df rename_map) = rows df
    /\ forall c, ~ In c (map fst rename_map) ->
                 rename_one rename_map c = c.
Proof.
  intros df. split; [|split].
  - unfold rename. simpl. f_equal. rewrite map_map. apply map_ext.
    intros c. pose proof (rename_one_not_source c) as N.
    unfold rename_one at 1.
    destruct (lookup rename_map (rename_one rename_map c)) as [v|] eqn:L;
      [|reflexivity].
    exfalso. apply N. clear N.
    revert L. generalize (rename_one rename_map c) as x.
    intros x. induction rename_map as [|[k y] m IH]; simpl; [discriminate|].
    destruct (String.eqb x k) eqn:E; [|intros L; right; now apply IH].
    apply String.eqb_eq in E. now left.
  - reflexivity.
  - intros c N. unfold rename_one.
    destruct (lookup rename_map c) as [v|] eqn:L; [|reflexivity].
    exfalso. apply N. revert L.
    induction rename_map as [|[k y] m IH]; simpl; [discriminate|].
    destruct (String.eqb c k) eqn:E.
    + apply String.eqb_eq in E. now left.
    + intros L. right. apply IH; [|exact L].
      intros I. apply N. now right.
Qed.

End CleanerShape.

(** ** The upload loop and the combined table *)

Section AppFacts.

Import Frame.

Lemma fold_step (files : list App.UploadedFile) :
  forall (tables : list DataFrame) (pg : list App.shown),
    fold_left App.step files (tables, pg)
    = (tables
         ++ flat_map (fun f => match clean_rpw_file (App.stream f) (App.name f) with
                               | Ok t => [t]
                               | Raise _ => []
                               end) files,
       pg
         ++ flat_map (fun f =>
                        App.Processing (App.name f)
                        :: match clean_rpw_file (App.stream f) (App.name f) with
                           | Ok _ => []
                           | Raise e => [App.ErrorBox (App.name f) e]
                           end) files).
Proof.
  induction files as [|f fs IH]; intros tables pg; simpl.
  - now rewrite !app_nil_r.
  - destruct (clean_rpw_file (App.stream f) (App.name f)) as [t|e]; rewrite IH;
      simpl; now rewrite <- !app_assoc.
Qed.

Lemma all_tables_flat_map (files : list App.UploadedFile) :
  App.all_tables files
  = flat_map (fun f => match clean_rpw_file (App.stream f) (App.name f) with
                       | Ok t => [t]
                       | Raise _ => []
                       end) files.
Proof. unfold App.all_tables, App.run. now rewrite fold_step. Qed.

(** X20: the loop keeps, in upload order, the table of every file the
    cleaner succeeds on and shows the exception of every file it fails on
    together with the file name; a failing file changes nothing about the
    tables of the others, and no table is kept exactly when every file
    fails. *)
Theorem X20_upload_loop :
  forall files : list App.UploadedFile,
    App.all_tables files
    = flat_map (fun f => match clean_rpw_file (App.stream f) (App.name f) with
                         | Ok t => [t]
                         | Raise _ => []
                         end) files
    /\ App.page files
       = flat_map (fun f =>
                     App.Processing (App.name f)
                     :: match clean_rpw_file (App.stream f) (App.name f) with
                        | Ok _ => []
                        | Raise e => [App.ErrorBox (App.name f) e]
                        end) files
    /\ (forall before bad after e,
          files = before ++ bad :: after ->
          clean_rpw_file (App.stream bad) (App.name bad) = Raise e ->
          App.all_tables files = App.all_tables (before ++ after))
    /\ (App.all_tables files = [] <->
        forall f, In f files ->
                  exists e, clean_rpw_file (App.stream f) (App.name f) = Raise e).
Proof.
  intros files. split; [apply all_tables_flat_map|]. split; [|split].
  - unfold App.page, App.run. now rewrite fold_step.
  - intros before bad after e -> Bad.
    rewrite !all_tables_flat_map, !flat_map_app. simpl. now rewrite Bad.
  - rewrite all_tables_flat_map. induction files as [|f fs IH]; simpl.
    + split; [intros _ f [] | reflexivity].
    + destruct (clean_rpw_file (App.stream f) (App.name f)) as [t|e] eqn:E; simpl.
      * split; [discriminate|]. intros H.
        destruct (H f (or_introl eq_refl)) as [e X]. congruence.
      * rewrite IH. split.
        -- intros H f' [<- | I]; [eauto | now apply H].
        -- intros H f' I. apply H. now right.
Qed.

End AppFacts.

Section ConcatFacts.

Import Frame.

Lemma same_columns_eq (a b : list string) : App.same_columns a b = true -> a = b.
Proof.
  revert b; induction a as [|x a IH]; intros b H; destruct b as [|y b];
    try discriminate; [reflexivity|].
  simpl in H. apply andb_true_iff in H as [E H]. apply String.eqb_eq in E.
  subst. f_equal. now apply IH.
Qed.

Lemma union_columns_from (frames : list DataFrame) :
  forall (acc : list string) (c : string),
    In c acc \/ (exists df, In df frames /\ In c (columns df)) ->
    In c (fold_left
            (fun acc df =>
               acc ++ filter (fun c => negb (existsb (String.eqb c) acc)) (columns df))
            frames acc).
Proof.
  induction frames as [|d frames IH]; intros acc c H; simpl.
  - destruct H as [H | (df & [] & _)]. exact H.
  - apply IH. destruct H as [H | (df & [<- | I] & Hc)].
    + left. apply in_or_app. now left.
    + left. apply in_or_app.
      destruct (existsb (String.eqb c) acc) eqn:E.
      * left. apply existsb_exists in E as (x & Hx & Ex).
        apply String.eqb_eq in Ex. now subst.
      * right. apply filter_In. split; [exact Hc | now rewrite E].
    + right. eauto.
Qed.

Lemma range_index_app (n : nat) (a b : list (list cell)) :
  range_index n (a ++ b) = range_index n a ++ range_index (n + List.length a) b.
Proof.
  revert n; induction a as [|x a IH]; intros n; simpl.
  - now rewrite Nat.add_0_r.
  - rewrite IH. now rewrite Nat.add_succ_r.
Qed.

Lemma range_index_pairs (P : Row -> DataFrame * Row -> Prop)
      (lay : DataFrame -> Row -> list cell) (frames : list DataFrame) :
  (forall df r n, In df frames -> P (mkRow n (lay df r)) (df, r)) ->
  forall n,
    Forall2 P
      (range_index n (flat_map (fun df => map (lay df) (rows df)) frames))
      (flat_map (fun df => map (pair df) (rows df)) frames).
Proof.
  induction frames as [|d frames IH]; intros H n; simpl; [constructor|].
  rewrite range_index_app. apply Forall2_app.
  - generalize (rows d) as rs. intros rs. revert n.
    induction rs as [|r rs IHr]; intros n; simpl; constructor.
    + apply H. now left.
    + apply IHr.
  - apply IH. intros df r m I. apply H. now right.
Qed.

Lemma nth_map_position (f : string -> cell) (c : string) (cols : list string) (j : nat) :
  position c cols = Some j -> nth j (map f cols) None = f c.
Proof.
  intros P. pose proof (position_lt _ _ _ P) as L.
  rewrite (nth_indep _ None (f c)) by (now rewrite length_map).
  rewrite map_nth. f_equal.
  apply position_nth in P. now apply nth_error_nth.
Qed.

Lemma flat_map_rows_length {B} (f : DataFrame -> Row -> B) (frames : list DataFrame) :
  List.length (flat_map (fun df => map (f df) (rows df)) frames)
  = List.length (flat_map rows frames).
Proof.
  induction frames as [|d frames IH]; simpl; [reflexivity|].
  now rewrite !length_app, length_map, IH.
Qed.

(** The combined table has every column of every frame. *)
Lemma concat_columns (frames : list DataFrame) (all : DataFrame) :
  App.concat frames = Ok all ->
  forall df c, In df frames -> In c (columns df) -> In c (columns all).
Proof.
  unfold App.concat. destruct frames as [|first rest]; [discriminate|].
  set (frames := first :: rest).
  destruct (forallb (fun df => App.same_columns (columns df) (columns first)) frames)
    eqn:Same.
  - match goal with |- Ok ?t = _ -> _ => set (tbl := t) end.
    intros H. assert (E : tbl = all) by congruence.
    rewrite <- E. unfold tbl. clear H E tbl all.
    rewrite forallb_forall in Same.
    intros df c I Ic. cbn [columns].
    now rewrite <- (same_columns_eq _ _ (Same df I)).
  - destruct (forallb (fun df => App.unique (columns df)) frames); [|discriminate].
    match goal with |- Ok ?t = _ -> _ => set (tbl := t) end.
    intros H. assert (E : tbl = all) by congruence.
    rewrite <- E. unfold tbl. clear H E tbl all.
    intros df c I Ic. cbn [columns].
    apply union_columns_from. right. exists df. now split.
Qed.

(** What [pd.concat] makes of its frames. *)
Lemma concat_spec (frames : list DataFrame) (all : DataFrame) :
  App.concat frames = Ok all ->
  range_indexed all
  /\ List.length (rows all) = List.length (flat_map rows frames)
  /\ Forall2 (fun h p => carried all h (fst p) (snd p))
             (rows all)
             (flat_map (fun df => map (pair df) (rows df)) frames).
Proof.
  unfold App.concat. destruct frames as [|first rest]; [discriminate|].
  set (frames := first :: rest).
  destruct (forallb (fun df => App.same_columns (columns df) (columns first)) frames)
    eqn:Same.
  - (* the same columns everywhere *)
    match goal with |- Ok ?t = _ -> _ => set (tbl := t) end.
    intros H. assert (E : tbl = all) by congruence.
    rewrite <- E. unfold tbl. clear H E tbl all.
    rewrite forallb_forall in Same.
    split; [|split].
    + unfold range_indexed. simpl. now rewrite range_index_labels, range_index_length.
    + unfold rows at 1. rewrite range_index_length.
      exact (flat_map_rows_length (fun _ r => cells r) frames).
    + apply (range_index_pairs _ (fun _ r => cells r)).
      intros df r n I. unfold carried. simpl.
      rewrite <- (same_columns_eq _ _ (Same df I)). split.
      * intros c i P. exists i. now split.
      * intros c j P N. congruence.
  - destruct (forallb (fun df => App.unique (columns df)) frames); [|discriminate].
    match goal with |- Ok ?t = _ -> _ => set (tbl := t) end.
    intros H. assert (E : tbl = all) by congruence.
    rewrite <- E. unfold tbl. clear H E tbl all.
    split; [|split].
    + unfold range_indexed. simpl. now rewrite range_index_labels, range_index_length.
    + unfold rows at 1. rewrite range_index_length.
      exact (flat_map_rows_length
               (fun df r => App.reindex_row (columns df) (App.union_columns frames) r)
               frames).
    + apply (range_index_pairs _
               (fun df r => App.reindex_row (columns df) (App.union_columns frames) r)).
      intros df r n I. unfold carried. simpl. split.
      * intros c i P.
        destruct (position_present c (App.union_columns frames)) as [j Pj].
        { apply union_columns_from. right. exists df. split; [exact I|].
          eapply position_in; eauto. }
        exists j. split; [exact Pj|]. unfold at_pos at 1. simpl.
        unfold App.reindex_row. rewrite (nth_map_position _ c _ j Pj).
        now rewrite P.
      * intros c j Pj N. unfold at_pos. simpl.
        unfold App.reindex_row. rewrite (nth_map_position _ c _ j Pj).
        now rewrite N.
Qed.

(** X21: when [pd.concat] returns, the combined table has every column
    of every frame and the rows of the frames one after the other, frame
    by frame, under the index 0, 1, 2, ...; each row holds in every column
    of its frame what it held there, and NaN in the columns its frame does
    not have. *)
Theorem X21_concat_keeps_rows :
  forall (frames : list DataFrame) (all : DataFrame),
    App.concat frames = Ok all ->
    (forall df c, In df frames -> In c (columns df) -> In c (columns all))
    /\ range_indexed all
    /\ List.length (rows all) = List.length (flat_map rows frames)
    /\ Forall2 (fun h p => carried all h (fst p) (snd p))
               (rows all)
               (flat_map (fun df => map (pair df) (rows df)) frames).
Proof.
  intros frames all H. split.
  - now apply concat_columns.
  - now apply concat_spec.
Qed.

Lemma X21_witness :
  App.concat [ mkDF ["a"; "b"] [mkRow 0 [Some (VNum 1); Some (VNum 2)]];
               mkDF ["b"; "c"] [mkRow 0 [Some (VNum 3); Some (VNum 4)]] ]
  = Ok (mkDF ["a"; "b"; "c"]
             [ mkRow 0 [Some (VNum 1); Some (VNum 2); None];
               mkRow 1 [None; Some (VNum 3); Some (VNum 4)] ])
  /\ range_indexed
       (mkDF ["a"; "b"; "c"]
             [ mkRow 0 [Some (VNum 1); Some (VNum 2); None];
               mkRow 1 [None; Some (VNum 3); Some (VNum 4)] ]).
Proof.
  split; [reflexivity|].
  destruct (X21_concat_keeps_rows
              [ mkDF ["a"; "b"] [mkRow 0 [Some (VNum 1); Some (VNum 2)]];
                mkDF ["b"; "c"] [mkRow 0 [Some (VNum 3); Some (VNum 4)]] ]
              _ eq_refl) as [_ [X _]].
  exact X.
Defined.

End ConcatFacts.

Section CombinedTable.

Import Frame.

Lemma tagged_block (all t : DataFrame) (j : nat) (n : string) (rs : list Row) :
  (forall h r, In r rs -> carried all h t r -> at_pos j h = Some (VStr n)) ->
  forall hs,
    Forall2 (fun h p => carried all h (fst p) (snd p)) hs (map (pair t) rs) ->
    Forall2 (fun h m => at_pos j h = Some (VStr m)) hs (repeat n (List.length rs)).
Proof.
  induction rs as [|r rs IH]; intros Tag hs F; simpl in *.
  - inversion F. constructor.
  - inversion F as [|h p hs' ps C F' E1 E2]; subst. constructor.
    + apply (Tag h r); [now left | exact C].
    + apply IH; [|exact F']. intros h' r' I. apply Tag. now right.
Qed.

Lemma tagged_rows (all : DataFrame) (j : nat) (files : list App.UploadedFile) :
  (forall f t, clean_rpw_file (App.stream f) (App.name f) = Ok t ->
     forall h r, In r (rows t) -> carried all h t r ->
                 at_pos j h = Some (VStr (App.name f))) ->
  forall hs,
    Forall2 (fun h p => carried all h (fst p) (snd p)) hs
            (flat_map (fun df => map (pair df) (rows df))
               (flat_map (fun f => match clean_rpw_file (App.stream f) (App.name f) with
                                   | Ok t => [t]
                                   | Raise _ => []
                                   end) files)) ->
    Forall2 (fun h m => at_pos j h = Some (VStr m)) hs
            (flat_map (fun f => match clean_rpw_file (App.stream f) (App.name f) with
                                | Ok t => repeat (App.name f) (List.length (rows t))
                                | Raise _ => []
                                end) files).
Proof.
  intros Tag. induction files as [|f files IH]; intros hs F; simpl in *.
  - inversion F. constructor.
  - rewrite flat_map_app in F.
    apply Forall2_app_inv_r in F as (h1 & h2 & F1 & F2 & ->).
    apply Forall2_app; [|now apply IH].
    specialize (Tag f).
    destruct (clean_rpw_file (App.stream f) (App.name f)) as [t|e].
    + simpl in F1. rewrite app_nil_r in F1.
      apply (tagged_block all t); [|exact F1].
      intros h r. now apply Tag.
    + simpl in F1. inversion F1. constructor.
Qed.

(** X22: in the combined table the column [source_file] names, row by
    row, the uploaded file the row was cleaned from: the files the cleaner
    succeeds on follow each other in upload order, each with as many rows
    as its cleaned table, and the files it fails on contribute no row. *)
Theorem X22_combined_rows_name_their_file :
  forall (files : list App.UploadedFile) (all : DataFrame),
    App.df_all files = Some (Ok all) ->
    exists j,
      position "source_file" (columns all) = Some j
      /\ Forall2 (fun h m => at_pos j h = Some (VStr m))
                 (rows all)
                 (flat_map (fun f =>
                              match clean_rpw_file (App.stream f) (App.name f) with
                              | Ok t => repeat (App.name f) (List.length (rows t))
                              | Raise _ => []
                              end) files).
Proof.
  intros files all H. unfold App.df_all in H.
  destruct (App.all_tables files) as [|d rest] eqn:T; [discriminate|].
  assert (C : App.concat (App.all_tables files) = Ok all) by (rewrite T; congruence).
  clear H.
  assert (Id : In d (App.all_tables files)) by (rewrite T; now left).
  clear T rest. rewrite all_tables_flat_map in *.
  apply in_flat_map in Id as (f0 & If0 & I0).
  destruct (clean_rpw_file (App.stream f0) (App.name f0)) as [t0|] eqn:C0; [|now elim I0].
  destruct I0 as [->|[]].
  destruct (cleaned_metadata _ _ _ C0) as (_ & _ & _ & i0 & P0 & _).
  destruct (position_present "source_file" (columns all)) as [j Pj].
  { eapply concat_columns; [exact C| |eapply position_in; exact P0].
    apply in_flat_map. exists f0. split; [exact If0|]. rewrite C0. now left. }
  exists j. split; [exact Pj|].
  apply (tagged_rows all); [|now apply concat_spec].
  intros f t Cf h r Ir [Has _].
  destruct (cleaned_metadata _ _ _ Cf) as (_ & _ & _ & i & Pi & Vi).
  destruct (Has _ _ Pi) as (j' & Pj' & E).
  assert (j' = j) by congruence. subst j'.
  rewrite E. now apply Vi.
Qed.

Lemma X22_witness :
  App.df_all [ App.mkUpload "broken.xls" (mkFileObj (fun _ => Raise (PdReaderError "not a workbook")));
               App.mkUpload "Infested_MASA_72h-dvb-3.xlsx" example_file ]
  = Some (Ok example_cleaned)
  /\ exists j,
       position "source_file" (columns example_cleaned) = Some j
       /\ Forall2 (fun h m => at_pos j h = Some (VStr m))
                  (rows example_cleaned)
                  [ "Infested_MASA_72h-dvb-3.xlsx"; "Infested_MASA_72h-dvb-3.xlsx" ].
Proof.
  split; [reflexivity|].
  exact (X22_combined_rows_name_their_file
           [ App.mkUpload "broken.xls"
               (mkFileObj (fun _ => Raise (PdReaderError "not a workbook")));
             App.mkUpload "Infested_MASA_72h-dvb-3.xlsx" example_file ]
           example_cleaned eq_refl).
Defined.

End CombinedTable.
